(** * Dexter: agent loop, context compactor, query analyzer, token estimator

    A shallow embedding of
      - src/utils/token-counter.ts
      - src/utils/query-analyzer.ts
      - src/utils/data-compactor.ts
      - src/agent/agent.ts, with the three prompt builders of
        src/agent/prompts.ts that it calls
    and properties of them: those that the specification states, and
    further ones that the code shows.

    Conventions.  A JavaScript string is a [string]: a sequence of code
    units below 256.  A JavaScript number that the code uses as a count, an
    index, a year or a budget is a [Z] (an iteration count a [nat]).  What
    the code takes from the JavaScript runtime and from modules outside the
    files above is a field of a class ([JsRuntime], [AgentEnv],
    [Throwing.Parser]); the definitions are parametric in them. *)

From Stdlib Require Import ZArith List Bool Ascii String Lia.
From Stdlib Require Import DecimalString.
Import ListNotations.

Open Scope string_scope.
Open Scope Z_scope.

(* ===================================================================== *)
(** ** JavaScript strings *)
(* ===================================================================== *)

Module Js.

Definition chars (s : string) : list ascii := list_ascii_of_string s.
Definition str (l : list ascii) : string := string_of_list_ascii l.

Definition len (s : string) : Z := Z.of_nat (String.length s).

Definition code (c : ascii) : nat := nat_of_ascii c.

Definition inRange (lo hi : nat) (c : ascii) : bool :=
  (Nat.leb lo (code c) && Nat.leb (code c) hi)%bool.

Definition isDigit (c : ascii) : bool := inRange 48 57 c.
Definition isUpper (c : ascii) : bool := inRange 65 90 c.
Definition isLower (c : ascii) : bool := inRange 97 122 c.

(** [\w] is [[A-Za-z0-9_]]. *)
Definition isWord (c : ascii) : bool :=
  (isUpper c || isLower c || isDigit c || Ascii.eqb c "_")%bool.

(** [\s] on code units below 256: tab, line feed, vertical tab, form feed,
    carriage return, space and no-break space. *)
Definition isSpace (c : ascii) : bool :=
  (inRange 9 13 c || Nat.eqb (code c) 32 || Nat.eqb (code c) 160)%bool.

Definition asciiLower (c : ascii) : ascii :=
  if isUpper c then ascii_of_nat (code c + 32) else c.
Definition asciiUpper (c : ascii) : ascii :=
  if isLower c then ascii_of_nat (code c - 32) else c.

(** [String.prototype.toLowerCase] on one code unit below 256: the letters
    A-Z and the Latin-1 capitals (192-222 but the multiplication sign 215)
    move up by 32. *)
Definition lowerChar (c : ascii) : ascii :=
  if (isUpper c || (inRange 192 222 c && negb (Nat.eqb (code c) 215)))%bool
  then ascii_of_nat (code c + 32) else c.

Definition toLowerCase (s : string) : string := str (map lowerChar (chars s)).

Fixpoint prefixb (p s : list ascii) : bool :=
  match p, s with
  | [], _ => true
  | a :: p', b :: s' => (Ascii.eqb a b && prefixb p' s')%bool
  | _ :: _, [] => false
  end.

Fixpoint infixb (p s : list ascii) : bool :=
  (prefixb p s || match s with [] => false | _ :: s' => infixb p s' end)%bool.

(** [s.startsWith(p)] and [s.includes(p)]. *)
Definition startsWith (s p : string) : bool := prefixb (chars p) (chars s).
Definition includes (s p : string) : bool := infixb (chars p) (chars s).

(** [ToIntegerOrInfinity] followed by the clamping of [slice]: a relative
    index counts from the end when negative. *)
Definition relIndex (n i : Z) : Z :=
  if i <? 0 then Z.max (n + i) 0 else Z.min i n.

(** [s.slice(from, to)]. *)
Definition slice (s : string) (from to : Z) : string :=
  let n := len s in
  let a := relIndex n from in
  let b := relIndex n to in
  String.substring (Z.to_nat a) (Z.to_nat (Z.max (b - a) 0)) s.

(** [a.slice(from, to)] on arrays. *)
Definition sliceList {A} (l : list A) (from to : Z) : list A :=
  let n := Z.of_nat (List.length l) in
  let a := relIndex n from in
  let b := relIndex n to in
  firstn (Z.to_nat (Z.max (b - a) 0)) (skipn (Z.to_nat a) l).

(** [a.slice(from)]. *)
Definition sliceFrom {A} (l : list A) (from : Z) : list A :=
  sliceList l from (Z.of_nat (List.length l)).

(** [String(n)] for an integer [n]. *)
Definition ofInt (n : Z) : string := NilZero.string_of_int (Z.to_int n).

Fixpoint digitsValue (acc : Z) (l : list ascii) : Z :=
  match l with
  | [] => acc
  | c :: l' => digitsValue (10 * acc + Z.of_nat (code c - 48)) l'
  end.

Fixpoint takeWhile {A} (p : A -> bool) (l : list A) : list A :=
  match l with
  | [] => []
  | a :: l' => if p a then a :: takeWhile p l' else []
  end.

Fixpoint dropWhile {A} (p : A -> bool) (l : list A) : list A :=
  match l with
  | [] => []
  | a :: l' => if p a then dropWhile p l' else l
  end.

(** [parseInt(s, 10)]: leading white space, an optional sign, then the
    longest run of digits; [None] is NaN. *)
Definition parseInt (s : string) : option Z :=
  let l := dropWhile isSpace (chars s) in
  let '(neg, l) :=
    match l with
    | c :: l' =>
        if Ascii.eqb c "-" then (true, l')
        else if Ascii.eqb c "+" then (false, l') else (false, l)
    | [] => (false, l)
    end in
  match takeWhile isDigit l with
  | [] => None
  | ds => Some (if neg then - digitsValue 0 ds else digitsValue 0 ds)
  end.

Definition strIn (x : string) (l : list string) : bool :=
  existsb (String.eqb x) l.

(** [[...new Set(l)]]: the first occurrence of each element, in order. *)
Fixpoint dedupAcc (seen l : list string) : list string :=
  match l with
  | [] => []
  | x :: l' => if strIn x seen then dedupAcc seen l' else x :: dedupAcc (x :: seen) l'
  end.

Definition dedup (l : list string) : list string := dedupAcc [] l.

(** [l.join(sep)]. *)
Fixpoint join (sep : string) (l : list string) : string :=
  match l with
  | [] => ""
  | [x] => x
  | x :: l' => x ++ sep ++ join sep l'
  end.

End Js.

(* ===================================================================== *)
(** ** Regular expressions

    The backtracking matcher of ECMAScript for the constructs the source
    uses: classes, sequence, ordered alternation, greedy bounded and
    unbounded repetition, [\b], [^], capture groups, and the flags [i] and
    [g]. *)
(* ===================================================================== *)

Module Regex.

Inductive re : Type :=
| Eps
| Cls (p : ascii -> bool)
| Seq (r1 r2 : re)
| Alt (r1 r2 : re)
| Rep (lo : nat) (hi : option nat) (r : re)
| WordB
| Bol
| Grp (n : nat) (r : re).

Definition caps : Type := list (nat * (nat * nat)).

Record found : Type := mkFound { mStart : nat; mEnd : nat; mCaps : caps }.

Section Matcher.
Variable ignoreCase : bool.
Variable s : list ascii.

Definition test (p : ascii -> bool) (c : ascii) : bool :=
  if ignoreCase then (p c || p (Js.asciiUpper c) || p (Js.asciiLower c))%bool
  else p c.

Definition wordAt (i : nat) : bool :=
  match nth_error s i with Some c => Js.isWord c | None => false end.

Definition atWordB (i : nat) : bool :=
  xorb (match i with O => false | S j => wordAt j end) (wordAt i).

Definition below (hi : option nat) (cnt : nat) : bool :=
  match hi with None => true | Some h => Nat.ltb cnt h end.

Fixpoint m (r : re) (k : nat -> caps -> option (nat * caps))
         (i : nat) (c : caps) {struct r} : option (nat * caps) :=
  match r with
  | Eps => k i c
  | Cls p =>
      match nth_error s i with
      | Some a => if test p a then k (S i) c else None
      | None => None
      end
  | Seq r1 r2 => m r1 (m r2 k) i c
  | Alt r1 r2 =>
      match m r1 k i c with
      | Some x => Some x
      | None => m r2 k i c
      end
  | Rep lo hi r' =>
      (fix rep (fuel cnt i : nat) (c : caps) {struct fuel} : option (nat * caps) :=
         let stop := if Nat.leb lo cnt then k i c else None in
         match fuel with
         | O => stop
         | S f =>
             if below hi cnt then
               match m r' (fun j c' =>
                             if (Nat.eqb j i && Nat.leb lo cnt)%bool then None
                             else rep f (S cnt) j c') i c with
               | Some x => Some x
               | None => stop
               end
             else stop
         end) (lo + S (List.length s))%nat O i c
  | WordB => if atWordB i then k i c else None
  | Bol => match i with O => k i c | S _ => None end
  | Grp n r' => m r' (fun j c' => k j ((n, (i, j)) :: c')) i c
  end.

(** The first start position at or after [i] where [r] matches. *)
Fixpoint searchFrom (r : re) (fuel i : nat) : option found :=
  match m r (fun j c => Some (j, c)) i [] with
  | Some (j, c) => Some (mkFound i j c)
  | None =>
      match fuel with
      | O => None
      | S f => searchFrom r f (S i)
      end
  end.

(** [r.exec(s)] with [lastIndex = i]. *)
Definition exec (r : re) (i : nat) : option found :=
  if Nat.ltb (List.length s) i then None
  else searchFrom r (List.length s - i) i.

(** The matches that [while ((match = r.exec(s)) !== null)] visits with
    the flag [g].  Each match of the patterns below consumes a character,
    so [lastIndex] advances and [S (length s)] rounds are enough. *)
Fixpoint execLoop (r : re) (fuel i : nat) : list found :=
  match fuel with
  | O => []
  | S f =>
      match exec r i with
      | None => []
      | Some x => x :: execLoop r f (mEnd x)
      end
  end.

Definition sub (a b : nat) : string :=
  Js.str (firstn (b - a) (skipn a s)).

(** [match[0]] and [match[n]]. *)
Definition whole (x : found) : string := sub (mStart x) (mEnd x).

Fixpoint lookup (n : nat) (c : caps) : option (nat * nat) :=
  match c with
  | [] => None
  | (k, ab) :: c' => if Nat.eqb k n then Some ab else lookup n c'
  end.

Definition group (n : nat) (x : found) : string :=
  match lookup n (mCaps x) with
  | Some (a, b) => sub a b
  | None => ""
  end.
End Matcher.

(** All matches of [r] in [q], flag [g]; [ic] is the flag [i]. *)
Definition matches (ic : bool) (r : re) (q : string) : list found :=
  execLoop ic (Js.chars q) r (S (List.length (Js.chars q))) O.

(** [r.test(q)] without the flag [g]. *)
Definition testRe (ic : bool) (r : re) (q : string) : bool :=
  match exec ic (Js.chars q) r O with Some _ => true | None => false end.

Definition groupOf (q : string) (n : nat) (x : found) : string :=
  group (Js.chars q) n x.
Definition wholeOf (q : string) (x : found) : string :=
  whole (Js.chars q) x.

(** Pattern syntax. *)
Definition chr (a : ascii) : re := Cls (Ascii.eqb a).
Definition digit : re := Cls Js.isDigit.
Definition wordc : re := Cls Js.isWord.
Definition space : re := Cls Js.isSpace.
Definition oneOf (l : list ascii) : re := Cls (fun c => existsb (Ascii.eqb c) l).
Definition range (a b : ascii) : re := Cls (Js.inRange (Js.code a) (Js.code b)).
Definition opt (r : re) : re := Rep 0 (Some 1%nat) r.
Definition plus (r : re) : re := Rep 1 None r.
Definition between (lo hi : nat) (r : re) : re := Rep lo (Some hi) r.
Definition times (n : nat) (r : re) : re := Rep n (Some n) r.

Fixpoint lit' (l : list ascii) : re :=
  match l with
  | [] => Eps
  | [a] => chr a
  | a :: l' => Seq (chr a) (lit' l')
  end.
Definition lit (w : string) : re := lit' (Js.chars w).

Fixpoint seq (l : list re) : re :=
  match l with
  | [] => Eps
  | [r] => r
  | r :: l' => Seq r (seq l')
  end.

Fixpoint alt (l : list re) : re :=
  match l with
  | [] => Cls (fun _ => false)
  | [r] => r
  | r :: l' => Alt r (alt l')
  end.

End Regex.

(* ===================================================================== *)
(** ** src/utils/token-counter.ts *)
(* ===================================================================== *)

Module TokenCounter.

Inductive ContentType : Type := text | json | code.

(** [CHARS_PER_TOKEN], doubled: 4, 3.5 and 3.5. *)
Definition CHARS_PER_TOKEN_x2 (t : ContentType) : Z :=
  match t with text => 8 | json => 7 | code => 7 end.

(** [Math.ceil(a / b)] for integers [a] and [b > 0]. *)
Definition ceilDiv (a b : Z) : Z := (a + b - 1) / b.

(** [estimateTokens(text, type)]: [Math.ceil(text.length / CHARS_PER_TOKEN[type])],
    and 0 for the empty string. *)
Definition estimateTokens (s : string) (t : ContentType) : Z :=
  if String.eqb s "" then 0
  else ceilDiv (2 * Js.len s) (CHARS_PER_TOKEN_x2 t).

(** [estimateJsonTokens(data)] when [data] is a string. *)
Definition estimateJsonTokens (s : string) : Z := estimateTokens s json.

Definition exceedsTokenBudget (s : string) (budget : Z) (t : ContentType) : bool :=
  budget <? estimateTokens s t.

Record TokenBudget : Type := mkBudget {
  maxInput : Z;
  toolResults : Z;
  perToolResult : Z;
  chatHistory : Z
}.

Definition TOKEN_BUDGETS_large : TokenBudget := mkBudget 200000 150000 40000 10000.
Definition TOKEN_BUDGETS_small : TokenBudget := mkBudget 12000 8000 3000 2000.

Definition getTokenBudget (model : string) : TokenBudget :=
  let smallContextModels := ["gpt-3.5-turbo"; "gpt-3.5"] in
  let isSmall := existsb (fun m => Js.includes (Js.toLowerCase model) m) smallContextModels in
  if isSmall then TOKEN_BUDGETS_small else TOKEN_BUDGETS_large.

End TokenCounter.

(* ===================================================================== *)
(** ** The JavaScript runtime

    [Date], the clock and [URL] are the runtime's; the code is modelled
    against this interface.  A time value is a [Z] (milliseconds since the
    epoch); [None] stands for NaN, the time value of an Invalid Date. *)
(* ===================================================================== *)

Class JsRuntime : Type := {
  (** [new Date()], the clock. *)
  Date_now : Z;
  (** [new Date(s).getTime()] and [Date.parse(s)]. *)
  Date_parse : string -> option Z;
  (** [new Date(year, month, day).getTime()]. *)
  Date_local : Z -> Z -> Z -> Z;
  (** [d.getFullYear()], [d.getMonth()], [d.getDate()] in local time. *)
  Date_getFullYear : Z -> Z;
  Date_getMonth : Z -> Z;
  Date_getDate : Z -> Z;
  (** [d.setFullYear(y)], [d.setMonth(m)], [d.setDate(n)]: the new time value. *)
  Date_setFullYear : Z -> Z -> option Z;
  Date_setMonth : Z -> Z -> option Z;
  Date_setDate : Z -> Z -> option Z;
  (** [new URL(s).origin]; [None] when the constructor throws. *)
  URL_origin : string -> option string
}.

(* ===================================================================== *)
(** ** src/utils/query-analyzer.ts *)
(* ===================================================================== *)

Module QueryAnalyzer.
Import Regex.

Record DateRange : Type := mkRange { start : option Z; end_ : option Z }.

Record QueryContext : Type := mkContext {
  years : list Z;
  dateRanges : list DateRange;
  timePeriods : list string;
  tickers : list string;
  requiresFullData : bool;
  calculationKeywords : list string
}.

Definition CALCULATION_KEYWORDS : list string :=
  [ "return"; "returns"; "cagr"; "annualized"; "growth rate";
    "volatility"; "standard deviation"; "sharpe"; "beta"; "alpha";
    "correlation"; "moving average"; "ma"; "sma"; "ema";
    "trend"; "regression"; "performance"; "compare"; "comparison";
    "drawdown"; "max drawdown"; "high"; "low"; "range";
    "ytd"; "mtd"; "qtd"; "year to date"; "month to date";
    "total return"; "price return"; "cumulative" ].

(** [/\b([A-Z]{1,5})\b/g] *)
Definition TICKER_PATTERN : re :=
  seq [WordB; Grp 1 (between 1 5 (range "A" "Z")); WordB].

Definition COMMON_TICKERS : list string :=
  [ "AAPL"; "MSFT"; "GOOGL"; "GOOG"; "AMZN"; "META"; "NVDA"; "TSLA";
    "AMD"; "INTC"; "IBM"; "ORCL"; "CRM"; "ADBE"; "NFLX"; "PYPL";
    "SPY"; "QQQ"; "IWM"; "DIA"; "VTI"; "VOO"; "ARKK";
    "JPM"; "BAC"; "WFC"; "GS"; "MS"; "C"; "V"; "MA"; "AXP";
    "JNJ"; "PFE"; "UNH"; "MRK"; "ABBV"; "LLY"; "BMY";
    "XOM"; "CVX"; "COP"; "SLB"; "OXY";
    "DIS"; "CMCSA"; "T"; "VZ"; "TMUS";
    "WMT"; "COST"; "TGT"; "HD"; "LOW"; "NKE"; "SBUX";
    "BA"; "CAT"; "GE"; "HON"; "MMM"; "UPS"; "FDX";
    "BTC"; "ETH"; "BNB"; "XRP"; "SOL"; "ADA"; "DOGE" ].

Definition TICKER_EXCLUSIONS : list string :=
  [ "THE"; "AND"; "FOR"; "NOT"; "ARE"; "BUT"; "HAS"; "HAD"; "WAS"; "CAN";
    "ALL"; "HER"; "HIS"; "ITS"; "OUR"; "WHO"; "HOW"; "WHY"; "DID"; "GET";
    "NOW"; "NEW"; "OLD"; "TOP"; "LOW"; "HIGH"; "USD"; "EUR"; "GBP"; "JPY";
    "YTD"; "MTD"; "QTD"; "TTM"; "MOM"; "YOY"; "QOQ"; "API"; "IPO"; "CEO";
    "CFO"; "COO"; "CTO"; "GDP"; "CPI"; "PPI"; "PMI"; "PCE"; "FED"; "SEC";
    "FCF"; "EPS"; "ROE"; "ROA"; "ROI"; "PER"; "DAY"; "FY23"; "FY24"; "FY25" ].

(** [parseInt(g, 10)] of a capture that is a run of digits (never NaN). *)
Definition parseDigits (g : string) : Z :=
  match Js.parseInt g with Some n => n | None => 0 end.

(** [/\b(19[89]\d|20[0-3]\d)\b/g] *)
Definition yearPattern : re :=
  seq [WordB;
       Grp 1 (alt [seq [lit "19"; oneOf ["8"; "9"]%char; digit];
                   seq [lit "20"; range "0" "3"; digit]]);
       WordB].

(** [/\bFY['']?(\d{2,4})\b/gi] *)
Definition fyPattern : re :=
  seq [WordB; lit "FY"; opt (oneOf ["'"; "'"]%char); Grp 1 (between 2 4 digit); WordB].

Definition includesZ (l : list Z) (y : Z) : bool := existsb (Z.eqb y) l.

(** [Array.prototype.sort] without a comparator orders by the code units
    of [String(x)], and is stable. *)
Definition sortBefore (a b : Z) : bool := String.ltb (Js.ofInt a) (Js.ofInt b).

Fixpoint sortInsert (x : Z) (l : list Z) : list Z :=
  match l with
  | [] => [x]
  | y :: l' => if sortBefore x y then x :: l else y :: sortInsert x l'
  end.

Definition sortDefault (l : list Z) : list Z :=
  fold_left (fun acc x => sortInsert x acc) l [].

Definition extractYears (query : string) : list Z :=
  (* 4-digit years *)
  let years :=
    map (fun mt => parseDigits (groupOf query 1 mt)) (matches false yearPattern query) in
  (* fiscal years FY23, FY2024 *)
  let years :=
    fold_left
      (fun years mt =>
         let year := parseDigits (groupOf query 1 mt) in
         let year := if year <? 100 then year + (if year <? 50 then 2000 else 1900) else year in
         if negb (includesZ years year) then (years ++ [year])%list else years)
      (matches true fyPattern query) years in
  sortDefault years.

Section WithRuntime.
Context {rt : JsRuntime}.

(** [parseDate(dateStr)] *)
Definition parseDate (dateStr : string) : option Z :=
  match Date_parse dateStr with
  | Some t => Some t
  | None =>
      match Js.parseInt dateStr with
      | Some yearOnly =>
          if ((1900 <=? yearOnly) && (yearOnly <=? 2100))%bool
          then Some (Date_local yearOnly 0 1)
          else None
      | None => None
      end
  end.

(** One of the three date forms of [rangePattern]:
    [\d{4}[-/]\d{1,2}[-/]\d{1,2}|\w+\s+\d{1,2},?\s+\d{4}|\d{4}] *)
Definition dateForm : re :=
  alt [seq [times 4 digit; oneOf ["-"; "/"]%char; between 1 2 digit;
            oneOf ["-"; "/"]%char; between 1 2 digit];
       seq [plus wordc; plus space; between 1 2 digit; opt (chr ",");
            plus space; times 4 digit];
       times 4 digit].

(** [/(?:from|between)\s+(...)\s+(?:to|and)\s+(...)/gi] *)
Definition rangePattern : re :=
  seq [alt [lit "from"; lit "between"]; plus space; Grp 1 dateForm;
       plus space; alt [lit "to"; lit "and"]; plus space; Grp 2 dateForm].

Definition unitForm : re := alt [lit "year"; lit "month"; lit "week"; lit "day"].

(** [/past\s+(\d+)\s+(year|month|week|day)s?/gi] *)
Definition pastPattern : re :=
  seq [lit "past"; plus space; Grp 1 (plus digit); plus space; Grp 2 unitForm; opt (chr "s")].

(** [/last\s+(\d+)\s+(year|month|week|day)s?/gi] *)
Definition lastPattern : re :=
  seq [lit "last"; plus space; Grp 1 (plus digit); plus space; Grp 2 unitForm; opt (chr "s")].

(** The [switch (unit)] on a copy of [now]. *)
Definition shiftBack (now amount : Z) (unit : string) : option Z :=
  if String.eqb unit "year" then Date_setFullYear now (Date_getFullYear now - amount)
  else if String.eqb unit "month" then Date_setMonth now (Date_getMonth now - amount)
  else if String.eqb unit "week" then Date_setDate now (Date_getDate now - amount * 7)
  else if String.eqb unit "day" then Date_setDate now (Date_getDate now - amount)
  else Some now.

Definition relativeRanges (now : Z) (pattern : re) (query : string) : list DateRange :=
  map (fun mt =>
         let amount := parseDigits (groupOf query 1 mt) in
         let unit := Js.toLowerCase (groupOf query 2 mt) in
         mkRange (shiftBack now amount unit) (Some now))
      (matches true pattern query).

Definition extractDateRanges (query : string) : list DateRange :=
  let now := Date_now in
  (* "from X to Y" or "between X and Y" *)
  let ranges :=
    flat_map (fun mt =>
                match parseDate (groupOf query 1 mt), parseDate (groupOf query 2 mt) with
                | Some s, Some e => [mkRange (Some s) (Some e)]
                | _, _ => []
                end)
             (matches true rangePattern query) in
  (* "past N years/months" *)
  let ranges := (ranges ++ relativeRanges now pastPattern query)%list in
  (* "last N years/months" *)
  (ranges ++ relativeRanges now lastPattern query)%list.

(** [[\s-]] *)
Definition sepc : re := Cls (fun c => (Js.isSpace c || Ascii.eqb c "-")%bool).

Definition periodPatterns : list re :=
  [ seq [lit "past"; plus space; plus digit; plus space; unitForm; opt (chr "s")];
    seq [lit "last"; plus space; plus digit; plus space; unitForm; opt (chr "s")];
    seq [plus digit; opt sepc; lit "year"];
    alt [lit "ytd"; seq [lit "year"; opt sepc; lit "to"; opt sepc; lit "date"]];
    alt [lit "mtd"; seq [lit "month"; opt sepc; lit "to"; opt sepc; lit "date"]];
    alt [lit "qtd"; seq [lit "quarter"; opt sepc; lit "to"; opt sepc; lit "date"]];
    alt [lit "ttm"; seq [lit "trailing"; plus space; lit "twelve"; plus space;
                         lit "month"; opt (chr "s")]];
    seq [lit "last"; plus space; alt [lit "quarter"; seq [chr "q"; range "1" "4"]]];
    seq [alt [seq [chr "q"; range "1" "4"]; lit "first"; lit "second"; lit "third";
              lit "fourth"];
         plus space; lit "quarter"];
    seq [lit "all"; opt sepc; lit "time"];
    seq [lit "since"; plus space; alt [lit "inception"; lit "ipo"; lit "listing"]] ].

Definition extractTimePeriods (query : string) : list string :=
  let lowerQuery := Js.toLowerCase query in
  let periods :=
    flat_map (fun pattern =>
                map (fun mt => Js.toLowerCase (wholeOf query mt))
                    (matches true pattern query))
             periodPatterns in
  let keywordPeriods := ["yesterday"; "today"; "this week"; "this month"; "this year"] in
  let periods := (periods ++ filter (fun kw => Js.includes lowerQuery kw) keywordPeriods)%list in
  Js.dedup periods.

(** [/\$([A-Z]{1,5})\b/g] *)
Definition dollarPattern : re :=
  seq [chr "$"; Grp 1 (between 1 5 (range "A" "Z")); WordB].

Definition extractTickers (query : string) : list string :=
  let tickers :=
    filter (fun potential =>
              (Js.strIn potential COMMON_TICKERS
               && negb (Js.strIn potential TICKER_EXCLUSIONS))%bool)
           (map (groupOf query 1) (matches false TICKER_PATTERN query)) in
  let tickers :=
    fold_left (fun tickers mt =>
                 let t := groupOf query 1 mt in
                 if negb (Js.strIn t tickers) then (tickers ++ [t])%list else tickers)
              (matches false dollarPattern query) tickers in
  Js.dedup tickers.

Definition analyzeQuery (query : string) : QueryContext :=
  let lowerQuery := Js.toLowerCase query in
  let years := extractYears query in
  let dateRanges := extractDateRanges query in
  let timePeriods := extractTimePeriods query in
  let tickers := extractTickers query in
  let calculationKeywords := filter (fun kw => Js.includes lowerQuery kw) CALCULATION_KEYWORDS in
  let requiresFullData :=
    (negb (Nat.eqb (List.length calculationKeywords) 0)
     || existsb (fun p => (Js.includes p "year" || Js.includes p "annual"
                           || Js.includes p "all time")%bool) timePeriods
     || Nat.ltb 1 (List.length years)
     || negb (Nat.eqb (List.length dateRanges) 0))%bool in
  mkContext years dateRanges timePeriods tickers requiresFullData calculationKeywords.

(** [isDateRelevant(dateStr, context, toleranceYears)] *)
Definition isDateRelevant (dateStr : string) (context : QueryContext)
           (toleranceYears : Z) : bool :=
  match Date_parse dateStr with
  | None => true
  | Some date =>
      let year := Date_getFullYear date in
      if (Nat.eqb (List.length (years context)) 0
          && Nat.eqb (List.length (dateRanges context)) 0)%bool
      then
        let currentYear := Date_getFullYear Date_now in
        currentYear - 3 <=? year
      else
        (existsb (fun y => Z.abs (year - y) <=? toleranceYears) (years context)
         || existsb (fun range =>
                       match start range, end_ range with
                       | Some s, Some e =>
                           let startYear := Date_getFullYear s - toleranceYears in
                           let endYear := Date_getFullYear e + toleranceYears in
                           ((startYear <=? year) && (year <=? endYear))%bool
                       | _, _ => false
                       end)
                    (dateRanges context))%bool
  end.

(** [a < b] on two [Date]s: the time values are compared as numbers, and
    a comparison with NaN is false. *)
Definition dateLt (a b : option Z) : bool :=
  match a, b with
  | Some x, Some y => x <? y
  | _, _ => false
  end.

(** [getMinRelevantDate(context)] *)
Definition getMinRelevantDate (context : QueryContext) : option Z :=
  let now := Date_now in
  (* Default: 2 years back *)
  let minDate := Date_setFullYear now (Date_getFullYear now - 2) in
  (* Check for explicit date ranges *)
  let minDate :=
    match dateRanges context with
    | [] => minDate
    | first :: _ =>
        let earliest :=
          fold_left (fun min range => if dateLt (start range) min then start range else min)
                    (dateRanges context) (start first) in
        if dateLt earliest minDate then earliest else minDate
    end in
  (* Check for explicit years *)
  match years context with
  | [] => minDate
  | y :: ys =>
      let minYear := fold_left Z.min ys y in
      let yearDate := Some (Date_local minYear 0 1) in
      if dateLt yearDate minDate then yearDate else minDate
  end.
End WithRuntime.

End QueryAnalyzer.

(* ===================================================================== *)
(** ** JSON values, [JSON.stringify] and [JSON.parse]

    A value is what [JSON.parse] can return.  A number is carried by its
    literal in the form [JSON.stringify] prints it: the compactor never
    computes with the numbers of the data.  An object is the list of its
    own properties in enumeration order; the property names of the model
    are those that are neither array indices nor [__proto__], so that
    enumeration order is insertion order. *)
(* ===================================================================== *)

Set Warnings "-register-all".

Module Json.

Inductive value : Type :=
| JNull
| JBool (b : bool)
| JNum (lit : string)
| JStr (s : string)
| JArr (items : list value)
| JObj (fields : list (string * value)).

(** [obj[key]] on own properties; [None] is [undefined]. *)
Fixpoint lookup (key : string) (fields : list (string * value)) : option value :=
  match fields with
  | [] => None
  | (k, v) :: fs => if String.eqb k key then Some v else lookup key fs
  end.

(** [result[key] = v]: an existing property keeps its place. *)
Fixpoint assign (fields : list (string * value)) (key : string) (v : value)
  : list (string * value) :=
  match fields with
  | [] => [(key, v)]
  | (k, w) :: fs => if String.eqb k key then (k, v) :: fs else (k, w) :: assign fs key v
  end.

(** [v[key]] for a property name that no array has. *)
Definition prop (v : value) (key : string) : option value :=
  match v with
  | JObj fields => lookup key fields
  | _ => None
  end.

(** [typeof v === 'object' && v !== null] *)
Definition isObject (v : value) : bool :=
  match v with
  | JArr _ | JObj _ => true
  | _ => false
  end.

Definition dquote : ascii := ascii_of_nat 34.

Definition hexDigit (n : nat) : ascii :=
  if Nat.ltb n 10 then ascii_of_nat (48 + n) else ascii_of_nat (87 + n).

(** [QuoteJSONString]: the escapes of one code unit. *)
Definition escapeChar (c : ascii) : list ascii :=
  let n := Js.code c in
  if Nat.eqb n 8 then ["\"; "b"]%char
  else if Nat.eqb n 9 then ["\"; "t"]%char
  else if Nat.eqb n 10 then ["\"; "n"]%char
  else if Nat.eqb n 12 then ["\"; "f"]%char
  else if Nat.eqb n 13 then ["\"; "r"]%char
  else if Nat.eqb n 34 then ["\"%char; dquote]
  else if Nat.eqb n 92 then ["\"; "\"]%char
  else if Nat.ltb n 32 then
    ["\"; "u"; "0"; "0"; hexDigit (Nat.div n 16); hexDigit (Nat.modulo n 16)]%char
  else [c].

Definition quote (s : string) : string :=
  Js.str (dquote :: flat_map escapeChar (Js.chars s) ++ [dquote])%list.

(** [JSON.stringify(v)] *)
Fixpoint stringify (v : value) : string :=
  match v with
  | JNull => "null"
  | JBool true => "true"
  | JBool false => "false"
  | JNum lit => lit
  | JStr s => quote s
  | JArr items => "[" ++ Js.join "," (map stringify items) ++ "]"
  | JObj fields =>
      "{" ++ Js.join "," (map (fun kv => quote (fst kv) ++ ":" ++ stringify (snd kv)) fields)
          ++ "}"
  end.

(** [JSON.stringify(v, null, 2)] at indentation [ind]. *)
Fixpoint stringifyIndent (ind : string) (v : value) : string :=
  let ind' := ind ++ "  " in
  let nl := String (ascii_of_nat 10) "" in
  match v with
  | JArr [] => "[]"
  | JArr items =>
      "[" ++ nl ++ ind' ++ Js.join ("," ++ nl ++ ind') (map (stringifyIndent ind') items)
          ++ nl ++ ind ++ "]"
  | JObj [] => "{}"
  | JObj fields =>
      "{" ++ nl ++ ind'
          ++ Js.join ("," ++ nl ++ ind')
               (map (fun kv => quote (fst kv) ++ ": " ++ stringifyIndent ind' (snd kv)) fields)
          ++ nl ++ ind ++ "}"
  | _ => stringify v
  end.

Definition stringifyPretty (v : value) : string := stringifyIndent "" v.

(** *** [JSON.parse] *)

Definition isWs (c : ascii) : bool :=
  let n := Js.code c in
  (Nat.eqb n 32 || Nat.eqb n 9 || Nat.eqb n 10 || Nat.eqb n 13)%bool.

Definition skipWs (l : list ascii) : list ascii := Js.dropWhile isWs l.

Definition hexValue (c : ascii) : option nat :=
  if Js.isDigit c then Some (Js.code c - 48)%nat
  else if Js.inRange 97 102 c then Some (Js.code c - 87)%nat
  else if Js.inRange 65 70 c then Some (Js.code c - 55)%nat
  else None.

(** The body of a string literal after the opening quote.  An escape
    [\uXXXX] of a code unit above 255 is outside the strings of the model. *)
Fixpoint parseChars (fuel : nat) (l acc : list ascii) : option (string * list ascii) :=
  match fuel with
  | O => None
  | S f =>
      match l with
      | [] => None
      | c :: l' =>
          if Ascii.eqb c dquote then Some (Js.str (rev acc), l')
          else if Ascii.eqb c "\" then
            match l' with
            | e :: l'' =>
                let simple (x : nat) := parseChars f l'' (ascii_of_nat x :: acc) in
                if Ascii.eqb e dquote then simple 34%nat
                else if Ascii.eqb e "\" then simple 92%nat
                else if Ascii.eqb e "/" then simple 47%nat
                else if Ascii.eqb e "b" then simple 8%nat
                else if Ascii.eqb e "f" then simple 12%nat
                else if Ascii.eqb e "n" then simple 10%nat
                else if Ascii.eqb e "r" then simple 13%nat
                else if Ascii.eqb e "t" then simple 9%nat
                else if Ascii.eqb e "u" then
                  match l'' with
                  | a :: b :: c' :: d :: rest =>
                      match hexValue a, hexValue b, hexValue c', hexValue d with
                      | Some 0%nat, Some 0%nat, Some x, Some y =>
                          parseChars f rest (ascii_of_nat (16 * x + y) :: acc)
                      | _, _, _, _ => None
                      end
                  | _ => None
                  end
                else None
            | [] => None
            end
          else if Nat.ltb (Js.code c) 32 then None
          else parseChars f l' (c :: acc)
      end
  end.

Definition parseStringLit (l : list ascii) : option (string * list ascii) :=
  parseChars (S (List.length l)) l [].

Definition spanDigits (l : list ascii) : list ascii * list ascii :=
  (Js.takeWhile Js.isDigit l, Js.dropWhile Js.isDigit l).

(** A number literal: an optional minus, then 0 or a digit run that does
    not start with 0, then an optional fraction (a dot and digits), then an
    optional exponent (e or E, an optional sign, digits). *)
Definition parseNumberLit (l : list ascii) : option (string * list ascii) :=
  let '(sign, l1) :=
    match l with
    | c :: l' => if Ascii.eqb c "-" then ([c], l') else ([], l)
    | [] => ([], l)
    end in
  let intPart :=
    match l1 with
    | c :: l' =>
        if Ascii.eqb c "0" then Some ([c], l')
        else if Js.isDigit c then Some (spanDigits l1)
        else None
    | [] => None
    end in
  match intPart with
  | None => None
  | Some (ip, l2) =>
      let '(frac, l3) :=
        match l2 with
        | c :: l' =>
            if Ascii.eqb c "." then
              match spanDigits l' with
              | ([], _) => (None, l2)
              | (ds, r) => (Some (c :: ds), r)
              end
            else (Some [], l2)
        | [] => (Some [], l2)
        end in
      match frac with
      | None => None
      | Some fr =>
          let '(ex, l4) :=
            match l3 with
            | c :: l' =>
                if (Ascii.eqb c "e" || Ascii.eqb c "E")%bool then
                  let '(sg, l'') :=
                    match l' with
                    | d :: r => if (Ascii.eqb d "+" || Ascii.eqb d "-")%bool
                                then ([d], r) else ([], l')
                    | [] => ([], l')
                    end in
                  match spanDigits l'' with
                  | ([], _) => (None, l3)
                  | (ds, r) => (Some (c :: sg ++ ds)%list, r)
                  end
                else (Some [], l3)
            | [] => (Some [], l3)
            end in
          match ex with
          | None => None
          | Some e => Some (Js.str (sign ++ ip ++ fr ++ e)%list, l4)
          end
      end
  end.

Fixpoint parseValue (fuel : nat) (l : list ascii) {struct fuel} : option (value * list ascii) :=
  match fuel with
  | O => None
  | S f =>
      match skipWs l with
      | [] => None
      | c :: l' =>
          if Ascii.eqb c "n" then
            if Js.prefixb (Js.chars "ull") l' then Some (JNull, skipn 3 l') else None
          else if Ascii.eqb c "t" then
            if Js.prefixb (Js.chars "rue") l' then Some (JBool true, skipn 3 l') else None
          else if Ascii.eqb c "f" then
            if Js.prefixb (Js.chars "alse") l' then Some (JBool false, skipn 4 l') else None
          else if Ascii.eqb c dquote then
            match parseStringLit l' with
            | Some (s, r) => Some (JStr s, r)
            | None => None
            end
          else if Ascii.eqb c "[" then
            match skipWs l' with
            | d :: r => if Ascii.eqb d "]" then Some (JArr [], r) else parseItems f l' []
            | [] => None
            end
          else if Ascii.eqb c "{" then
            match skipWs l' with
            | d :: r => if Ascii.eqb d "}" then Some (JObj [], r) else parseFields f l' []
            | [] => None
            end
          else
            match parseNumberLit (c :: l') with
            | Some (n, r) => Some (JNum n, r)
            | None => None
            end
      end
  end
with parseItems (fuel : nat) (l : list ascii) (acc : list value) {struct fuel}
  : option (value * list ascii) :=
  match fuel with
  | O => None
  | S f =>
      match parseValue f l with
      | Some (v, r) =>
          match skipWs r with
          | d :: r' =>
              if Ascii.eqb d "," then parseItems f r' (acc ++ [v])%list
              else if Ascii.eqb d "]" then Some (JArr (acc ++ [v])%list, r')
              else None
          | [] => None
          end
      | None => None
      end
  end
with parseFields (fuel : nat) (l : list ascii) (acc : list (string * value)) {struct fuel}
  : option (value * list ascii) :=
  match fuel with
  | O => None
  | S f =>
      match skipWs l with
      | q :: l' =>
          if Ascii.eqb q dquote then
            match parseStringLit l' with
            | Some (k, r) =>
                match skipWs r with
                | c :: r' =>
                    if Ascii.eqb c ":" then
                      match parseValue f r' with
                      | Some (v, r'') =>
                          match skipWs r'' with
                          | d :: r3 =>
                              if Ascii.eqb d "," then parseFields f r3 (assign acc k v)
                              else if Ascii.eqb d "}" then Some (JObj (assign acc k v), r3)
                              else None
                          | [] => None
                          end
                      | None => None
                      end
                    else None
                | [] => None
                end
            | None => None
            end
          else None
      | [] => None
      end
  end.

(** [JSON.parse(s)]; [None] when it throws.  Two nested calls consume at
    least one character, so twice the length of the text bounds the depth
    of the calls. *)
Definition parse (s : string) : option value :=
  let l := Js.chars s in
  match parseValue (2 * List.length l + 2) l with
  | Some (v, r) => match skipWs r with [] => Some v | _ :: _ => None end
  | None => None
  end.

End Json.

(* ===================================================================== *)
(** ** src/utils/data-compactor.ts *)
(* ===================================================================== *)

Module DataCompactor.
Import Json QueryAnalyzer.

Definition VERBOSE_FIELDS : list string :=
  ["reportedCurrency"; "acceptedDate"; "fillingDate"; "link"; "finalLink"; "cik"].

Definition TRUNCATABLE_TEXT_FIELDS : list string :=
  ["banner_image"; "source_url"; "article_url"; "image"].

Record CompactOptions : Type := mkOptions {
  maxTokens : Z;
  maxArrayLength : option Z;
  removeVerboseFields : option bool;
  truncateUrls : option bool;
  minify : option bool;
  query : option string;
  queryContext : option QueryContext
}.

(** [DEFAULT_OPTIONS] *)
Definition DEFAULT_maxTokens : Z := 25000.
Definition DEFAULT_maxArrayLength : Z := 50.
Definition DEFAULT_removeVerboseFields : bool := true.
Definition DEFAULT_truncateUrls : bool := true.
Definition DEFAULT_minify : bool := true.

Definition orDefault {A} (o : option A) (d : A) : A :=
  match o with Some a => a | None => d end.

(** [Math.floor(x * 0.7)] in binary64.  The double 0.7 is
    3152519739159347 / 2^52; the product is rounded to 53 significant bits,
    ties to even, and then floored. *)
Definition double_0_7_mantissa : Z := 3152519739159347.

Definition floorTimes0_7 (x : Z) : Z :=
  let n := Z.abs x * double_0_7_mantissa in
  let sh := Z.max (Z.log2 n + 1 - 53) 0 in
  let q := Z.shiftr n sh in
  let r := n - Z.shiftl q sh in
  let q := if (Z.shiftl 1 sh <? 2 * r) || ((Z.shiftl 1 sh =? 2 * r) && Z.odd q)
           then q + 1 else q in
  (* the rounded product is q * 2^(sh - 52) *)
  let num := Z.shiftl q sh in
  if 0 <=? x then Z.shiftr num 52 else - Z.shiftr (num + Z.shiftl 1 52 - 1) 52.

(** [truncateString(str, maxChars)], where [maxChars] is half of
    [maxChars2]: the callers pass [maxTokens * 3.5]. *)
Definition truncateString (str : string) (maxChars2 : Z) : string :=
  if 2 * Js.len str <=? maxChars2 then str
  else Js.slice str 0 (Z.quot maxChars2 2) ++ "...[truncated]".

Section WithRuntime.
Context {rt : JsRuntime}.

(** [/^\d{4}[-/]\d{1,2}[-/]\d{1,2}/] *)
Definition datePrefix : Regex.re :=
  Regex.seq [Regex.Bol; Regex.times 4 Regex.digit; Regex.oneOf ["-"; "/"]%char;
             Regex.between 1 2 Regex.digit; Regex.oneOf ["-"; "/"]%char;
             Regex.between 1 2 Regex.digit].

(** [findDateField(obj)] *)
Definition findDateField (obj : value) : option string :=
  let dateFields :=
    ["date"; "timestamp"; "time"; "period"; "fiscalDateEnding"; "reportDate";
     "publishedDate"] in
  find (fun field =>
          match prop obj field with
          | Some (JStr v) =>
              (Regex.testRe false datePrefix v
               || match Date_parse v with Some _ => true | None => false end)%bool
          | _ => false
          end)
       dateFields.

(** The predicate of [data.filter] in [filterByQueryContext]. *)
Definition keepItem (context : QueryContext) (dateField : string) (item : value) : bool :=
  if negb (isObject item) then true
  else match prop item dateField with
       | Some (JStr dateValue) => isDateRelevant dateValue context 1
       | _ => true
       end.

(** [filterByQueryContext(data, context)]: [filtered.map(f)] is written as
    one traversal of [data] that skips the elements [filter] drops;
    [filterByQueryContext_dated] states the source's form. *)
Fixpoint filterByQueryContext (data : value) (context : QueryContext) : value :=
  match data with
  | JArr items =>
      let byDate :=
        match items with
        | first :: _ => if isObject first then findDateField first else None
        | [] => None
        end in
      match byDate with
      | Some dateField =>
          let filtered := filter (keepItem context dateField) items in
          if Nat.ltb 0 (List.length filtered)
          then JArr (flat_map (fun item =>
                                 if keepItem context dateField item
                                 then [filterByQueryContext item context] else [])
                              items)
          else JArr (Js.sliceList items 0 20)
      | None => JArr (map (fun item => filterByQueryContext item context) items)
      end
  | JObj fields =>
      JObj (fold_left (fun result kv =>
                         assign result (fst kv) (filterByQueryContext (snd kv) context))
                      fields [])
  | _ => data
  end.

Inductive Ordering : Type := newest_first | oldest_first | unknown.

(** The loop over [dateFields] in [detectDateOrdering]. *)
Fixpoint orderingByFields (first second : value) (dateFields : list string) : Ordering :=
  match dateFields with
  | [] => unknown
  | field :: rest =>
      match prop first field, prop second field with
      | Some (JStr firstDate), Some (JStr secondDate) =>
          match Date_parse firstDate, Date_parse secondDate with
          | Some d1, Some d2 => if d2 <? d1 then newest_first else oldest_first
          | _, _ => orderingByFields first second rest
          end
      | _, _ => orderingByFields first second rest
      end
  end.

(** [detectDateOrdering(arr)] *)
Definition detectDateOrdering (arr : list value) : Ordering :=
  match arr with
  | first :: second :: _ =>
      if (negb (isObject first) || negb (isObject second))%bool then unknown
      else orderingByFields first second
             ["date"; "timestamp"; "time"; "period"; "fiscalDateEnding"; "reportDate"]
  | _ => unknown
  end.

(** The [slice] that [truncateArrays] takes of an array above the limit. *)
Definition truncatedSlice {A} (ordering : Ordering) (data : list A) (maxLength : Z) : list A :=
  match ordering with
  | newest_first => Js.sliceList data 0 maxLength
  | oldest_first => Js.sliceFrom data (- maxLength)
  | unknown => Js.sliceList data 0 maxLength
  end.

(** [truncateArrays(data, maxLength)]: [truncated.map(f)] is written as the
    slice of [data.map(f)]; [truncateArrays_long] states the source's form. *)
Fixpoint truncateArrays (data : value) (maxLength : Z) : value :=
  match data with
  | JArr items =>
      let mapped := map (fun item => truncateArrays item maxLength) items in
      if Z.of_nat (List.length items) <=? maxLength then JArr mapped
      else JArr (truncatedSlice (detectDateOrdering items) mapped maxLength)
  | JObj fields =>
      JObj (fold_left (fun result kv =>
                         assign result (fst kv) (truncateArrays (snd kv) maxLength))
                      fields [])
  | _ => data
  end.

(** [removeFields(data, fieldsToRemove)] *)
Fixpoint removeFields (data : value) (fieldsToRemove : list string) : value :=
  match data with
  | JArr items => JArr (map (fun item => removeFields item fieldsToRemove) items)
  | JObj fields =>
      JObj (fold_left (fun result kv =>
                         if negb (Js.strIn (fst kv) fieldsToRemove)
                         then assign result (fst kv) (removeFields (snd kv) fieldsToRemove)
                         else result)
                      fields [])
  | _ => data
  end.

(** The replacement of one long text value in [truncateTextFields]. *)
Definition truncateText (v : string) : string :=
  if Js.startsWith v "http" then
    match URL_origin v with
    | Some origin => origin ++ "/..."
    | None => Js.slice v 0 50 ++ "..."
    end
  else Js.slice v 0 100 ++ "...".

Definition isLongText (fields : list string) (key : string) (v : value) : option string :=
  match v with
  | JStr s => if (Js.strIn key fields && (50 <? Js.len s))%bool then Some s else None
  | _ => None
  end.

(** [truncateTextFields(data, fields)] *)
Fixpoint truncateTextFields (data : value) (fields : list string) : value :=
  match data with
  | JArr items => JArr (map (fun item => truncateTextFields item fields) items)
  | JObj props =>
      JObj (fold_left (fun result kv =>
                         match isLongText fields (fst kv) (snd kv) with
                         | Some s => assign result (fst kv) (JStr (truncateText s))
                         | None => assign result (fst kv) (truncateTextFields (snd kv) fields)
                         end)
                      props [])
  | _ => data
  end.

(** The merged options [{ ...DEFAULT_OPTIONS, ...options }]. *)
Definition optMaxArrayLength (o : CompactOptions) : Z :=
  orDefault (maxArrayLength o) DEFAULT_maxArrayLength.
Definition optRemoveVerboseFields (o : CompactOptions) : bool :=
  orDefault (removeVerboseFields o) DEFAULT_removeVerboseFields.
Definition optTruncateUrls (o : CompactOptions) : bool :=
  orDefault (truncateUrls o) DEFAULT_truncateUrls.
Definition optMinify (o : CompactOptions) : bool :=
  orDefault (minify o) DEFAULT_minify.

(** [opts.queryContext || (opts.query ? analyzeQuery(opts.query) : null)] *)
Definition optQueryContext (o : CompactOptions) : option QueryContext :=
  match queryContext o with
  | Some c => Some c
  | None =>
      match query o with
      | Some q => if String.eqb q "" then None else Some (analyzeQuery q)
      | None => None
      end
  end.

(** Passes 1 to 4 at array limit [arrayLimit], from the parsed data. *)
Definition compactValue (o : CompactOptions) (parsed : value) (arrayLimit : Z) : value :=
  let compacted :=
    match optQueryContext o with
    | Some c => filterByQueryContext parsed c
    | None => parsed
    end in
  let compacted := truncateArrays compacted arrayLimit in
  let compacted :=
    if optRemoveVerboseFields o then removeFields compacted VERBOSE_FIELDS else compacted in
  if optTruncateUrls o then truncateTextFields compacted TRUNCATABLE_TEXT_FIELDS
  else compacted.

(** [opts.minify ? JSON.stringify(compacted) : JSON.stringify(compacted, null, 2)] *)
Definition serialize (o : CompactOptions) (compacted : value) : string :=
  if optMinify o then stringify compacted else stringifyPretty compacted.

Definition compactOnce (o : CompactOptions) (parsed : value) (arrayLimit : Z) : string :=
  serialize o (compactValue o parsed arrayLimit).

(** The loop [while (currentTokens > opts.maxTokens && arrayLimit > 5)]. *)
Fixpoint shrink (fuel : nat) (o : CompactOptions) (parsed : value)
         (arrayLimit : Z) (result : string) : Z * string :=
  match fuel with
  | O => (arrayLimit, result)
  | S fuel' =>
      if ((maxTokens o <? TokenCounter.estimateJsonTokens result) && (5 <? arrayLimit))%bool
      then
        let arrayLimit := floorTimes0_7 arrayLimit in
        shrink fuel' o parsed arrayLimit (compactOnce o parsed arrayLimit)
      else (arrayLimit, result)
  end.

(** The final safety: hard truncation when still above the budget. *)
Definition hardTruncate (o : CompactOptions) (result : string) : string :=
  if maxTokens o <? TokenCounter.estimateJsonTokens result then
    let maxChars := (7 * maxTokens o) / 2 in
    Js.slice result 0 maxChars ++ "...[truncated]"
  else result.

(** The body of [compactJson] after a successful parse. *)
Definition compactParsed (o : CompactOptions) (parsed : value) : string :=
  let result := compactOnce o parsed (optMaxArrayLength o) in
  let '(_, result) :=
    shrink (Z.to_nat (optMaxArrayLength o)) o parsed (optMaxArrayLength o) result in
  hardTruncate o result.

(** [compactJson(data, options)]: a string is parsed first, and a string
    that does not parse is truncated as text. *)
Definition compactJson (data : value) (o : CompactOptions) : string :=
  match data with
  | JStr text =>
      match parse text with
      | Some parsed => compactParsed o parsed
      | None => truncateString text (7 * maxTokens o)
      end
  | _ => compactParsed o data
  end.
End WithRuntime.

End DataCompactor.

(* ===================================================================== *)
(** ** src/utils/data-compactor.ts, with what can throw

    Two operations of the compactor can throw: [JSON.parse] on a text it
    rejects and the constructor [URL] on a string that is no URL.  Here
    they are calls that return or throw, the two [try] blocks of the source
    are written out, and a throw outside a [try] leaves the function.
    [JSON.parse] is any function of the text; the passes that call neither
    of the two are those of [DataCompactor]. *)
(* ===================================================================== *)

Module Throwing.
Import Json QueryAnalyzer DataCompactor.

(** What a call does: it returns a value or throws one. *)
Inductive Outcome (A : Type) : Type :=
| Returns (a : A)
| Throws (error : string).
Arguments Returns {A} a.
Arguments Throws {A} error.

Definition bind {A B} (c : Outcome A) (k : A -> Outcome B) : Outcome B :=
  match c with
  | Returns a => k a
  | Throws error => Throws error
  end.

(** [try { body } catch { handler }] *)
Definition tryCatch {A} (body : Outcome A) (handler : string -> Outcome A) : Outcome A :=
  match body with
  | Returns a => Returns a
  | Throws error => handler error
  end.

Declare Scope outcome_scope.
Delimit Scope outcome_scope with outcome.
Notation "x <- c ;; k" := (bind c (fun x => k))
  (at level 61, c at next level, right associativity) : outcome_scope.

(** [l.map(f)] and a loop [for (const a of l)] over a state, when the
    body can throw: the first throw ends it. *)
Definition mapM {A B} (f : A -> Outcome B) : list A -> Outcome (list B) :=
  fix go (l : list A) : Outcome (list B) :=
    match l with
    | [] => Returns []
    | a :: l' => (b <- f a ;; bs <- go l' ;; Returns (b :: bs))%outcome
    end.

Definition foldM {A S} (step : S -> A -> Outcome S) : list A -> S -> Outcome S :=
  fix go (l : list A) (s : S) : Outcome S :=
    match l with
    | [] => Returns s
    | a :: l' => (s' <- step s a ;; go l' s')%outcome
    end.

(** [JSON.parse(text)] *)
Class Parser : Type := {
  JSON_parse : string -> Outcome value
}.

Section WithRuntime.
Context {rt : JsRuntime} {parser : Parser}.
Open Scope outcome_scope.

(** [new URL(s).origin] *)
Definition URL_new (s : string) : Outcome string :=
  match URL_origin s with
  | Some origin => Returns origin
  | None => Throws "TypeError: Invalid URL"
  end.

(** The replacement of one long text value in [truncateTextFields], with
    its [try] around [new URL]. *)
Definition truncateText (v : string) : Outcome string :=
  if Js.startsWith v "http" then
    tryCatch (origin <- URL_new v ;; Returns (origin ++ "/..."))
             (fun _ => Returns (Js.slice v 0 50 ++ "..."))
  else Returns (Js.slice v 0 100 ++ "...").

(** [truncateTextFields(data, fields)] *)
Fixpoint truncateTextFields (data : value) (fields : list string) : Outcome value :=
  match data with
  | JArr items =>
      items' <- mapM (fun item => truncateTextFields item fields) items ;;
      Returns (JArr items')
  | JObj props =>
      result <- foldM (fun result kv =>
                         match isLongText fields (fst kv) (snd kv) with
                         | Some s =>
                             text <- truncateText s ;;
                             Returns (assign result (fst kv) (JStr text))
                         | None =>
                             v <- truncateTextFields (snd kv) fields ;;
                             Returns (assign result (fst kv) v)
                         end)
                      props [] ;;
      Returns (JObj result)
  | _ => Returns data
  end.

(** Passes 1 to 4 at array limit [arrayLimit], from the parsed data. *)
Definition compactValue (o : CompactOptions) (parsed : value) (arrayLimit : Z)
  : Outcome value :=
  let compacted :=
    match optQueryContext o with
    | Some c => filterByQueryContext parsed c
    | None => parsed
    end in
  let compacted := truncateArrays compacted arrayLimit in
  let compacted :=
    if optRemoveVerboseFields o then removeFields compacted VERBOSE_FIELDS else compacted in
  if optTruncateUrls o then truncateTextFields compacted TRUNCATABLE_TEXT_FIELDS
  else Returns compacted.

Definition compactOnce (o : CompactOptions) (parsed : value) (arrayLimit : Z)
  : Outcome string :=
  compacted <- compactValue o parsed arrayLimit ;;
  Returns (serialize o compacted).

(** The loop [while (currentTokens > opts.maxTokens && arrayLimit > 5)]. *)
Fixpoint shrink (fuel : nat) (o : CompactOptions) (parsed : value)
         (arrayLimit : Z) (result : string) : Outcome (Z * string) :=
  match fuel with
  | O => Returns (arrayLimit, result)
  | S fuel' =>
      if ((maxTokens o <? TokenCounter.estimateJsonTokens result) && (5 <? arrayLimit))%bool
      then
        let arrayLimit := floorTimes0_7 arrayLimit in
        result <- compactOnce o parsed arrayLimit ;;
        shrink fuel' o parsed arrayLimit result
      else Returns (arrayLimit, result)
  end.

(** The body of [compactJson] after the [try] around [JSON.parse]. *)
Definition compactParsed (o : CompactOptions) (parsed : value) : Outcome string :=
  result <- compactOnce o parsed (optMaxArrayLength o) ;;
  reduced <- shrink (Z.to_nat (optMaxArrayLength o)) o parsed (optMaxArrayLength o) result ;;
  Returns (hardTruncate o (snd reduced)).

(** [compactJson(data, options)]: [JSON.parse] is called on a string
    only, inside the [try] whose [catch] returns the truncated text. *)
Definition compactJson (data : value) (o : CompactOptions) : Outcome string :=
  match data with
  | JStr text =>
      match JSON_parse text with
      | Returns parsed => compactParsed o parsed
      | Throws _ => Returns (truncateString text (7 * maxTokens o))
      end
  | _ => compactParsed o data
  end.
End WithRuntime.

End Throwing.

(* ===================================================================== *)
(** ** src/agent/prompts.ts (the three prompt builders the agent calls) *)
(* ===================================================================== *)

Module Prompts.
Import Json.

Definition nl : string := String (ascii_of_nat 10) "".

(** [String(v)] of a JSON value, as a template literal converts it. *)
Fixpoint toText (v : value) : string :=
  match v with
  | JNull => "null"
  | JBool true => "true"
  | JBool false => "false"
  | JNum lit => lit
  | JStr s => s
  | JArr items =>
      Js.join "," (map (fun item => match item with JNull => "" | _ => toText item end) items)
  | JObj _ => "[object Object]"
  end.

Definition buildIterationPrompt (originalQuery : string) (toolSummaries : list string) : string :=
  "Query: " ++ originalQuery ++ nl ++ nl
  ++ "Data retrieved and work completed so far:" ++ nl
  ++ Js.join nl toolSummaries ++ nl ++ nl
  ++ "Review the data above. If you have sufficient information to answer the query, respond directly WITHOUT calling any tools. Only call additional tools if there are specific data gaps that prevent you from answering.".

Definition buildFinalAnswerPrompt (originalQuery fullContextData : string) : string :=
  "Query: " ++ originalQuery ++ nl ++ nl
  ++ "Data:" ++ nl
  ++ fullContextData ++ nl ++ nl
  ++ "Answer proportionally - match depth to the question's complexity.".

Definition buildToolSummaryPrompt (originalQuery toolName : string)
           (toolArgs : list (string * value)) (result : string) : string :=
  let argsStr := Js.join ", " (map (fun kv => fst kv ++ "=" ++ toText (snd kv)) toolArgs) in
  let q := String dquote "" in
  "Summarize this tool result concisely." ++ nl ++ nl
  ++ "Query: " ++ originalQuery ++ nl
  ++ "Tool: " ++ toolName ++ "(" ++ argsStr ++ ")" ++ nl
  ++ "Result:" ++ nl
  ++ result ++ nl ++ nl
  ++ "Write a 1 sentence summary of what was retrieved. Include specific values (numbers, dates) if relevant." ++ nl
  ++ "Format: " ++ q ++ "[tool_call] -> [what was learned]" ++ q.

End Prompts.

(* ===================================================================== *)
(** ** src/agent/agent.ts

    A run is a generator: it yields events while it calls the model, the
    tools and the context store.  The model keeps the events in the order
    they are yielded, threads the state of everything outside the agent (the
    [World]) through the calls, and carries a thrown value to the nearest
    [try]; a run that throws stops with the events it had yielded.  The
    abort signal is not modelled. *)
(* ===================================================================== *)

Module Agent.
Import Json.

Definition Args : Type := list (string * value).

Record ToolCall : Type := mkToolCall { name : string; callArgs : Args }.

Record ToolCallRecord : Type := mkRecord { tool : string; args : Args; result : string }.

Record ToolSummary : Type := mkSummary {
  id : string;
  toolName : string;
  summaryArgs : Args;
  summary : string
}.

(** What [loadFullContexts] returns for one pointer. *)
Record FullContext : Type := mkFullContext {
  ctxToolName : string;
  ctxArgs : Args;
  ctxResult : value
}.

Inductive AgentEvent : Type :=
| thinking (message : string)
| tool_start (tool : string) (args : Args)
| tool_end (tool : string) (args : Args) (result : string) (duration : Z)
| tool_error (tool : string) (error : string)
| answer_start
| answer_chunk (text : string)
| done (answer : string) (toolCalls : list ToolCallRecord) (iterations : nat).

(** A thrown value: an [Error] with its message, or anything else with
    what [String] makes of it. *)
Inductive Thrown : Type :=
| ErrorObject (message : string)
| OtherValue (text : string).

(** [error instanceof Error ? error.message : String(error)] *)
Definition errorMessage (e : Thrown) : string :=
  match e with
  | ErrorObject message => message
  | OtherValue text => text
  end.

Definition Result (A : Type) : Type := (Thrown + A)%type.

(** The options of [callLlm] and [streamLlmResponse]. *)
Record LlmOptions (Tool : Type) : Type := mkLlmOptions {
  optModel : string;
  optSystemPrompt : string;
  optTools : option (list Tool)
}.
Arguments mkLlmOptions {Tool}.

(** The collaborators of the agent: the model gateway, the tools, the
    context store, the scratchpad and the chat history. *)
Class AgentEnv : Type := {
  World : Type;
  (** [Date.now()] *)
  clock : World -> Z;
  (** Messages of the model *)
  AIMessage : Type;
  extractTextContent : AIMessage -> string;
  hasToolCalls : AIMessage -> bool;
  tool_calls : AIMessage -> list ToolCall;
  messageText : AIMessage -> string;            (* [String(message)] *)
  (** Tools *)
  Tool : Type;
  toolNameOf : Tool -> string;
  invoke : Tool -> Args -> World -> Result value * World;
  (** [callLlm], [getFastModel], [streamLlmResponse] *)
  callLlm : string -> LlmOptions Tool -> World -> Result AIMessage * World;
  getFastModel : string -> string -> string;
  streamLlmResponse : string -> LlmOptions Tool -> World -> (list string * option Thrown) * World;
  (** [ContextManager] *)
  saveAndGetSummary : string -> Args -> string -> World -> Result ToolSummary * World;
  getToolDescription : string -> Args -> string;
  loadFullContexts : list string -> World -> Result (list FullContext) * World;
  getSummary : World -> string;
  (** [Scratchpad] *)
  Scratchpad : Type;
  newScratchpad : string -> Scratchpad;
  addThinking : Scratchpad -> string -> Scratchpad;
  addToolEntry : Scratchpad -> string -> Scratchpad;
  getToolSummaries : Scratchpad -> list string;
  (** [InMemoryChatHistory] *)
  ChatHistory : Type;
  hasMessages : ChatHistory -> bool;
  getUserMessages : ChatHistory -> list string
}.

Section Generators.
Context {env : AgentEnv}.

(** A generator body: the events it yields, then what it returns or
    throws, and the world it leaves. *)
Definition Gen (A : Type) : Type := World -> (list AgentEvent * Result A) * World.

Definition ret {A} (a : A) : Gen A := fun w => (([], inr a), w).

Definition bind {A B} (g : Gen A) (k : A -> Gen B) : Gen B :=
  fun w =>
    match g w with
    | ((evs, inl e), w') => ((evs, inl e), w')
    | ((evs, inr a), w') =>
        match k a w' with
        | ((evs', r), w'') => (((evs ++ evs')%list, r), w'')
        end
    end.

(** [yield ev] *)
Definition yield (ev : AgentEvent) : Gen unit := fun w => (([ev], inr tt), w).

(** [await f(...)] of a collaborator. *)
Definition await {A} (f : World -> Result A * World) : Gen A :=
  fun w => match f w with (r, w') => (([], r), w') end.

(** Reading the world. *)
Definition observe {A} (f : World -> A) : Gen A := fun w => (([], inr (f w)), w).

(** [throw e] *)
Definition throw {A} (e : Thrown) : Gen A := fun w => (([], inl e), w).

(** [try { body } catch (error) { handler }] *)
Definition tryCatch {A} (body : Gen A) (handler : Thrown -> Gen A) : Gen A :=
  fun w =>
    match body w with
    | ((evs, inl e), w') =>
        match handler e w' with
        | ((evs', r), w'') => (((evs ++ evs')%list, r), w'')
        end
    | ((evs, inr a), w') => ((evs, inr a), w')
    end.

(** [for await (const event of g) { yield event; acc = step acc event }] *)
Definition relay {A S} (g : Gen A) (step : S -> AgentEvent -> S) (init : S) : Gen S :=
  fun w =>
    match g w with
    | ((evs, inl e), w') => ((evs, inl e), w')
    | ((evs, inr _), w') => ((evs, inr (fold_left step evs init)), w')
    end.
End Generators.

Declare Scope gen_scope.
Delimit Scope gen_scope with gen.
Notation "x <- g ;; k" := (bind g (fun x => k))
  (at level 61, g at next level, right associativity) : gen_scope.
Notation "g ;;; k" := (bind g (fun _ => k))
  (at level 61, right associativity) : gen_scope.

Definition DEFAULT_MAX_ITERATIONS : nat := 10.

Record ToolExecutionResult : Type := mkExec {
  record : ToolCallRecord;
  execSummary : ToolSummary;
  promptEntry : string
}.

Record ToolCallsExecutionResult : Type := mkExecs {
  records : list ToolCallRecord;
  summaries : list ToolSummary;
  promptEntries : list string
}.

Section WithEnv.
Context {rt : JsRuntime} {env : AgentEnv}.
Open Scope gen_scope.

(** The private fields of [Agent]. *)
Record AgentConfig : Type := mkAgent {
  model : string;
  modelProvider : string;
  maxIterations : nat;
  tools : list Tool;
  systemPrompt : string
}.

Variable this : AgentConfig.

(** [this.toolMap.get(toolName)]: the map is built from [tools] in
    order, so the last tool of a name is the one it holds. *)
Definition toolMap_get (toolName : string) : option Tool :=
  find (fun t => String.eqb (toolNameOf t) toolName) (rev (tools this)).

Definition callModel (prompt : string) : Gen AIMessage :=
  await (callLlm prompt (mkLlmOptions (model this) (systemPrompt this) (Some (tools this)))).

Definition summarizeToolResult (query toolName : string) (toolArgs : Args)
           (result : string) : Gen string :=
  let prompt := Prompts.buildToolSummaryPrompt query toolName toolArgs result in
  summary <- await (callLlm prompt
                      (mkLlmOptions (getFastModel (modelProvider this) (model this))
                                    "You are a concise data summarizer." None)) ;;
  ret (messageText summary).

Definition executeToolCall (toolName : string) (toolArgs : Args) (query : string)
  : Gen ToolExecutionResult :=
  yield (tool_start toolName toolArgs) ;;;
  startTime <- observe clock ;;
  tryCatch
    (tool <- match toolMap_get toolName with
             | Some t => ret t
             | None => throw (ErrorObject ("Tool '" ++ toolName ++ "' not found"))
             end ;;
     rawResult <- await (invoke tool toolArgs) ;;
     let result := match rawResult with JStr s => s | _ => stringify rawResult end in
     endTime <- observe clock ;;
     let duration := endTime - startTime in
     summary <- await (saveAndGetSummary toolName toolArgs result) ;;
     yield (tool_end toolName toolArgs result duration) ;;;
     llmSummary <- summarizeToolResult query toolName toolArgs result ;;
     ret (mkExec (mkRecord toolName toolArgs result) summary llmSummary))
    (fun error =>
       let errorMessage := errorMessage error in
       yield (tool_error toolName errorMessage) ;;;
       let errorSummary :=
         mkSummary "" toolName toolArgs (getToolDescription toolName toolArgs ++ " [FAILED]") in
       ret (mkExec (mkRecord toolName toolArgs ("Error: " ++ errorMessage))
                   errorSummary
                   ("- " ++ summary errorSummary ++ ": " ++ errorMessage))).

(** The loop [for (const toolCall of response.tool_calls)]. *)
Fixpoint executeEach (calls : list ToolCall) (query : string)
         (acc : ToolCallsExecutionResult) : Gen ToolCallsExecutionResult :=
  match calls with
  | [] => ret acc
  | toolCall :: rest =>
      r <- executeToolCall (name toolCall) (callArgs toolCall) query ;;
      executeEach rest query
        (mkExecs (records acc ++ [record r])%list
                 (summaries acc ++ [execSummary r])%list
                 (promptEntries acc ++ [promptEntry r])%list)
  end.

Definition executeToolCalls (response : AIMessage) (query : string)
  : Gen ToolCallsExecutionResult :=
  executeEach (tool_calls response) query (mkExecs [] [] []).

Definition buildInitialPrompt (query : string) (inMemoryChatHistory : option ChatHistory)
  : string :=
  match inMemoryChatHistory with
  | None => query
  | Some h =>
      if negb (hasMessages h) then query
      else
        let userMessages := getUserMessages h in
        if Nat.eqb (List.length userMessages) 0 then query
        else
          let MAX_HISTORY_MESSAGES := 5 in
          let recentMessages := Js.sliceFrom userMessages (- MAX_HISTORY_MESSAGES) in
          let historyContext :=
            Js.join Prompts.nl
              (map (fun im => Js.ofInt (Z.of_nat (fst im) + 1) ++ ". " ++ snd im)
                   (combine (seq 0 (List.length recentMessages)) recentMessages)) in
          let truncationNote :=
            if MAX_HISTORY_MESSAGES <? Z.of_nat (List.length userMessages)
            then Prompts.nl ++ "(Showing last " ++ Js.ofInt MAX_HISTORY_MESSAGES ++ " of "
                 ++ Js.ofInt (Z.of_nat (List.length userMessages)) ++ " queries)"
            else "" in
          "Current query to answer: " ++ query ++ Prompts.nl ++ Prompts.nl
          ++ "Previous user queries for context:" ++ Prompts.nl
          ++ historyContext ++ truncationNote
  end.

(** The loop [for (const ctx of contexts)] of [buildFullContextForAnswer]. *)
Fixpoint formatContexts (contexts : list FullContext) (query : string)
         (total perResultBudget totalBudget totalTokens : Z)
         (formattedContexts : list string) : list string :=
  match contexts with
  | [] => formattedContexts
  | ctx :: rest =>
      let description := getToolDescription (ctxToolName ctx) (ctxArgs ctx) in
      let compactedData :=
        DataCompactor.compactJson (ctxResult ctx)
          (DataCompactor.mkOptions perResultBudget (Some 100) (Some true) (Some true)
                                   (Some true) (Some query) None) in
      let formatted := "### " ++ description ++ Prompts.nl ++ compactedData in
      let tokens := TokenCounter.estimateTokens formatted TokenCounter.json in
      if totalBudget <? totalTokens + tokens then
        let note :=
          "### Note" ++ Prompts.nl ++ "[Additional "
          ++ Js.ofInt (total - Z.of_nat (List.length formattedContexts))
          ++ " data sources omitted to fit context window]" in
        (formattedContexts ++ [note])%list
      else
        formatContexts rest query total perResultBudget totalBudget (totalTokens + tokens)
                       (formattedContexts ++ [formatted])%list
  end.

(** The pointers [buildFullContextForAnswer] loads:
    [summaries.map(s => s.id).filter(id => id.length > 0)]. *)
Definition filepathsOf (summaries : list ToolSummary) : list string :=
  filter (fun id => 0 <? Js.len id) (map id summaries).

Definition buildFullContextForAnswer (summaries : list ToolSummary) (query : string)
  : Gen string :=
  if Nat.eqb (List.length summaries) 0 then ret "No data was gathered."
  else
    let filepaths := filepathsOf summaries in
    if Nat.eqb (List.length filepaths) 0 then ret "No data was successfully gathered."
    else
      contexts <- await (loadFullContexts filepaths) ;;
      if Nat.eqb (List.length contexts) 0 then ret "Failed to load context data."
      else
        let budget := TokenCounter.getTokenBudget (model this) in
        let totalBudget := TokenCounter.toolResults budget in
        let n := Z.of_nat (List.length contexts) in
        let perResultBudget := Z.min (TokenCounter.perToolResult budget) (totalBudget / n) in
        ret (Js.join (Prompts.nl ++ Prompts.nl)
                     (formatContexts contexts query n perResultBudget totalBudget 0 [])).

(** The loop [for await (const chunk of stream)]. *)
Definition relayStream (prompt : string) (o : LlmOptions Tool) : Gen unit :=
  fun w =>
    match streamLlmResponse prompt o w with
    | ((chunks, None), w') => ((map answer_chunk chunks, inr tt), w')
    | ((chunks, Some e), w') => ((map answer_chunk chunks, inl e), w')
    end.

Definition generateFinalAnswer (query : string) (summaries : list ToolSummary) : Gen unit :=
  yield answer_start ;;;
  fullContext <- buildFullContextForAnswer summaries query ;;
  let prompt := Prompts.buildFinalAnswerPrompt query fullContext in
  relayStream prompt (mkLlmOptions (model this) (systemPrompt this) None).

(** [if (event.type === 'answer_chunk') fullAnswer += event.text] *)
Definition addChunk (fullAnswer : string) (event : AgentEvent) : string :=
  match event with
  | answer_chunk text => fullAnswer ++ text
  | _ => fullAnswer
  end.

(** Streaming the final answer and the closing [done] event. *)
Definition finish (query : string) (allToolCalls : list ToolCallRecord)
           (allSummaries : list ToolSummary) (iteration : nat)
           (fallback : option (World -> string)) : Gen unit :=
  fullAnswer <- relay (generateFinalAnswer query allSummaries) addChunk "" ;;
  match fallback with
  | None => yield (done fullAnswer allToolCalls iteration)
  | Some message =>
      text <- observe message ;;
      yield (done (if String.eqb fullAnswer "" then text else fullAnswer)
                  allToolCalls iteration)
  end.

(** [`Reached maximum iterations (${this.maxIterations}). ${this.contextManager.getSummary()}`] *)
Definition maxIterationsMessage (w : World) : string :=
  "Reached maximum iterations (" ++ Js.ofInt (Z.of_nat (maxIterations this)) ++ "). "
  ++ getSummary w.

(** The main loop [while (iteration < this.maxIterations)]; [remaining]
    is [this.maxIterations - iteration]. *)
Fixpoint mainLoop (remaining iteration : nat) (query : string)
         (allToolCalls : list ToolCallRecord) (allSummaries : list ToolSummary)
         (scratchpad : Scratchpad) (currentPrompt : string) : Gen unit :=
  match remaining with
  | O =>
      (* Max iterations reached - still generate proper final answer *)
      finish query allToolCalls allSummaries iteration (Some maxIterationsMessage)
  | S remaining' =>
      let iteration := S iteration in
      response <- callModel currentPrompt ;;
      let responseText := extractTextContent response in
      let emitsThinking :=
        (negb (String.eqb responseText "") && hasToolCalls response)%bool in
      let scratchpad :=
        if emitsThinking then addThinking scratchpad responseText else scratchpad in
      (if emitsThinking then yield (thinking responseText) else ret tt) ;;;
      if negb (hasToolCalls response) then
        if (Nat.eqb (List.length allSummaries) 0 && negb (String.eqb responseText ""))%bool
        then
          yield answer_start ;;;
          yield (answer_chunk responseText) ;;;
          yield (done responseText [] iteration)
        else finish query allToolCalls allSummaries iteration None
      else
        result <- executeToolCalls response query ;;
        let scratchpad := fold_left addToolEntry (promptEntries result) scratchpad in
        let allToolCalls := (allToolCalls ++ records result)%list in
        let allSummaries := (allSummaries ++ summaries result)%list in
        let currentPrompt :=
          Prompts.buildIterationPrompt query (getToolSummaries scratchpad) in
        mainLoop remaining' iteration query allToolCalls allSummaries scratchpad currentPrompt
  end.

(** [run(query, inMemoryHistory)] *)
Definition run (query : string) (inMemoryHistory : option ChatHistory) : Gen unit :=
  if Nat.eqb (List.length (tools this)) 0 then
    yield (done "No tools available. Please check your API key configuration." [] 0)
  else
    mainLoop (maxIterations this) 0 query [] [] (newScratchpad query)
             (buildInitialPrompt query inMemoryHistory).
End WithEnv.

End Agent.

(* ===================================================================== *)
(** ** A runtime to evaluate with

    The proleptic Gregorian calendar of ECMAScript in the time zone UTC,
    [Date.parse] on the date-only form [YYYY-MM-DD] of the date-time string
    format (other strings are NaN here), and the origin of an [http] or
    [https] URL as the text before its path.  The general statements below
    hold for every runtime; this one serves the evaluations. *)
(* ===================================================================== *)

Module Calendar.

Definition msPerDay : Z := 86400000.

(** Day number of the civil date [y]-[m]-[d], [m] in 1..12; day 0 is
    1970-01-01. *)
Definition daysFromCivil (y m d : Z) : Z :=
  let y' := if m <=? 2 then y - 1 else y in
  let era := y' / 400 in
  let yoe := y' - era * 400 in
  let doy := (153 * (if 2 <? m then m - 3 else m + 9) + 2) / 5 + d - 1 in
  let doe := yoe * 365 + yoe / 4 - yoe / 100 + doy in
  era * 146097 + doe - 719468.

(** The civil date (year, month in 1..12, day) of a day number. *)
Definition civilFromDays (z : Z) : Z * Z * Z :=
  let z := z + 719468 in
  let era := z / 146097 in
  let doe := z - era * 146097 in
  let yoe := (doe - doe / 1460 + doe / 36524 - doe / 146096) / 365 in
  let y := yoe + era * 400 in
  let doy := doe - (365 * yoe + yoe / 4 - yoe / 100) in
  let mp := (5 * doy + 2) / 153 in
  let d := doy - (153 * mp + 2) / 5 + 1 in
  let m := if mp <? 10 then mp + 3 else mp - 9 in
  (if m <=? 2 then y + 1 else y, m, d).

(** [MakeDay(year, month, date)] with [month] counted from 0. *)
Definition makeDay (year month date : Z) : Z :=
  daysFromCivil (year + month / 12) (month mod 12 + 1) 1 + date - 1.

(** [TimeClip] *)
Definition timeClip (t : Z) : option Z :=
  if Z.abs t <=? 8640000000000000 then Some t else None.

Definition yearOf (t : Z) : Z := fst (fst (civilFromDays (t / msPerDay))).
Definition monthOf (t : Z) : Z := snd (fst (civilFromDays (t / msPerDay))) - 1.
Definition dateOf (t : Z) : Z := snd (civilFromDays (t / msPerDay)).
Definition timeInDay (t : Z) : Z := t mod msPerDay.

Definition setFullYear (t y : Z) : option Z :=
  timeClip (makeDay y (monthOf t) (dateOf t) * msPerDay + timeInDay t).
Definition setMonth (t m : Z) : option Z :=
  timeClip (makeDay (yearOf t) m (dateOf t) * msPerDay + timeInDay t).
Definition setDate (t d : Z) : option Z :=
  timeClip (makeDay (yearOf t) (monthOf t) d * msPerDay + timeInDay t).

Definition allDigits (l : list ascii) : bool := forallb Js.isDigit l.

(** [Date.parse] of [YYYY-MM-DD]. *)
Definition parseIsoDate (s : string) : option Z :=
  match Js.chars s with
  | [y1; y2; y3; y4; s1; m1; m2; s2; d1; d2] =>
      if (allDigits [y1; y2; y3; y4; m1; m2; d1; d2]
          && Ascii.eqb s1 "-" && Ascii.eqb s2 "-")%bool
      then
        let y := Js.digitsValue 0 [y1; y2; y3; y4] in
        let m := Js.digitsValue 0 [m1; m2] in
        let d := Js.digitsValue 0 [d1; d2] in
        if ((1 <=? m) && (m <=? 12) && (1 <=? d)
            && (d <=? dateOf (makeDay y m 0 * msPerDay)))%bool
        then Some (daysFromCivil y m d * msPerDay)
        else None
      else None
  | _ => None
  end.

Definition isPathStart (c : ascii) : bool :=
  (Ascii.eqb c "/" || Ascii.eqb c "?" || Ascii.eqb c "#")%bool.

(** The origin of [scheme://host/...] for the schemes [http] and [https]. *)
Definition httpOrigin (s : string) : option string :=
  let l := Js.chars s in
  let after (scheme : string) :=
    if Js.prefixb (Js.chars scheme) l then
      match Js.takeWhile (fun c => negb (isPathStart c)) (skipn (String.length scheme) l) with
      | [] => None
      | host => Some (scheme ++ Js.str host)
      end
    else None in
  match after "https://" with
  | Some o => Some o
  | None => after "http://"
  end.

(** The runtime at the instant [now]. *)
Definition runtimeAt (now : Z) : JsRuntime := {|
  Date_now := now;
  Date_parse := parseIsoDate;
  Date_local := fun y m d => makeDay y m d * msPerDay;
  Date_getFullYear := yearOf;
  Date_getMonth := monthOf;
  Date_getDate := dateOf;
  Date_setFullYear := setFullYear;
  Date_setMonth := setMonth;
  Date_setDate := setDate;
  URL_origin := httpOrigin
|}.

(** 2026-01-21T12:00:00Z *)
Definition sampleNow : Z := (daysFromCivil 2026 1 21) * msPerDay + 43200000.

End Calendar.

(* ===================================================================== *)
(** ** Collaborators to evaluate with

    A model that always gives the same reply, tools that always give the
    same outcome, a summarizer and a stream with fixed outcomes, and a
    store that keeps nothing. *)
(* ===================================================================== *)

Module Sample.
Import Json Agent.

Record Message : Type := mkMessage { text : string; calls : list ToolCall }.

Record Script : Type := mkScript {
  reply : Result Message;          (* the reasoning call *)
  toolOutcome : Result value;      (* [tool.invoke] *)
  summaryOutcome : Result string;  (* the summarizing call *)
  chunks : list string             (* the streamed answer *)
}.

Definition environment (sc : Script) : AgentEnv := {|
  World := unit;
  clock := fun _ => 0;
  AIMessage := Message;
  extractTextContent := text;
  hasToolCalls := fun msg => Nat.ltb 0 (List.length (calls msg));
  tool_calls := calls;
  messageText := text;
  Tool := string;
  toolNameOf := fun t => t;
  invoke := fun _ _ w => (toolOutcome sc, w);
  callLlm := fun _ o w =>
    match optTools _ o with
    | Some _ => (reply sc, w)
    | None =>
        (match summaryOutcome sc with
         | inl e => inl e
         | inr s => inr (mkMessage s [])
         end, w)
    end;
  getFastModel := fun _ m => m;
  streamLlmResponse := fun _ _ w => ((chunks sc, None), w);
  saveAndGetSummary := fun t a _ w => (inr (mkSummary ("ptr:" ++ t) t a t), w);
  getToolDescription := fun t _ => t;
  loadFullContexts := fun _ w => (inr [], w);
  getSummary := fun _ => "";
  Scratchpad := list string;
  newScratchpad := fun _ => [];
  addThinking := fun sp _ => sp;
  addToolEntry := fun sp e => (sp ++ [e])%list;
  getToolSummaries := fun sp => sp;
  ChatHistory := list string;
  hasMessages := fun h => Nat.ltb 0 (List.length h);
  getUserMessages := fun h => h
|}.

Definition searchCall : ToolCall :=
  mkToolCall "financial_search" [("query", JStr "AAPL price")].

(** The model asks for one search; the tool answers; the summarizing call
    fails; the stream yields nothing. *)
Definition summarizerFails : Script :=
  mkScript (inr (mkMessage "" [searchCall]))
           (inr (JObj [("price", JNum "100")]))
           (inl (ErrorObject "timeout"))
           [].

(** The model asks for one search every time and everything succeeds, but
    the stream yields nothing. *)
Definition silentStream : Script :=
  mkScript (inr (mkMessage "" [searchCall]))
           (inr (JObj [("price", JNum "100")]))
           (inr "financial_search -> AAPL trades at 100")
           [].

(** The model asks for a tool that is not configured. *)
Definition unknownTool : Script :=
  mkScript (inr (mkMessage "" [mkToolCall "web_search" []]))
           (inr JNull)
           (inr "unused")
           ["Done."].

(** The model asks for one search and the tool throws. *)
Definition toolFails : Script :=
  mkScript (inr (mkMessage "" [searchCall]))
           (inl (ErrorObject "API down"))
           (inr "unused")
           ["Done."].

(** The model answers at once, with text and no tool call. *)
Definition directReply : Script :=
  mkScript (inr (mkMessage "Hello." []))
           (inr JNull)
           (inr "unused")
           [].

Definition agent (sc : Script) (maxIterations : nat) : @AgentConfig (environment sc) :=
  @mkAgent (environment sc) "gpt-5.2" "openai" maxIterations ["financial_search"] "system".

Definition runtime : JsRuntime := Calendar.runtimeAt Calendar.sampleNow.

End Sample.

(** Data to evaluate the compactor on. *)

Module SampleData.
Import Json DataCompactor.

Definition rt0 : JsRuntime := Sample.runtime.

Definition pricePoint (date price : string) : value :=
  JObj [("date", JStr date); ("price", JNum price)].

(** The six prices of the tests, newest first. *)
Definition pricesNewestFirst : list value :=
  [ pricePoint "2026-01-20" "100"; pricePoint "2026-01-19" "99";
    pricePoint "2026-01-18" "98"; pricePoint "2026-01-17" "97";
    pricePoint "2026-01-16" "96"; pricePoint "2026-01-15" "95" ].

(** Two prices of the most recent day first, then older days. *)
Definition pricesSameDayFirst : list value :=
  [ pricePoint "2026-01-20" "101"; pricePoint "2026-01-20" "100";
    pricePoint "2026-01-19" "99"; pricePoint "2026-01-18" "98";
    pricePoint "2026-01-17" "97"; pricePoint "2026-01-16" "96" ].

Definition budget (maxTokens : Z) : CompactOptions :=
  mkOptions maxTokens None None None None None None.

Definition longDescription : value :=
  JObj [("description",
         JStr "This is a moderately long description that adds to the token count")].

Definition sixtyLetters : string :=
  "aaaaaaaaaaaaaaaaaaaaaaaaaaaaaaaaaaaaaaaaaaaaaaaaaaaaaaaaaaaa".

Definition imageField : value := JObj [("image", JStr sixtyLetters)].

Definition pricesObject : value := JObj [("prices", JArr pricesNewestFirst)].

Definition capped3 : CompactOptions := mkOptions 1000 (Some 3) None None None None None.

(** [JSON.parse] as it is on a text that is no JSON. *)
Definition rejecting : Throwing.Parser := {|
  Throwing.JSON_parse := fun _ => Throwing.Throws "SyntaxError"
|}.

Definition returnQuery : string := "What was AAPL's return over the past 2 years?".

(** From two years before the current instant until it. *)
Definition twoYearsBack : QueryAnalyzer.DateRange :=
  QueryAnalyzer.mkRange
    (@Date_setFullYear rt0 (@Date_now rt0) (@Date_getFullYear rt0 (@Date_now rt0) - 2))
    (Some (@Date_now rt0)).

(** Three elements of which the first is dated by [date] and the others by
    [timestamp]. *)
Definition mixedDates : value :=
  JArr [ JObj [("date", JStr "2010-01-01")];
         JObj [("timestamp", JStr "2020-06-01")];
         JObj [("timestamp", JStr "2010-01-01")] ].

Definition about2020 : CompactOptions :=
  mkOptions 1000 None None None None (Some "revenue in 2020") None.

Definition priceResult : string := stringify (JObj [("price", JNum "100")]).

(** A string in double quotes. *)
Definition quoted (s : string) : string := String dquote (s ++ String dquote "").

(** The data of "should progressively reduce array size to fit budget". *)
Definition largeItem (i : nat) : value :=
  JObj [("id", JNum (Js.ofInt (Z.of_nat i)));
        ("name", JStr ("Item " ++ Js.ofInt (Z.of_nat i)));
        ("description",
         JStr "This is a moderately long description that adds to the token count")].

Definition largeArray : value := JObj [("data", JArr (map largeItem (seq 0 100)))].

(** The number of elements of the array under [key] in the JSON text [s]. *)
Definition parsedLength (s key : string) : option nat :=
  match parse s with
  | Some (JObj fields) =>
      match lookup key fields with
      | Some (JArr items) => Some (List.length items)
      | _ => None
      end
  | _ => None
  end.
End SampleData.

(* ===================================================================== *)
(** ** Reading an event stream *)
(* ===================================================================== *)

Module Trace.
Import Json Agent.

(** The text of the [answer_chunk] events after the most recent
    [answer_start], in emission order. *)
Definition streamedStep (acc : string) (ev : AgentEvent) : string :=
  match ev with
  | answer_start => ""
  | answer_chunk text => acc ++ text
  | _ => acc
  end.

Definition streamed (evs : list AgentEvent) : string := fold_left streamedStep evs "".

(** The events of the loop before the answer: thinking and tool events. *)
Definition isProgress (ev : AgentEvent) : bool :=
  match ev with
  | thinking _ | tool_start _ _ | tool_end _ _ _ _ | tool_error _ _ => true
  | _ => false
  end.

Definition isToolStart (ev : AgentEvent) : bool :=
  match ev with tool_start _ _ => true | _ => false end.

Definition isDone (ev : AgentEvent) : bool :=
  match ev with done _ _ _ => true | _ => false end.

(** The events one tool call may yield after its [tool_start]. *)
Inductive Closing (toolName : string) : list AgentEvent -> Prop :=
| closed_end args result duration :
    Closing toolName [tool_end toolName args result duration]
| closed_error error :
    Closing toolName [tool_error toolName error]
| closed_end_then_error args result duration error :
    Closing toolName [tool_end toolName args result duration; tool_error toolName error].

(** The events of a sequence of tool calls: one block per call, in order. *)
Inductive Blocks : list ToolCall -> list AgentEvent -> Prop :=
| blocks_nil : Blocks [] []
| blocks_cons call calls closing evs :
    Closing (name call) closing ->
    Blocks calls evs ->
    Blocks (call :: calls) ((tool_start (name call) (callArgs call) :: closing) ++ evs)%list.

Definition concatText (chunks : list string) : string := fold_left String.append chunks "".

Section WithEnv.
Context {env : AgentEnv}.

(** How one tool call ends: with its result, or with an error either
    before or after [tool_end] was yielded. *)
Inductive CallOutcome (toolName : string) (toolArgs : Args)
  : list AgentEvent -> ToolExecutionResult -> Prop :=
| call_succeeded result duration stored entry :
    CallOutcome toolName toolArgs
      [tool_end toolName toolArgs result duration]
      (mkExec (mkRecord toolName toolArgs result) stored entry)
| call_failed error entry :
    CallOutcome toolName toolArgs
      [tool_error toolName error]
      (mkExec (mkRecord toolName toolArgs ("Error: " ++ error))
              (mkSummary "" toolName toolArgs
                         (getToolDescription toolName toolArgs ++ " [FAILED]"))
              entry)
| call_failed_after_end result duration error entry :
    CallOutcome toolName toolArgs
      [tool_end toolName toolArgs result duration; tool_error toolName error]
      (mkExec (mkRecord toolName toolArgs ("Error: " ++ error))
              (mkSummary "" toolName toolArgs
                         (getToolDescription toolName toolArgs ++ " [FAILED]"))
              entry).

(** The results of the calls of one iteration, as [executeToolCalls]
    collects them. *)
Definition collect (acc : ToolCallsExecutionResult) (rs : list ToolExecutionResult)
  : ToolCallsExecutionResult :=
  mkExecs (records acc ++ map record rs)%list
          (summaries acc ++ map execSummary rs)%list
          (promptEntries acc ++ map promptEntry rs)%list.

(** The events and results of the calls of one iteration, call by call. *)
Inductive CallsOutcome : list ToolCall -> list AgentEvent -> list ToolExecutionResult -> Prop :=
| calls_nil : CallsOutcome [] [] []
| calls_cons call calls closing r evs rs :
    CallOutcome (name call) (callArgs call) closing r ->
    CallsOutcome calls evs rs ->
    CallsOutcome (call :: calls)
                 ((tool_start (name call) (callArgs call) :: closing) ++ evs)%list
                 (r :: rs).

(** The answer that [done] carries after streaming [cs]. *)
Definition closingAnswer (cs : list string) (fallback : option (World -> string))
           (w : World) : string :=
  match fallback with
  | None => concatText cs
  | Some message => if String.eqb (concatText cs) "" then message w else concatText cs
  end.

(** A run that ended with [done]: progress events, then the answer
    events, then [done] as the last event.  [bound] is [maxIterations] and
    [before] the records gathered before the part of the run in view. *)
Definition Finished (this : AgentConfig) (bound : nat) (before : list ToolCallRecord)
           (evs : list AgentEvent) : Prop :=
  exists progress cs a tc it,
    evs = (progress ++ (answer_start :: map answer_chunk cs) ++ [done a tc it])%list
    /\ forallb isProgress progress = true
    /\ (a = concatText cs
        \/ (it = bound /\ concatText cs = ""
            /\ exists w, a = maxIterationsMessage this w))
    /\ (it <= bound)%nat
    /\ (forall x, In x before -> In x tc)
    /\ (forall t e, In (tool_error t e) progress ->
                    exists args, In (mkRecord t args ("Error: " ++ e)) tc).

(** A run that threw: no [done] among its events. *)
Definition Aborted (evs : list AgentEvent) : Prop :=
  forallb (fun ev => negb (isDone ev)) evs = true.

End WithEnv.

End Trace.

(* ===================================================================== *)
(** ** Reading a compaction *)
(* ===================================================================== *)

Module CompactorSpec.
Import Json DataCompactor.

Definition keys (fields : list (string * value)) : list string := map fst fields.

(** The loop that rebuilds an object, [for (const [key, value] of
    Object.entries(data))], in the form the passes share: a property is kept
    or skipped by its name, and a kept one is assigned the value [g] makes of
    it. *)
Definition rebuildFrom (keep : string -> bool) (g : string -> value -> value)
           (fields result : list (string * value)) : list (string * value) :=
  fold_left (fun result kv =>
               if keep (fst kv) then assign result (fst kv) (g (fst kv) (snd kv))
               else result)
            fields result.

(** What array truncation at [n] leaves: no array above [n] elements, and
    objects whose property names are distinct. *)
Inductive Normal (n : Z) : value -> Prop :=
| normal_null : Normal n JNull
| normal_bool b : Normal n (JBool b)
| normal_num lit : Normal n (JNum lit)
| normal_str s : Normal n (JStr s)
| normal_arr items :
    Z.of_nat (List.length items) <= n ->
    Forall (Normal n) items ->
    Normal n (JArr items)
| normal_obj fields :
    NoDup (keys fields) ->
    Forall (fun kv => Normal n (snd kv)) fields ->
    Normal n (JObj fields).

(** What field removal leaves: objects whose property names are distinct
    and not among [removed]. *)
Inductive Plain (removed : list string) : value -> Prop :=
| plain_null : Plain removed JNull
| plain_bool b : Plain removed (JBool b)
| plain_num lit : Plain removed (JNum lit)
| plain_str s : Plain removed (JStr s)
| plain_arr items :
    Forall (Plain removed) items ->
    Plain removed (JArr items)
| plain_obj fields :
    NoDup (keys fields) ->
    Forall (fun kv => Js.strIn (fst kv) removed = false /\ Plain removed (snd kv)) fields ->
    Plain removed (JObj fields).

(** What text truncation leaves alone: objects whose property names are
    distinct and that hold no long text under a name of [fields]. *)
Inductive Brief (fields : list string) : value -> Prop :=
| brief_null : Brief fields JNull
| brief_bool b : Brief fields (JBool b)
| brief_num lit : Brief fields (JNum lit)
| brief_str s : Brief fields (JStr s)
| brief_arr items :
    Forall (Brief fields) items ->
    Brief fields (JArr items)
| brief_obj props :
    NoDup (keys props) ->
    Forall (fun kv => isLongText fields (fst kv) (snd kv) = None /\ Brief fields (snd kv))
           props ->
    Brief fields (JObj props).

(** A property name that an object lists where it was assigned: not
    [__proto__], which [result[key] = v] does not store as a property, and
    not a run of digits, which an object lists before its other names. *)
Definition ordinaryName (key : string) : bool :=
  (negb (String.eqb key "__proto__")
   && match Js.chars key with
      | [] => true
      | c :: cs => negb (forallb Js.isDigit (c :: cs))
      end)%bool.

(** A number literal that [JSON.stringify] prints as [JSON.parse] read
    it: an optional sign, an integer part without a leading zero, an
    optional fraction without a trailing zero, at most 15 significant
    digits, no more than five zeros between the point and the first
    significant digit, and no sign before a zero. *)
Definition plainNumber (lit : string) : bool :=
  let cs := Js.chars lit in
  let negative := match cs with "-"%char :: _ => true | _ => false end in
  let body := match cs with "-"%char :: rest => rest | _ => cs end in
  let whole := Js.takeWhile Js.isDigit body in
  let wholeOk :=
    match whole with
    | [] => false
    | [_] => true
    | d :: _ => negb (Ascii.eqb d "0")
    end in
  let fraction :=
    match Js.dropWhile Js.isDigit body with
    | [] => Some []
    | "."%char :: f =>
        match rev f with
        | [] => None
        | d :: _ => if (forallb Js.isDigit f && negb (Ascii.eqb d "0"))%bool then Some f else None
        end
    | _ => None
    end in
  match fraction with
  | None => false
  | Some f =>
      let significant := Js.dropWhile (Ascii.eqb "0") (whole ++ f) in
      (wholeOk
       && Nat.leb (List.length significant) 15
       && Nat.leb (List.length (Js.takeWhile (Ascii.eqb "0") f)) 5
       && negb (negative && Nat.eqb (List.length significant) 0))%bool
  end.

(** The values on which the model of JSON is the JSON of the platform:
    every number literal is plain and every property name ordinary. *)
Inductive Ordinary : value -> Prop :=
| ordinary_null : Ordinary JNull
| ordinary_bool b : Ordinary (JBool b)
| ordinary_num lit : plainNumber lit = true -> Ordinary (JNum lit)
| ordinary_str s : Ordinary (JStr s)
| ordinary_arr items :
    Forall Ordinary items ->
    Ordinary (JArr items)
| ordinary_obj fields :
    Forall (fun kv => ordinaryName (fst kv) = true /\ Ordinary (snd kv)) fields ->
    Ordinary (JObj fields).

Section WithRuntime.
Context {rt : JsRuntime}.

(** The iterative shrink as the source words it: from cap [limit] and
    serialization [result], while the estimate is above [maxTokens] and the
    cap is above 5, the cap is multiplied by 0.7 and floored and the passes
    run again on the parsed data; it ends at [limit'] and [result']. *)
Inductive ShrinkRun (o : CompactOptions) (parsed : value)
  : Z -> string -> Z -> string -> Prop :=
| shrink_stop limit result :
    ~ (maxTokens o < TokenCounter.estimateJsonTokens result /\ 5 < limit) ->
    ShrinkRun o parsed limit result limit result
| shrink_more limit result limit' result' :
    maxTokens o < TokenCounter.estimateJsonTokens result ->
    5 < limit ->
    ShrinkRun o parsed (floorTimes0_7 limit) (compactOnce o parsed (floorTimes0_7 limit))
              limit' result' ->
    ShrinkRun o parsed limit result limit' result'.

(** What [compactJson] works on after its [try]: the parsed text of a
    string, the data itself otherwise; [None] when [JSON.parse] throws. *)
Definition parsedInput (data : value) : option value :=
  match data with
  | JStr text => parse text
  | _ => Some data
  end.

(** The first pass already satisfies the budget: no shrink iteration and
    no hard truncation are needed. *)
Definition firstPassFits (data : value) (o : CompactOptions) : Prop :=
  match data with
  | JStr text =>
      match parse text with
      | Some parsed =>
          TokenCounter.estimateJsonTokens (compactOnce o parsed (optMaxArrayLength o))
          <= maxTokens o
      | None => 2 * Js.len text <= 7 * maxTokens o
      end
  | _ =>
      TokenCounter.estimateJsonTokens (compactOnce o data (optMaxArrayLength o))
      <= maxTokens o
  end.

(** The value [truncateTextFields] assigns to the property [key]. *)
Definition textValue (fields : list string) (key : string) (v : value) : value :=
  match isLongText fields key v with
  | Some s => JStr (truncateText s)
  | None => truncateTextFields v fields
  end.

End WithRuntime.

End CompactorSpec.

(* ===================================================================== *)
(** ** Reading a pattern

    What a pattern matches, apart from the order in which the matcher
    tries the alternatives. *)
(* ===================================================================== *)

Module RegexSpec.
Import Regex.

Section Language.
Variable ignoreCase : bool.
Variable s : list ascii.

(** The positions a pattern can match between, whatever the matcher
    prefers: [Matches r i j] when [r] matches the characters of [s] from
    position [i] up to position [j]; [Iter r n i j] when [n] matches of [r]
    in a row do. *)
Inductive Matches : re -> nat -> nat -> Prop :=
| matches_eps i : Matches Eps i i
| matches_cls p i a :
    nth_error s i = Some a -> test ignoreCase p a = true -> Matches (Cls p) i (S i)
| matches_seq r1 r2 i j k :
    Matches r1 i j -> Matches r2 j k -> Matches (Seq r1 r2) i k
| matches_alt_l r1 r2 i j : Matches r1 i j -> Matches (Alt r1 r2) i j
| matches_alt_r r1 r2 i j : Matches r2 i j -> Matches (Alt r1 r2) i j
| matches_rep lo hi r n i j :
    Iter r n i j -> (lo <= n)%nat -> (forall h, hi = Some h -> (n <= h)%nat) ->
    Matches (Rep lo hi r) i j
| matches_wordb i : atWordB s i = true -> Matches WordB i i
| matches_bol : Matches Bol 0 0
| matches_grp n r i j : Matches r i j -> Matches (Grp n r) i j
with Iter : re -> nat -> nat -> nat -> Prop :=
| iter_none r i : Iter r 0 i i
| iter_more r n i j k : Matches r i j -> Iter r n j k -> Iter r (S n) i k.

End Language.

Section Repetition.
Variable body : (nat -> caps -> option (nat * caps)) -> nat -> caps -> option (nat * caps).
Variable lo : nat.
Variable hi : option nat.
Variable k : nat -> caps -> option (nat * caps).

(** The loop of a repetition, with the matcher of its body as [body]. *)
Fixpoint repeatFrom (fuel cnt i : nat) (c : caps) {struct fuel} : option (nat * caps) :=
  let stop := if Nat.leb lo cnt then k i c else None in
  match fuel with
  | O => stop
  | S f =>
      if below hi cnt then
        match body (fun j c' =>
                      if (Nat.eqb j i && Nat.leb lo cnt)%bool then None
                      else repeatFrom f (S cnt) j c') i c with
        | Some x => Some x
        | None => stop
        end
      else stop
  end.
End Repetition.

(** A pattern without capture groups. *)
Fixpoint plain (r : re) : bool :=
  match r with
  | Eps | Cls _ | WordB | Bol => true
  | Seq r1 r2 | Alt r1 r2 => (plain r1 && plain r2)%bool
  | Rep _ _ r' => plain r'
  | Grp _ _ => false
  end.
End RegexSpec.

(* ===================================================================== *)
(** ** Reading the calls and the context of a run *)
(* ===================================================================== *)

Module RunSpec.
Import Json Agent.

(** The tool and the arguments that a [tool_start] event announces. *)
Definition startOf (ev : AgentEvent) : list (string * Args) :=
  match ev with
  | tool_start tool args => [(tool, args)]
  | _ => []
  end.

(** The calls that the [tool_start] events of a stream announce, in order. *)
Definition toolStarts (evs : list AgentEvent) : list (string * Args) :=
  flat_map startOf evs.

(** The call a record is of, and the call the model asked for. *)
Definition recordCall (r : ToolCallRecord) : string * Args := (tool r, args r).
Definition requested (c : ToolCall) : string * Args := (name c, callArgs c).

(** The sum of the JSON estimates of the entries of a context. *)
Definition tokensOf (entries : list string) : Z :=
  fold_right (fun entry acc => TokenCounter.estimateTokens entry TokenCounter.json + acc)
             0 entries.

Section WithEnv.
Context {rt : JsRuntime} {env : AgentEnv}.

(** The entry of one loaded context in the final prompt: a heading with
    the description of the call, then the compacted result. *)
Definition formatted (query : string) (perResultBudget : Z) (ctx : FullContext) : string :=
  "### " ++ getToolDescription (ctxToolName ctx) (ctxArgs ctx) ++ Prompts.nl
  ++ DataCompactor.compactJson (ctxResult ctx)
       (DataCompactor.mkOptions perResultBudget (Some 100) (Some true) (Some true)
                                (Some true) (Some query) None).

(** The note that stands for the [omitted] contexts left out. *)
Definition omittedNote (omitted : Z) : string :=
  "### Note" ++ Prompts.nl ++ "[Additional " ++ Js.ofInt omitted
  ++ " data sources omitted to fit context window]".
End WithEnv.
End RunSpec.

(* ===================================================================== *)
(** * Properties *)
(* ===================================================================== *)

(** ** Token estimator *)

Example estimateTokens_text : TokenCounter.estimateTokens "Hello world" TokenCounter.text = 3.
Proof. reflexivity. Qed.

(** ** The calendar of the sample runtime *)

Section CalendarFacts.
Import Calendar.

Ltac split_tests :=
  repeat match goal with
         | |- context [?a <? ?b] => destruct (Z.ltb_spec a b)
         | |- context [?a <=? ?b] => destruct (Z.leb_spec a b)
         end.

(** The civil date of a day number is a date, and it has that day number. *)
Lemma civil_roundtrip (z : Z) :
  let '(y, m, d) := civilFromDays z in
  1 <= m <= 12 /\ 1 <= d <= 31 /\ daysFromCivil y m d = z.
Proof.
  unfold civilFromDays, daysFromCivil. cbv zeta.
  split_tests; Z.div_mod_to_equations; lia.
Qed.

Lemma daysFromCivil_day (y m d : Z) :
  daysFromCivil y m d = daysFromCivil y m 1 + d - 1.
Proof. unfold daysFromCivil. cbv zeta. lia. Qed.

(** The same month two years earlier starts 730 or 731 days earlier. *)
Lemma two_years_apart (y m : Z) :
  1 <= m <= 12 ->
  730 <= daysFromCivil y m 1 - daysFromCivil (y - 2) m 1 <= 731.
Proof.
  intros Hm. unfold daysFromCivil. cbv zeta.
  split_tests; Z.div_mod_to_equations; lia.
Qed.

(** [setFullYear] to two years back moves an instant 730 or 731 days
    back. *)
Lemma setFullYear_two_years_back (now : Z) :
  0 <= now <= 8640000000000000 ->
  exists start,
    setFullYear now (yearOf now - 2) = Some start
    /\ now - 731 * msPerDay <= start <= now - 730 * msPerDay.
Proof.
  intros Hnow. unfold setFullYear, makeDay, yearOf, monthOf, dateOf, timeInDay.
  pose proof (civil_roundtrip (now / msPerDay)) as Hcivil.
  destruct (civilFromDays (now / msPerDay)) as [[y m] d]. simpl fst. simpl snd.
  destruct Hcivil as (Hm & Hd & Hday).
  replace ((m - 1) / 12) with 0 by (Z.div_mod_to_equations; lia).
  replace ((m - 1) mod 12 + 1) with m by (Z.div_mod_to_equations; lia).
  rewrite Z.add_0_r.
  pose proof (two_years_apart y m Hm) as Hapart.
  rewrite daysFromCivil_day in Hday.
  set (a := daysFromCivil y m 1) in *. set (b := daysFromCivil (y - 2) m 1) in *.
  assert (Hsplit : now = (a + d - 1) * msPerDay + now mod msPerDay).
  { rewrite Hday. unfold msPerDay. Z.div_mod_to_equations. lia. }
  assert (Hstart : now - 731 * msPerDay
                   <= (b + d - 1) * msPerDay + now mod msPerDay
                   <= now - 730 * msPerDay).
  { unfold msPerDay in *. lia. }
  exists ((b + d - 1) * msPerDay + now mod msPerDay). split; [|exact Hstart].
  unfold timeClip.
  destruct (Z.leb_spec (Z.abs ((b + d - 1) * msPerDay + now mod msPerDay)) 8640000000000000)
    as [_|Hbig]; [reflexivity|].
  unfold msPerDay in *. lia.
Qed.
End CalendarFacts.

(** ** Query analyzer *)

Section QueryAnalyzerFacts.
Import QueryAnalyzer.

(** C7.  For the query about AAPL's return over the past 2 years the
    analyzer finds the one ticker AAPL, one date range that ends at the
    current instant and starts at the current instant with its calendar
    year set two back, the calculation keyword return, and so requires the
    full data; this on every runtime.  On the calendar of the sample runtime
    the range starts 730 or 731 days before the current instant. *)
Theorem analyzeQuery_aapl_past_2_years :
  (forall rt : JsRuntime,
      let c := analyzeQuery "What was AAPL's return over the past 2 years?" in
      tickers c = ["AAPL"]
      /\ dateRanges c
         = [mkRange (Date_setFullYear Date_now (Date_getFullYear Date_now - 2))
                    (Some Date_now)]
      /\ calculationKeywords c = ["return"]
      /\ requiresFullData c = true)
  /\ (forall now,
         0 <= now <= 8640000000000000 ->
         exists start,
           dateRanges (@analyzeQuery (Calendar.runtimeAt now)
                                     "What was AAPL's return over the past 2 years?")
           = [mkRange (Some start) (Some now)]
           /\ now - 731 * Calendar.msPerDay <= start <= now - 730 * Calendar.msPerDay).
Proof.
  assert (Hany : forall rt : JsRuntime,
             let c := analyzeQuery "What was AAPL's return over the past 2 years?" in
             tickers c = ["AAPL"]
             /\ dateRanges c
                = [mkRange (Date_setFullYear Date_now (Date_getFullYear Date_now - 2))
                           (Some Date_now)]
             /\ calculationKeywords c = ["return"]
             /\ requiresFullData c = true)
    by (intros rt; vm_compute; repeat split; reflexivity).
  split; [exact Hany|].
  intros now Hnow.
  destruct (setFullYear_two_years_back now Hnow) as (start & Hset & Hbounds).
  exists start. split; [|exact Hbounds].
  destruct (Hany (Calendar.runtimeAt now)) as (_ & -> & _).
  simpl. rewrite Hset. reflexivity.
Qed.
End QueryAnalyzerFacts.

(** The fiscal-year loop of [extractYears] pushes a year once. *)
Example extractYears_fiscal_year_once :
  QueryAnalyzer.extractYears "FY2020 margins against FY20 guidance and 2021" = [2020; 2021]
  /\ QueryAnalyzer.extractYears "2020 revenue, FY20 guidance" = [2020].
Proof. split; vm_compute; reflexivity. Qed.

(** C9.  Two mentions of the same 4-digit year are both kept: the first
    loop of [extractYears] pushes every match, only the fiscal-year loop
    checks [includes]. *)
Theorem extractYears_repeats_a_year :
  QueryAnalyzer.extractYears "Compare 2020 revenue with 2020 guidance" = [2020; 2020]
  /\ ~ NoDup (QueryAnalyzer.extractYears "Compare 2020 revenue with 2020 guidance").
Proof.
  assert (E : QueryAnalyzer.extractYears "Compare 2020 revenue with 2020 guidance" = [2020; 2020])
    by (vm_compute; reflexivity).
  split; [exact E|]. rewrite E. intro H. inversion H as [|x l Hnot _]. apply Hnot. left. reflexivity.
Qed.

(** ** Strings and the estimator *)

Section StringFacts.

Lemma length_append (a b : string) :
  String.length (a ++ b) = (String.length a + String.length b)%nat.
Proof. induction a as [|c a IH]; simpl; [reflexivity | now rewrite IH]. Qed.

Lemma len_append (a b : string) : Js.len (a ++ b) = Js.len a + Js.len b.
Proof. unfold Js.len. rewrite length_append. lia. Qed.

Lemma len_nonneg (s : string) : 0 <= Js.len s.
Proof. unfold Js.len. lia. Qed.

Lemma length_substring (n m : nat) (s : string) :
  String.length (String.substring n m s) = Nat.min m (String.length s - n).
Proof.
  revert n m. induction s as [|c s IH]; intros n m.
  - destruct n, m; reflexivity.
  - destruct n as [|n].
    + destruct m as [|m]; simpl; [reflexivity|].
      rewrite IH. now rewrite Nat.sub_0_r.
    + simpl. apply IH.
Qed.

(** The length of a prefix slice [s.slice(0, k)] with [k >= 0]. *)
Lemma len_slice_prefix (s : string) (k : Z) :
  0 <= k -> Js.len (Js.slice s 0 k) = Z.min k (Js.len s).
Proof.
  intros Hk. unfold Js.slice, Js.relIndex.
  pose proof (len_nonneg s) as Hn.
  replace (0 <? 0) with false by reflexivity.
  destruct (k <? 0) eqn:E; [apply Z.ltb_lt in E; lia|].
  unfold Js.len in *. rewrite length_substring. lia.
Qed.

Lemma estimateJsonTokens_eq (s : string) :
  TokenCounter.estimateJsonTokens s = (2 * Js.len s + 6) / 7.
Proof.
  unfold TokenCounter.estimateJsonTokens, TokenCounter.estimateTokens, TokenCounter.ceilDiv.
  destruct (String.eqb_spec s "") as [->|_]; [reflexivity|].
  cbn [TokenCounter.CHARS_PER_TOKEN_x2]. f_equal. lia.
Qed.

(** Text that is above a budget of [m] tokens has more than [3.5 * m]
    characters, and conversely. *)
Lemma over_budget_iff (s : string) (m : Z) :
  m < TokenCounter.estimateJsonTokens s <-> 7 * m < 2 * Js.len s.
Proof. rewrite estimateJsonTokens_eq. split; intros H; Z.div_mod_to_equations; lia. Qed.

(** A string cut at [floor(3.5 * m)] characters and marked is estimated
    at exactly [m + 4] tokens. *)
Lemma marked_estimate (r : string) (m k : Z) :
  0 <= m -> 7 * m < 2 * Js.len r -> (k = 7 * m / 2 \/ k = Z.quot (7 * m) 2) ->
  TokenCounter.estimateJsonTokens (Js.slice r 0 k ++ "...[truncated]") = m + 4.
Proof.
  intros Hm Hover Hk.
  assert (Hk' : k = 7 * m / 2).
  { destruct Hk as [->| ->]; [reflexivity|]. apply Z.quot_div_nonneg; lia. }
  rewrite estimateJsonTokens_eq, len_append, len_slice_prefix
    by (subst k; Z.div_mod_to_equations; lia).
  change (Js.len "...[truncated]") with 14.
  subst k. Z.div_mod_to_equations. lia.
Qed.
End StringFacts.

(** ** Objects and their rebuilding *)

Section ObjectFacts.
Import Json CompactorSpec.

(** Induction on values through the lists that nest them. *)
Lemma value_ind_nested (P : value -> Prop) :
  P JNull ->
  (forall b, P (JBool b)) ->
  (forall lit, P (JNum lit)) ->
  (forall s, P (JStr s)) ->
  (forall items, Forall P items -> P (JArr items)) ->
  (forall fields, Forall (fun kv => P (snd kv)) fields -> P (JObj fields)) ->
  forall v, P v.
Proof.
  intros Hnull Hbool Hnum Hstr Harr Hobj.
  fix IH 1. intros [ |b|lit|s|items|fields].
  - exact Hnull.
  - apply Hbool.
  - apply Hnum.
  - apply Hstr.
  - apply Harr. revert items. fix IHitems 1. intros [|x items].
    + constructor.
    + constructor; [apply IH | apply IHitems].
  - apply Hobj. revert fields. fix IHfields 1. intros [|[k x] fields].
    + constructor.
    + constructor; [apply IH | apply IHfields].
Qed.

Lemma assign_present (fields : list (string * value)) (key : string) (v : value) :
  In key (keys fields) -> keys (assign fields key v) = keys fields.
Proof.
  induction fields as [|[k w] fields IH]; simpl; [tauto|].
  intros Hin. destruct (String.eqb_spec k key) as [->|Hne]; [reflexivity|].
  simpl. f_equal. apply IH. destruct Hin as [Hin|Hin]; [contradiction | exact Hin].
Qed.

Lemma assign_absent (fields : list (string * value)) (key : string) (v : value) :
  ~ In key (keys fields) -> assign fields key v = (fields ++ [(key, v)])%list.
Proof.
  induction fields as [|[k w] fields IH]; simpl; [reflexivity|].
  intros Hnot. destruct (String.eqb_spec k key) as [->|Hne]; [tauto|].
  f_equal. apply IH. tauto.
Qed.

Lemma assign_nodup (fields : list (string * value)) (key : string) (v : value) :
  NoDup (keys fields) -> NoDup (keys (assign fields key v)).
Proof.
  intros Hnd. destruct (in_dec string_dec key (keys fields)) as [Hin|Hnot].
  - now rewrite assign_present.
  - rewrite assign_absent by exact Hnot. unfold keys. rewrite map_app. simpl.
    apply NoDup_app; [exact Hnd | repeat constructor; simpl; tauto |].
    intros a Ha [Hb|[]]. subst a. apply Hnot. exact Ha.
Qed.

Lemma assign_forall (Q : string * value -> Prop) (fields : list (string * value))
      (key : string) (v : value) :
  Forall Q fields -> Q (key, v) -> Forall Q (assign fields key v).
Proof.
  intros Hall Hq. induction Hall as [|[k w] fields Hkw Hall IH]; simpl.
  - constructor; [exact Hq | constructor].
  - destruct (String.eqb_spec k key) as [->|Hne]; constructor; assumption.
Qed.

Lemma rebuildFrom_nodup keep g (fields : list (string * value)) :
  forall result, NoDup (keys result) -> NoDup (keys (rebuildFrom keep g fields result)).
Proof.
  induction fields as [|[k x] fields IH]; intros result Hnd; [exact Hnd|].
  unfold rebuildFrom. simpl. apply IH.
  destruct (keep k); [now apply assign_nodup | exact Hnd].
Qed.

Lemma rebuildFrom_forall (Q : string * value -> Prop) keep g
      (fields : list (string * value)) :
  forall result,
    Forall Q result ->
    Forall (fun kv => keep (fst kv) = true -> Q (fst kv, g (fst kv) (snd kv))) fields ->
    Forall Q (rebuildFrom keep g fields result).
Proof.
  induction fields as [|[k x] fields IH]; intros result Hres Hall; [exact Hres|].
  unfold rebuildFrom. simpl. inversion Hall as [|? ? Hkx Hrest]; subst. simpl in Hkx.
  apply IH; [|exact Hrest].
  destruct (keep k); [apply assign_forall; auto | exact Hres].
Qed.

(** Rebuilding an object whose names are distinct and all kept is a map
    over its properties. *)
Lemma rebuildFrom_map keep g (fields : list (string * value)) :
  forall result,
    NoDup (keys result ++ keys fields) ->
    Forall (fun kv => keep (fst kv) = true) fields ->
    rebuildFrom keep g fields result
    = (result ++ map (fun kv => (fst kv, g (fst kv) (snd kv))) fields)%list.
Proof.
  induction fields as [|[k x] fields IH]; intros result Hnd Hkeep.
  - simpl. now rewrite app_nil_r.
  - unfold rebuildFrom. simpl. inversion Hkeep as [|? ? Hk Hrest]; subst. simpl in Hk.
    rewrite Hk. simpl in Hnd.
    assert (Hnot : ~ In k (keys result)).
    { intros Hin. apply NoDup_remove_2 in Hnd. apply Hnd. apply in_or_app. now left. }
    rewrite assign_absent by exact Hnot.
    change (fold_left _ fields ?r) with (rebuildFrom keep g fields r).
    rewrite IH; [now rewrite <- app_assoc | | exact Hrest].
    unfold keys in *. rewrite map_app, <- app_assoc. exact Hnd.
Qed.

Lemma map_fixed {A} (f : A -> A) (l : list A) :
  Forall (fun a => f a = a) l -> map f l = l.
Proof. induction 1 as [|a l Ha _ IH]; simpl; [reflexivity | now rewrite Ha, IH]. Qed.

(** Rebuilding an object leaves it as it is when its names are distinct
    and kept and [g] fixes its values. *)
Lemma rebuildFrom_fixed keep g (fields : list (string * value)) :
  NoDup (keys fields) ->
  Forall (fun kv => keep (fst kv) = true) fields ->
  Forall (fun kv => g (fst kv) (snd kv) = snd kv) fields ->
  rebuildFrom keep g fields [] = fields.
Proof.
  intros Hnd Hkeep Hfix. rewrite rebuildFrom_map by assumption. simpl.
  apply map_fixed. eapply Forall_impl; [|exact Hfix].
  intros [k x] Hkx. simpl in *. now rewrite Hkx.
Qed.
End ObjectFacts.

(** ** Context compactor *)

Section CompactorFacts.
Import Json QueryAnalyzer DataCompactor.
Context {rt : JsRuntime}.

(** Multiplying a positive cap by 0.7 and flooring makes it smaller. *)
Lemma floorTimes0_7_lt (x : Z) : 0 < x -> 0 <= floorTimes0_7 x < x.
Proof.
  intros Hx. unfold floorTimes0_7, double_0_7_mantissa.
  rewrite Z.abs_eq by lia.
  destruct (0 <=? x) eqn:E; [|apply Z.leb_gt in E; lia]. clear E.
  set (n := x * 3152519739159347).
  assert (Hn : 0 < n) by (subst n; lia).
  set (sh := Z.max (Z.log2 n + 1 - 53) 0).
  assert (Hsh : 0 <= sh) by (subst sh; lia).
  rewrite !Z.shiftr_div_pow2, !Z.shiftl_mul_pow2 by lia.
  set (P := 2 ^ sh).
  assert (HP : 0 < P) by (subst P; apply Z.pow_pos_nonneg; lia).
  assert (HP1 : sh = 0 -> P = 1) by (intros H0; subst P; rewrite H0; reflexivity).
  assert (HPn : 0 < sh -> P * 2 ^ 52 <= n).
  { intros Hpos. subst P. rewrite <- Z.pow_add_r by lia.
    replace (sh + 52) with (Z.log2 n) by (subst sh; lia).
    apply Z.log2_spec. exact Hn. }
  change (2 ^ 52) with 4503599627370496 in *.
  pose proof (Z.div_mod n P ltac:(lia)) as Hdiv.
  pose proof (Z.mod_pos_bound n P HP) as Hmod.
  set (q := n / P) in *.
  assert (Hq : 0 <= q) by (subst q; apply Z.div_pos; lia).
  assert (Hnum : forall q', (q' = q \/ (q' = q + 1 /\ 0 < sh)) ->
                 0 <= q' * P / 4503599627370496 < x).
  { intros q' Hq'. split.
    - apply Z.div_pos; [|lia]. destruct Hq' as [->|[-> _]]; nia.
    - apply Z.div_lt_upper_bound; [lia|].
      destruct Hq' as [->|[-> Hpos]].
      + subst n. nia.
      + specialize (HPn Hpos). subst n. nia. }
  destruct ((1 * P <? 2 * (n - q * P)) || ((1 * P =? 2 * (n - q * P)) && Z.odd q))%bool eqn:Hround.
  - apply Hnum. right. split; [reflexivity|].
    destruct (Z.eq_dec sh 0) as [H0|]; [|lia].
    specialize (HP1 H0). rewrite HP1 in *.
    assert (n - q * 1 = 0) by lia.
    replace (n - q * 1) with 0 in Hround by lia. discriminate Hround.
  - apply Hnum. left. reflexivity.
Qed.

Lemma shrink_run (o : CompactOptions) (parsed : value) (fuel : nat) :
  forall limit result,
    limit <= Z.of_nat fuel ->
    CompactorSpec.ShrinkRun o parsed limit result
      (fst (shrink fuel o parsed limit result)) (snd (shrink fuel o parsed limit result)).
Proof.
  induction fuel as [|fuel IH]; intros limit result Hfuel.
  - simpl. apply CompactorSpec.shrink_stop. lia.
  - simpl.
    destruct (maxTokens o <? TokenCounter.estimateJsonTokens result) eqn:Hover;
      destruct (5 <? limit) eqn:Hcap; simpl;
      try (apply CompactorSpec.shrink_stop;
           apply Z.ltb_ge in Hover || apply Z.ltb_ge in Hcap; lia).
    apply Z.ltb_lt in Hover, Hcap.
    apply CompactorSpec.shrink_more; [assumption..|].
    apply IH. pose proof (floorTimes0_7_lt limit ltac:(lia)). lia.
Qed.

(** The loop leaves with the estimate within the budget or the cap at 5
    or below. *)
Lemma shrinkRun_exit (o : CompactOptions) (parsed : value) limit result limit' result' :
  CompactorSpec.ShrinkRun o parsed limit result limit' result' ->
  TokenCounter.estimateJsonTokens result' <= maxTokens o \/ limit' <= 5.
Proof. induction 1 as [limit result Hstop|]; [lia | assumption]. Qed.

Lemma hardTruncate_cases (o : CompactOptions) (r : string) :
  0 <= maxTokens o ->
  (TokenCounter.estimateJsonTokens r <= maxTokens o /\ hardTruncate o r = r)
  \/ (maxTokens o < TokenCounter.estimateJsonTokens r
      /\ hardTruncate o r = Js.slice r 0 (7 * maxTokens o / 2) ++ "...[truncated]"
      /\ TokenCounter.estimateJsonTokens (hardTruncate o r) = maxTokens o + 4).
Proof.
  intros Hm. unfold hardTruncate.
  destruct (maxTokens o <? TokenCounter.estimateJsonTokens r) eqn:E.
  - right. apply Z.ltb_lt in E. repeat split; [exact E|].
    apply marked_estimate; [exact Hm | now apply over_budget_iff | now left].
  - left. apply Z.ltb_ge in E. split; [exact E | reflexivity].
Qed.

Lemma truncateString_cases (text : string) (m : Z) :
  (2 * Js.len text <= 7 * m /\ truncateString text (7 * m) = text)
  \/ (7 * m < 2 * Js.len text
      /\ truncateString text (7 * m) = Js.slice text 0 (Z.quot (7 * m) 2) ++ "...[truncated]").
Proof.
  unfold truncateString.
  destruct (2 * Js.len text <=? 7 * m) eqn:E.
  - left. apply Z.leb_le in E. split; [exact E | reflexivity].
  - right. apply Z.leb_gt in E. split; [exact E | reflexivity].
Qed.

Lemma compactParsed_run (o : CompactOptions) (parsed : value) :
  exists limit result,
    CompactorSpec.ShrinkRun o parsed (optMaxArrayLength o)
      (compactOnce o parsed (optMaxArrayLength o)) limit result
    /\ compactParsed o parsed = hardTruncate o result.
Proof.
  unfold compactParsed.
  pose proof (shrink_run o parsed (Z.to_nat (optMaxArrayLength o)) (optMaxArrayLength o)
                (compactOnce o parsed (optMaxArrayLength o)) ltac:(lia)) as Hrun.
  destruct (shrink _ o parsed _ _) as [limit result]. simpl in Hrun.
  exists limit, result. split; [exact Hrun | reflexivity].
Qed.

(** C3, as the code has it.  With a budget [maxTokens >= 0], the estimate
    of the output is at most [maxTokens + 4].  It is within [maxTokens]
    unless the output is some text [r] above the budget cut at
    [floor(maxTokens * 3.5)] characters with the marker appended after the
    cut, and then the estimate is exactly [maxTokens + 4].  For input that
    parses, [r] is what the iterative shrink ends with. *)
Theorem compactJson_budget (data : value) (o : CompactOptions) :
  0 <= maxTokens o ->
  let out := compactJson data o in
  TokenCounter.estimateJsonTokens out <= maxTokens o + 4
  /\ (TokenCounter.estimateJsonTokens out <= maxTokens o
      \/ exists r,
           maxTokens o < TokenCounter.estimateJsonTokens r
           /\ out = Js.slice r 0 (7 * maxTokens o / 2) ++ "...[truncated]"
           /\ TokenCounter.estimateJsonTokens out = maxTokens o + 4)
  /\ (forall parsed,
         CompactorSpec.parsedInput data = Some parsed ->
         exists limit result,
           CompactorSpec.ShrinkRun o parsed (optMaxArrayLength o)
             (compactOnce o parsed (optMaxArrayLength o)) limit result
           /\ (TokenCounter.estimateJsonTokens result <= maxTokens o \/ limit <= 5)
           /\ out = hardTruncate o result).
Proof.
  intros Hm out.
  assert (Hparsed : forall parsed,
             (TokenCounter.estimateJsonTokens (compactParsed o parsed) <= maxTokens o
              \/ exists r,
                   maxTokens o < TokenCounter.estimateJsonTokens r
                   /\ compactParsed o parsed
                      = Js.slice r 0 (7 * maxTokens o / 2) ++ "...[truncated]"
                   /\ TokenCounter.estimateJsonTokens (compactParsed o parsed)
                      = maxTokens o + 4)).
  { intros parsed. destruct (compactParsed_run o parsed) as (limit & result & _ & ->).
    destruct (hardTruncate_cases o result Hm) as [[Hle ->]|(Hgt & Heq & Hest)].
    - now left.
    - right. exists result. repeat split; assumption. }
  assert (Hraw : forall text,
             (TokenCounter.estimateJsonTokens (truncateString text (7 * maxTokens o))
              <= maxTokens o
              \/ exists r,
                   maxTokens o < TokenCounter.estimateJsonTokens r
                   /\ truncateString text (7 * maxTokens o)
                      = Js.slice r 0 (7 * maxTokens o / 2) ++ "...[truncated]"
                   /\ TokenCounter.estimateJsonTokens (truncateString text (7 * maxTokens o))
                      = maxTokens o + 4)).
  { intros text. destruct (truncateString_cases text (maxTokens o)) as [[Hle ->]|[Hgt ->]].
    - left. rewrite estimateJsonTokens_eq. Z.div_mod_to_equations. lia.
    - right. exists text. rewrite Z.quot_div_nonneg by lia.
      repeat split; [now apply over_budget_iff|].
      apply marked_estimate; [exact Hm | exact Hgt | now left]. }
  assert (Hout : TokenCounter.estimateJsonTokens out <= maxTokens o
                 \/ exists r,
                      maxTokens o < TokenCounter.estimateJsonTokens r
                      /\ out = Js.slice r 0 (7 * maxTokens o / 2) ++ "...[truncated]"
                      /\ TokenCounter.estimateJsonTokens out = maxTokens o + 4).
  { subst out. unfold compactJson.
    destruct data as [| | |text| |]; try apply Hparsed.
    destruct (parse text); [apply Hparsed | apply Hraw]. }
  split; [|split].
  - destruct Hout as [Hle|(r & _ & _ & Heq)]; lia.
  - exact Hout.
  - intros parsed Hin.
    destruct (compactParsed_run o parsed) as (limit & result & Hrun & Heq).
    exists limit, result. split; [exact Hrun|]. split; [exact (shrinkRun_exit _ _ _ _ _ _ Hrun)|].
    subst out. unfold compactJson, CompactorSpec.parsedInput in *.
    destruct data as [| | |text| |]; try (injection Hin as <-; exact Heq).
    rewrite Hin. exact Heq.
Qed.

(** *** The passes on arrays and objects *)

Import CompactorSpec.

Lemma truncateArrays_obj (fields : list (string * value)) (n : Z) :
  truncateArrays (JObj fields) n
  = JObj (rebuildFrom (fun _ => true) (fun _ v => truncateArrays v n) fields []).
Proof. reflexivity. Qed.

Lemma removeFields_obj (fields : list (string * value)) (removed : list string) :
  removeFields (JObj fields) removed
  = JObj (rebuildFrom (fun k => negb (Js.strIn k removed))
                      (fun _ v => removeFields v removed) fields []).
Proof. reflexivity. Qed.

Lemma fold_left_pointwise {A B} (f f' : A -> B -> A) (l : list B) :
  (forall a b, f a b = f' a b) -> forall a, fold_left f l a = fold_left f' l a.
Proof.
  intros Hf. induction l as [|b l IH]; intros a; [reflexivity|].
  simpl. rewrite Hf. apply IH.
Qed.

Lemma truncateTextFields_obj (props : list (string * value)) (fields : list string) :
  truncateTextFields (JObj props) fields
  = JObj (rebuildFrom (fun _ => true) (textValue fields) props []).
Proof.
  simpl. f_equal. unfold rebuildFrom. apply fold_left_pointwise.
  intros result [k x]. unfold textValue. simpl. destruct (isLongText fields k x); reflexivity.
Qed.

Lemma flat_map_filter {A B} (p : A -> bool) (f : A -> B) (l : list A) :
  flat_map (fun a => if p a then [f a] else []) l = map f (filter p l).
Proof.
  induction l as [|a l IH]; [reflexivity|].
  simpl. destruct (p a); simpl; now rewrite IH.
Qed.

(** The source's form of the filter on an array of dated objects:
    [filtered.length > 0 ? filtered.map(f) : data.slice(0, 20)]. *)
Lemma filterByQueryContext_dated (first : value) (rest : list value)
      (dateField : string) (context : QueryContext) :
  isObject first = true ->
  findDateField first = Some dateField ->
  let items := first :: rest in
  let filtered := filter (keepItem context dateField) items in
  filterByQueryContext (JArr items) context
  = if Nat.ltb 0 (List.length filtered)
    then JArr (map (fun item => filterByQueryContext item context) filtered)
    else JArr (Js.sliceList items 0 20).
Proof.
  intros Hobject Hfield items filtered. subst items filtered.
  cbn [filterByQueryContext]. rewrite Hobject, Hfield.
  rewrite flat_map_filter. reflexivity.
Qed.

(** The source's form of an array above the limit: the slice by the
    detected ordering, then the recursion into the kept elements. *)
Lemma truncateArrays_long (items : list value) (maxLength : Z) :
  maxLength < Z.of_nat (List.length items) ->
  truncateArrays (JArr items) maxLength
  = JArr (map (fun item => truncateArrays item maxLength)
              (truncatedSlice (detectDateOrdering items) items maxLength)).
Proof.
  intros Hlong. simpl.
  destruct (Z.of_nat (List.length items) <=? maxLength) eqn:E;
    [apply Z.leb_le in E; lia|].
  f_equal. unfold truncatedSlice, Js.sliceFrom, Js.sliceList.
  rewrite length_map.
  destruct (detectDateOrdering items); now rewrite skipn_map, firstn_map.
Qed.

Lemma truncateArrays_short (items : list value) (maxLength : Z) :
  Z.of_nat (List.length items) <= maxLength ->
  truncateArrays (JArr items) maxLength
  = JArr (map (fun item => truncateArrays item maxLength) items).
Proof.
  intros Hshort. simpl.
  destruct (Z.of_nat (List.length items) <=? maxLength) eqn:E;
    [reflexivity | apply Z.leb_gt in E; lia].
Qed.

Lemma orderingByFields_cons (first second : value) (field : string) (rest : list string) :
  orderingByFields first second (field :: rest)
  = match prop first field, prop second field with
    | Some (JStr firstDate), Some (JStr secondDate) =>
        match Date_parse firstDate, Date_parse secondDate with
        | Some d1, Some d2 => if d2 <? d1 then newest_first else oldest_first
        | _, _ => orderingByFields first second rest
        end
    | _, _ => orderingByFields first second rest
    end.
Proof. reflexivity. Qed.

(** The rule of the code for two dated elements at the head: the first N
    when the first date is later than the second, the last N otherwise, the
    case of equal dates included. *)
Lemma detectDateOrdering_by_date (first second : list (string * value))
      (rest : list value) (a b : string) (d1 d2 : Z) :
  Json.lookup "date" first = Some (JStr a) ->
  Json.lookup "date" second = Some (JStr b) ->
  Date_parse a = Some d1 ->
  Date_parse b = Some d2 ->
  detectDateOrdering (JObj first :: JObj second :: rest)
  = if d2 <? d1 then newest_first else oldest_first.
Proof.
  intros Hfirst Hsecond Ha Hb. unfold detectDateOrdering.
  cbn [isObject negb orb]. rewrite orderingByFields_cons. cbn [prop].
  rewrite Hfirst, Hsecond, Ha, Hb. reflexivity.
Qed.

Lemma truncateArrays_by_date (first second : list (string * value))
      (rest : list value) (a b : string) (d1 d2 maxLength : Z) :
  Json.lookup "date" first = Some (JStr a) ->
  Json.lookup "date" second = Some (JStr b) ->
  Date_parse a = Some d1 ->
  Date_parse b = Some d2 ->
  let items := JObj first :: JObj second :: rest in
  maxLength < Z.of_nat (List.length items) ->
  truncateArrays (JArr items) maxLength
  = JArr (map (fun item => truncateArrays item maxLength)
              (if d2 <? d1 then Js.sliceList items 0 maxLength
               else Js.sliceFrom items (- maxLength))).
Proof.
  intros Hfirst Hsecond Ha Hb items Hlong.
  rewrite truncateArrays_long by exact Hlong. subst items.
  rewrite (detectDateOrdering_by_date _ _ _ _ _ _ _ Hfirst Hsecond Ha Hb).
  destruct (d2 <? d1); reflexivity.
Qed.

Lemma forall_slice {A} (P : A -> Prop) (l : list A) (a b : nat) :
  Forall P l -> Forall P (firstn b (skipn a l)).
Proof.
  intros Hall.
  assert (Hskip : Forall P (skipn a l)).
  { rewrite <- (firstn_skipn a l) in Hall. now apply Forall_app in Hall. }
  rewrite <- (firstn_skipn b (skipn a l)) in Hskip. now apply Forall_app in Hskip.
Qed.

Lemma truncatedSlice_forall {A} (P : A -> Prop) ordering (l : list A) (n : Z) :
  Forall P l -> Forall P (truncatedSlice ordering l n).
Proof.
  intros Hall. unfold truncatedSlice, Js.sliceFrom, Js.sliceList.
  destruct ordering; now apply forall_slice.
Qed.

Lemma truncatedSlice_length {A} ordering (l : list A) (n : Z) :
  0 < n -> n < Z.of_nat (List.length l) ->
  Z.of_nat (List.length (truncatedSlice ordering l n)) <= n.
Proof.
  intros Hpos Hlong. unfold truncatedSlice, Js.sliceFrom, Js.sliceList, Js.relIndex.
  destruct ordering; rewrite length_firstn;
    repeat match goal with
           | |- context [?a <? ?b] => destruct (Z.ltb_spec a b)
           end; lia.
Qed.

Create HintDb compactor.
#[local] Hint Constructors Normal Plain : compactor.

(** The cases of a value that is neither an array nor an object. *)
Ltac scalar_cases := try solve [simpl; auto with compactor].

(** Array truncation at a positive limit gives a normal value. *)
Lemma truncateArrays_normal (n : Z) :
  0 < n -> forall v, Normal n (truncateArrays v n).
Proof.
  intros Hpos. induction v as [ | | | |items IH|fields IH] using value_ind_nested;
    scalar_cases.
  - assert (Hmapped : Forall (Normal n) (map (fun item => truncateArrays item n) items))
      by (apply Forall_map; exact IH).
    destruct (Z.le_gt_cases (Z.of_nat (List.length items)) n) as [Hshort|Hlong].
    + rewrite truncateArrays_short by exact Hshort.
      constructor; [now rewrite length_map | exact Hmapped].
    + simpl. destruct (Z.of_nat (List.length items) <=? n) eqn:E;
        [apply Z.leb_le in E; lia|].
      constructor.
      * apply truncatedSlice_length; [exact Hpos | now rewrite length_map].
      * now apply truncatedSlice_forall.
  - rewrite truncateArrays_obj. constructor.
    + apply rebuildFrom_nodup. constructor.
    + apply (rebuildFrom_forall (fun kv => Normal n (snd kv))); [constructor|].
      eapply Forall_impl; [|exact IH]. intros [k x] Hx _. exact Hx.
Qed.

(** Array truncation leaves a normal value as it is. *)
Lemma normal_truncateArrays (n : Z) (v : value) :
  Normal n v -> truncateArrays v n = v.
Proof.
  induction v as [ | | | |items IH|fields IH] using value_ind_nested;
    intros Hn; try reflexivity; inversion Hn as [ | | | |? Hlen Hitems|? Hnd Hfields]; subst.
  - rewrite truncateArrays_short by exact Hlen. f_equal. apply map_fixed.
    rewrite Forall_forall in *. auto.
  - rewrite truncateArrays_obj. f_equal. apply rebuildFrom_fixed; [exact Hnd | |].
    + apply Forall_forall. reflexivity.
    + rewrite Forall_forall in *. auto.
Qed.

Lemma removeFields_normal (n : Z) (removed : list string) (v : value) :
  Normal n v -> Normal n (removeFields v removed).
Proof.
  induction v as [ | | | |items IH|fields IH] using value_ind_nested;
    intros Hn; try exact Hn; inversion Hn as [ | | | |? Hlen Hitems|? Hnd Hfields]; subst.
  - simpl. constructor; [now rewrite length_map|].
    apply Forall_map. rewrite Forall_forall in *. auto.
  - rewrite removeFields_obj. constructor.
    + apply rebuildFrom_nodup. constructor.
    + apply (rebuildFrom_forall (fun kv => Normal n (snd kv))); [constructor|].
      rewrite Forall_forall in *. intros kv Hkv _. simpl. auto.
Qed.

Lemma truncateTextFields_normal (n : Z) (fields : list string) (v : value) :
  Normal n v -> Normal n (truncateTextFields v fields).
Proof.
  induction v as [ | | | |items IH|props IH] using value_ind_nested;
    intros Hn; try exact Hn; inversion Hn as [ | | | |? Hlen Hitems|? Hnd Hprops]; subst.
  - simpl. constructor; [now rewrite length_map|].
    apply Forall_map. rewrite Forall_forall in *. auto.
  - rewrite truncateTextFields_obj. constructor.
    + apply rebuildFrom_nodup. constructor.
    + apply (rebuildFrom_forall (fun kv => Normal n (snd kv))); [constructor|].
      rewrite Forall_forall in *. intros kv Hkv _. simpl. unfold textValue.
      destruct (isLongText fields (fst kv) (snd kv)); [constructor | auto].
Qed.

(** Field removal gives a plain value. *)
Lemma removeFields_plain (removed : list string) (v : value) :
  Plain removed (removeFields v removed).
Proof.
  induction v as [ | | | |items IH|fields IH] using value_ind_nested; scalar_cases.
  - simpl. constructor. apply Forall_map. exact IH.
  - rewrite removeFields_obj. constructor; [apply rebuildFrom_nodup; constructor|].
    apply (rebuildFrom_forall
             (fun kv => Js.strIn (fst kv) removed = false /\ Plain removed (snd kv)));
      [constructor|].
    eapply Forall_impl; [|exact IH]. intros [k x] Hx Hkeep. simpl in *.
    split; [now apply negb_true_iff | exact Hx].
Qed.

Lemma truncateTextFields_plain (removed fields : list string) (v : value) :
  Plain removed v -> Plain removed (truncateTextFields v fields).
Proof.
  induction v as [ | | | |items IH|props IH] using value_ind_nested;
    intros Hp; try exact Hp; inversion Hp as [ | | | |? Hitems|? Hnd Hprops]; subst.
  - simpl. constructor. apply Forall_map. rewrite Forall_forall in *. auto.
  - rewrite truncateTextFields_obj. constructor.
    + apply rebuildFrom_nodup. constructor.
    + apply (rebuildFrom_forall
               (fun kv => Js.strIn (fst kv) removed = false /\ Plain removed (snd kv)));
        [constructor|].
      rewrite Forall_forall in *. intros kv Hkv _. simpl.
      destruct (Hprops kv Hkv) as [Hkey Hval]. split; [exact Hkey|].
      unfold textValue. destruct (isLongText fields (fst kv) (snd kv)); [constructor | auto].
Qed.

(** Field removal leaves a plain value as it is. *)
Lemma plain_removeFields (removed : list string) (v : value) :
  Plain removed v -> removeFields v removed = v.
Proof.
  induction v as [ | | | |items IH|fields IH] using value_ind_nested;
    intros Hp; try reflexivity; inversion Hp as [ | | | |? Hitems|? Hnd Hfields]; subst.
  - simpl. f_equal. apply map_fixed. rewrite Forall_forall in *. auto.
  - rewrite removeFields_obj. f_equal. apply rebuildFrom_fixed; [exact Hnd | |].
    + rewrite Forall_forall in *. intros kv Hkv. destruct (Hfields kv Hkv) as [-> _].
      reflexivity.
    + rewrite Forall_forall in *. intros kv Hkv. apply IH; [exact Hkv|].
      now destruct (Hfields kv Hkv).
Qed.

(** *** Compacting a compacted value *)

(** Passes 1 to 4 leave their own result as it is, once the query filter
    and the text truncation do: array truncation and field removal always
    leave it. *)
Lemma compactValue_fixed (o : CompactOptions) (v : value) (limit : Z) :
  0 < limit ->
  let c := compactValue o v limit in
  (forall ctx, optQueryContext o = Some ctx -> filterByQueryContext c ctx = c) ->
  (optTruncateUrls o = true -> truncateTextFields c TRUNCATABLE_TEXT_FIELDS = c) ->
  compactValue o c limit = c.
Proof.
  intros Hpos c Hfilter Htext.
  set (filtered := match optQueryContext o with
                   | Some ctx => filterByQueryContext v ctx
                   | None => v
                   end).
  assert (Hc : c = (let x := truncateArrays filtered limit in
                    let x := if optRemoveVerboseFields o
                             then removeFields x VERBOSE_FIELDS else x in
                    if optTruncateUrls o
                    then truncateTextFields x TRUNCATABLE_TEXT_FIELDS else x))
    by reflexivity.
  assert (Hnormal : Normal limit c).
  { rewrite Hc. cbv zeta.
    pose proof (truncateArrays_normal limit Hpos filtered) as H1.
    assert (H2 : Normal limit (if optRemoveVerboseFields o
                               then removeFields (truncateArrays filtered limit) VERBOSE_FIELDS
                               else truncateArrays filtered limit))
      by (destruct (optRemoveVerboseFields o); [now apply removeFields_normal | exact H1]).
    destruct (optTruncateUrls o); [now apply truncateTextFields_normal | exact H2]. }
  assert (Hplain : optRemoveVerboseFields o = true -> Plain VERBOSE_FIELDS c).
  { intros Hrv. rewrite Hc. cbv zeta. rewrite Hrv.
    pose proof (removeFields_plain VERBOSE_FIELDS (truncateArrays filtered limit)) as H1.
    destruct (optTruncateUrls o); [now apply truncateTextFields_plain | exact H1]. }
  unfold compactValue.
  assert (Hf : match optQueryContext o with
               | Some ctx => filterByQueryContext c ctx
               | None => c
               end = c)
    by (destruct (optQueryContext o) as [ctx|]; [now apply Hfilter | reflexivity]).
  fold c. rewrite Hf, (normal_truncateArrays limit c Hnormal).
  destruct (optRemoveVerboseFields o) eqn:Hrv.
  - rewrite (plain_removeFields VERBOSE_FIELDS c (Hplain eq_refl)).
    destruct (optTruncateUrls o); [now apply Htext | reflexivity].
  - destruct (optTruncateUrls o); [now apply Htext | reflexivity].
Qed.

Lemma compactParsed_fits (o : CompactOptions) (parsed : value) :
  TokenCounter.estimateJsonTokens (compactOnce o parsed (optMaxArrayLength o)) <= maxTokens o ->
  compactParsed o parsed = compactOnce o parsed (optMaxArrayLength o).
Proof.
  intros Hfits. unfold compactParsed.
  assert (Hover : (maxTokens o
                   <? TokenCounter.estimateJsonTokens
                        (compactOnce o parsed (optMaxArrayLength o))) = false)
    by (apply Z.ltb_ge; exact Hfits).
  assert (Hshrink : forall fuel,
             shrink fuel o parsed (optMaxArrayLength o)
                    (compactOnce o parsed (optMaxArrayLength o))
             = (optMaxArrayLength o, compactOnce o parsed (optMaxArrayLength o))).
  { intros [|fuel]; simpl; [reflexivity|]. now rewrite Hover. }
  rewrite Hshrink. unfold hardTruncate. now rewrite Hover.
Qed.

Lemma compactJson_parsed (data parsed : value) (o : CompactOptions) :
  parsedInput data = Some parsed -> compactJson data o = compactParsed o parsed.
Proof.
  unfold parsedInput, compactJson. destruct data as [ | | |text| | ];
    try (intros H; injection H as <-; reflexivity).
  intros ->. reflexivity.
Qed.

Lemma firstPassFits_parsed (data parsed : value) (o : CompactOptions) :
  parsedInput data = Some parsed ->
  firstPassFits data o ->
  TokenCounter.estimateJsonTokens (compactOnce o parsed (optMaxArrayLength o)) <= maxTokens o.
Proof.
  unfold parsedInput, firstPassFits. destruct data as [ | | |text| | ];
    try (intros H; injection H as <-; auto).
  intros ->. auto.
Qed.

End CompactorFacts.

(** ** Agent loop *)

Section AgentFacts.
Import Json Agent Trace.
Context {rt : JsRuntime} {env : AgentEnv}.
Variable this : AgentConfig.

(** A call that has run to its end: the events and the result are read
    off the computation. *)
Ltac call_ends := do 3 eexists; split; [reflexivity | constructor].

Lemma executeToolCall_outcome (toolName : string) (toolArgs : Args) (query : string)
      (w : World) :
  exists closing r w',
    executeToolCall this toolName toolArgs query w
    = ((tool_start toolName toolArgs :: closing, inr r), w')
    /\ CallOutcome toolName toolArgs closing r.
Proof.
  unfold executeToolCall, summarizeToolResult.
  unfold tryCatch, bind, yield, observe, await, ret, throw.
  destruct (toolMap_get this toolName) as [t|]; simpl.
  - destruct (invoke t toolArgs w) as [[e|raw] w1]; simpl.
    + call_ends.
    + match goal with
      | |- context [saveAndGetSummary ?a ?b ?c ?x] =>
          destruct (saveAndGetSummary a b c x) as [[e|stored] w2]; simpl
      end.
      * call_ends.
      * match goal with
        | |- context [callLlm ?a ?b ?x] => destruct (callLlm a b x) as [[e|msg] w3]; simpl
        end.
        -- call_ends.
        -- call_ends.
  - call_ends.
Qed.

Lemma callOutcome_closing toolName toolArgs closing r :
  CallOutcome toolName toolArgs closing r -> Closing toolName closing.
Proof. destruct 1; constructor. Qed.

Lemma callOutcome_progress toolName toolArgs closing r :
  CallOutcome toolName toolArgs closing r -> forallb isProgress closing = true.
Proof. destruct 1; reflexivity. Qed.

(** A [tool_error] among the events of a call puts the error into the
    call's record and the empty id into its summary. *)
Lemma callOutcome_error toolName toolArgs closing r t e :
  CallOutcome toolName toolArgs closing r ->
  In (tool_error t e) closing ->
  t = toolName
  /\ record r = mkRecord toolName toolArgs ("Error: " ++ e)
  /\ id (execSummary r) = "".
Proof.
  destruct 1; simpl; intros Hin;
    repeat match goal with
           | H : _ \/ _ |- _ => destruct H
           | H : False |- _ => destruct H
           | H : _ = tool_error _ _ |- _ => inversion H; subst; clear H
           end; repeat split.
Qed.

Lemma executeEach_outcome (query : string) (calls : list ToolCall) :
  forall acc w,
  exists evs rs w',
    executeEach this calls query acc w = ((evs, inr (collect acc rs)), w')
    /\ CallsOutcome calls evs rs.
Proof.
  induction calls as [|call calls IH]; intros acc w.
  - exists [], [], w. split; [|constructor].
    unfold collect. simpl. rewrite !app_nil_r. destruct acc; reflexivity.
  - simpl. unfold bind.
    destruct (executeToolCall_outcome (name call) (callArgs call) query w)
      as (closing & r & w1 & -> & Hcall).
    destruct (IH (mkExecs (records acc ++ [record r]) (summaries acc ++ [execSummary r])
                          (promptEntries acc ++ [promptEntry r]))%list w1)
      as (evs & rs & w2 & -> & Hcalls).
    exists ((tool_start (name call) (callArgs call) :: closing) ++ evs)%list, (r :: rs), w2.
    split; [|now constructor].
    unfold collect. simpl. rewrite <- !app_assoc. reflexivity.
Qed.

Lemma callsOutcome_blocks calls evs rs :
  CallsOutcome calls evs rs -> Blocks calls evs.
Proof.
  induction 1; [constructor|].
  constructor; [eapply callOutcome_closing; eassumption | assumption].
Qed.

Lemma callsOutcome_length calls evs rs :
  CallsOutcome calls evs rs -> List.length rs = List.length calls.
Proof. induction 1; simpl; congruence. Qed.

Lemma callsOutcome_progress calls evs rs :
  CallsOutcome calls evs rs -> forallb isProgress evs = true.
Proof.
  induction 1; [reflexivity|].
  simpl. rewrite forallb_app, IHCallsOutcome.
  erewrite callOutcome_progress by eassumption. reflexivity.
Qed.

Lemma callsOutcome_error calls evs rs t e :
  CallsOutcome calls evs rs ->
  In (tool_error t e) evs ->
  exists r, In r rs /\ tool (record r) = t /\ result (record r) = "Error: " ++ e
            /\ id (execSummary r) = "".
Proof.
  induction 1 as [|call calls closing r evs rs Hcall Hcalls IH]; simpl; [tauto|].
  intros [Hin|Hin]; [discriminate|].
  apply in_app_or in Hin. destruct Hin as [Hin|Hin].
  - destruct (callOutcome_error _ _ _ _ _ _ Hcall Hin) as (-> & Hrec & Hid).
    exists r. rewrite Hrec. simpl. auto.
  - destruct (IH Hin) as (r' & Hr' & Hrest). exists r'. auto.
Qed.

Lemma blocks_count_starts calls evs :
  Blocks calls evs -> List.length (filter isToolStart evs) = List.length calls.
Proof.
  induction 1 as [|call calls closing evs Hclosing Hblocks IH]; [reflexivity|].
  simpl. rewrite filter_app, length_app, IH.
  destruct Hclosing; reflexivity.
Qed.

(** *** The final answer *)

Lemma buildFullContextForAnswer_silent (summaries : list ToolSummary) (query : string)
      (w : World) :
  exists r w', buildFullContextForAnswer this summaries query w = (([], r), w').
Proof.
  unfold buildFullContextForAnswer.
  destruct (Nat.eqb (List.length summaries) 0); [do 2 eexists; reflexivity|].
  destruct (Nat.eqb (List.length (filepathsOf summaries)) 0); [do 2 eexists; reflexivity|].
  unfold bind, await.
  destruct (loadFullContexts (filepathsOf summaries) w) as [[e|contexts] w1].
  - do 2 eexists; reflexivity.
  - destruct (Nat.eqb (List.length contexts) 0); do 2 eexists; reflexivity.
Qed.

(** The final answer is [answer_start] and then one chunk event per
    fragment of the stream. *)
Lemma generateFinalAnswer_events (query : string) (summaries : list ToolSummary)
      (w : World) :
  exists cs r w',
    generateFinalAnswer this query summaries w
    = ((answer_start :: map answer_chunk cs, r), w').
Proof.
  unfold generateFinalAnswer, bind, yield.
  destruct (buildFullContextForAnswer_silent summaries query w) as (r & w1 & ->).
  destruct r as [e|fullContext].
  - exists [], (inl e), w1. reflexivity.
  - unfold relayStream.
    match goal with
    | |- context [streamLlmResponse ?a ?b ?x] =>
        destruct (streamLlmResponse a b x) as [[cs [e|]] w2]
    end.
    + exists cs, (inl e), w2. reflexivity.
    + exists cs, (inr tt), w2. reflexivity.
Qed.

Lemma fold_addChunk (cs : list string) (acc : string) :
  fold_left (addChunk) (map answer_chunk cs) acc = fold_left String.append cs acc.
Proof. revert acc. induction cs as [|c cs IH]; intros acc; [reflexivity | apply IH]. Qed.

Lemma fold_streamedStep (cs : list string) (acc : string) :
  fold_left streamedStep (map answer_chunk cs) acc = fold_left String.append cs acc.
Proof. revert acc. induction cs as [|c cs IH]; intros acc; [reflexivity | apply IH]. Qed.

(** What was streamed after the most recent [answer_start] is the
    concatenation of the chunks that follow it. *)
Lemma streamed_answer (before : list AgentEvent) (cs : list string) :
  streamed (before ++ answer_start :: map answer_chunk cs)%list = concatText cs.
Proof.
  unfold streamed, concatText. rewrite fold_left_app. simpl. apply fold_streamedStep.
Qed.

Lemma finish_outcome (query : string) (allToolCalls : list ToolCallRecord)
      (allSummaries : list ToolSummary) (iteration : nat)
      (fallback : option (World -> string)) (w : World) :
  exists cs w',
    finish this query allToolCalls allSummaries iteration fallback w
    = (((answer_start :: map answer_chunk cs)
          ++ [done (closingAnswer cs fallback w') allToolCalls iteration], inr tt)%list, w')
    \/ exists e,
         finish this query allToolCalls allSummaries iteration fallback w
         = ((answer_start :: map answer_chunk cs, inl e), w').
Proof.
  unfold finish, bind, relay.
  destruct (generateFinalAnswer_events query allSummaries w) as (cs & r & w1 & ->).
  exists cs, w1. destruct r as [e|[]].
  - right. exists e. reflexivity.
  - left.
    change (fold_left addChunk (answer_start :: map answer_chunk cs) "")
      with (fold_left addChunk (map answer_chunk cs) "").
    rewrite fold_addChunk. fold (concatText cs).
    destruct fallback as [message|]; reflexivity.
Qed.

(** *** The whole run *)

Lemma aborted_answer (cs : list string) : Aborted (answer_start :: map answer_chunk cs).
Proof.
  unfold Aborted. simpl. induction cs as [|c cs IH]; [reflexivity | exact IH].
Qed.

Lemma aborted_progress (evs : list AgentEvent) :
  forallb isProgress evs = true -> Aborted evs.
Proof.
  unfold Aborted. induction evs as [|ev evs IH]; [reflexivity|].
  simpl. intros H. apply andb_prop in H. destruct H as [Hev Hevs].
  rewrite (IH Hevs). destruct ev; try discriminate Hev; reflexivity.
Qed.

Lemma aborted_app (a b : list AgentEvent) : Aborted a -> Aborted b -> Aborted (a ++ b)%list.
Proof. unfold Aborted. intros Ha Hb. rewrite forallb_app, Ha, Hb. reflexivity. Qed.

Lemma finished_finish (bound iteration : nat) (cs : list string)
      (allToolCalls : list ToolCallRecord) (fallback : option (World -> string))
      (w : World) :
  (iteration <= bound)%nat ->
  (fallback = None
   \/ (fallback = Some (maxIterationsMessage this) /\ iteration = bound)) ->
  Finished this bound allToolCalls
    ((answer_start :: map answer_chunk cs)
       ++ [done (closingAnswer cs fallback w) allToolCalls iteration]).
Proof.
  intros Hle Hfb. exists [], cs, (closingAnswer cs fallback w), allToolCalls, iteration.
  split; [reflexivity|]. split; [reflexivity|]. split; [|split; [exact Hle|]].
  - destruct Hfb as [->|[-> ->]]; [left; reflexivity|].
    unfold closingAnswer. destruct (String.eqb_spec (concatText cs) "") as [E|_].
    + right. split; [reflexivity|]. split; [exact E|]. exists w. reflexivity.
    + left. reflexivity.
  - split; [auto|]. simpl. tauto.
Qed.

Lemma finished_after (bound : nat) (before before' : list ToolCallRecord)
      (progress evs : list AgentEvent) :
  forallb isProgress progress = true ->
  (forall x, In x before -> In x before') ->
  (forall t e, In (tool_error t e) progress ->
               exists args, In (mkRecord t args ("Error: " ++ e)) before') ->
  Finished this bound before' evs ->
  Finished this bound before (progress ++ evs)%list.
Proof.
  intros Hprog Hsub Herr (progress' & cs & a & tc & it & -> & Hprog' & Ha & Hit & Hin & Herr').
  exists (progress ++ progress')%list, cs, a, tc, it.
  split; [now rewrite app_assoc|].
  split; [now rewrite forallb_app, Hprog, Hprog'|].
  split; [exact Ha|]. split; [exact Hit|]. split; [auto|].
  intros t e Hte. apply in_app_or in Hte. destruct Hte as [Hte|Hte].
  - destruct (Herr t e Hte) as (args & Hargs). exists args. auto.
  - auto.
Qed.

Lemma mainLoop_outcome (query : string) (remaining : nat) :
  forall iteration allToolCalls allSummaries scratchpad currentPrompt w,
    List.length allToolCalls = List.length allSummaries ->
    exists evs r w',
      mainLoop this remaining iteration query allToolCalls allSummaries scratchpad
               currentPrompt w = ((evs, r), w')
      /\ ((r = inr tt /\ Finished this (iteration + remaining) allToolCalls evs)
          \/ ((exists e, r = inl e) /\ Aborted evs)).
Proof.
  induction remaining as [|remaining IH];
    intros iteration allToolCalls allSummaries scratchpad currentPrompt w Hlen.
  - cbn [mainLoop].
    destruct (finish_outcome query allToolCalls allSummaries iteration
                             (Some (maxIterationsMessage this)) w)
      as (cs & w1 & [->|[e ->]]).
    + do 3 eexists. split; [reflexivity|]. left. split; [reflexivity|].
      apply finished_finish; [lia|]. right. split; [reflexivity | lia].
    + do 3 eexists. split; [reflexivity|]. right. split; [eauto | apply aborted_answer].
  - cbn [mainLoop]. unfold bind at 1. unfold callModel, await.
    match goal with
    | |- context [callLlm ?a ?b ?x] => destruct (callLlm a b x) as [[e|response] w1]
    end.
    + do 3 eexists. split; [reflexivity|]. right. split; [eauto | reflexivity].
    + destruct (hasToolCalls response) eqn:Hcalls.
      * (* tool calls: execute them and go round again *)
        rewrite andb_true_r. cbn [negb].
        set (thought := if negb (extractTextContent response =? "")%string
                        then [thinking (extractTextContent response)] else []).
        unfold executeToolCalls.
        destruct (executeEach_outcome query (tool_calls response) (mkExecs [] [] []) w1)
          as (toolEvs & rs & w2 & Hexec & Hcallsout).
        destruct (IH (S iteration)
                         (allToolCalls ++ records (collect (mkExecs [] [] []) rs))%list
                         (allSummaries ++ summaries (collect (mkExecs [] [] []) rs))%list
                         (fold_left addToolEntry
                            (promptEntries (collect (mkExecs [] [] []) rs))
                            (if negb (extractTextContent response =? "")%string
                             then addThinking scratchpad (extractTextContent response)
                             else scratchpad))
                         (Prompts.buildIterationPrompt query
                            (getToolSummaries
                               (fold_left addToolEntry
                                  (promptEntries (collect (mkExecs [] [] []) rs))
                                  (if negb (extractTextContent response =? "")%string
                                   then addThinking scratchpad (extractTextContent response)
                                   else scratchpad))))
                         w2)
              as (evs & r & w3 & Hloop & Hout).
        { unfold collect. simpl. rewrite !length_app, !length_map. lia. }
        exists (thought ++ toolEvs ++ evs)%list, r, w3. split.
        { unfold bind. subst thought.
          destruct (negb (extractTextContent response =? "")%string);
            unfold yield, ret; rewrite Hexec, Hloop; reflexivity. }
        assert (Hprog : forallb isProgress (thought ++ toolEvs) = true).
        { rewrite forallb_app, (callsOutcome_progress _ _ _ Hcallsout), andb_true_r.
          subst thought. destruct (negb _); reflexivity. }
        destruct Hout as [[-> Hfin]|[Hthrown Hab]].
        -- left. split; [reflexivity|]. rewrite app_assoc.
           replace (iteration + S remaining)%nat with (S iteration + remaining)%nat by lia.
           eapply finished_after; [exact Hprog | | | exact Hfin].
           ++ intros x Hx. apply in_or_app. now left.
           ++ intros t e Hte. apply in_app_or in Hte. destruct Hte as [Hte|Hte].
              ** subst thought. destruct (negb _); simpl in Hte; [|tauto].
                 destruct Hte as [Hte|[]]. discriminate Hte.
              ** destruct (callsOutcome_error _ _ _ _ _ Hcallsout Hte)
                   as (x & Hx & Htool & Hres & _).
                 exists (args (record x)). apply in_or_app. right.
                 unfold collect. simpl. apply in_map_iff. exists x. split; [|exact Hx].
                 destruct (record x) as [t' a' r']. simpl in *. now subst.
        -- right. split; [exact Hthrown|]. rewrite app_assoc.
           apply aborted_app; [now apply aborted_progress | exact Hab].
      * (* no tool calls: the answer *)
        rewrite andb_false_r. cbn [negb]. unfold bind at 1. unfold ret at 1.
        destruct ((List.length allSummaries =? 0)%nat
                  && negb (extractTextContent response =? "")%string)%bool eqn:Hdirect.
        -- (* the direct response *)
           apply andb_prop in Hdirect. destruct Hdirect as [Hnone _].
           apply Nat.eqb_eq in Hnone.
           assert (HnoCalls : allToolCalls = [])
             by (apply length_zero_iff_nil; congruence).
           do 3 eexists. split; [reflexivity|]. left. split; [reflexivity|].
           exists [], [extractTextContent response], (extractTextContent response), [],
             (S iteration).
           split; [reflexivity|]. split; [reflexivity|].
           split; [left; reflexivity|]. split; [lia|].
           split; [subst allToolCalls; auto | simpl; tauto].
        -- destruct (finish_outcome query allToolCalls allSummaries (S iteration) None w1)
             as (cs & w2 & [->|[e ->]]).
           ++ do 3 eexists. split; [reflexivity|]. left. split; [reflexivity|].
              apply finished_finish; [lia | now left].
           ++ do 3 eexists. split; [reflexivity|]. right.
              split; [eauto | apply aborted_answer].
Qed.

Lemma aborted_no_done (pre : list AgentEvent) (ev : AgentEvent) :
  isDone ev = true -> Aborted (pre ++ [ev])%list -> False.
Proof.
  unfold Aborted. intros Hev Hab. rewrite forallb_app in Hab.
  apply andb_prop in Hab. destruct Hab as [_ Hab]. simpl in Hab. rewrite Hev in Hab.
  discriminate Hab.
Qed.

(** A run whose last event is [done] went through the loop to its end,
    unless no tool is configured. *)
Lemma run_done_finished (query : string) (h : option ChatHistory) (w : World)
      pre a tc it r w' :
  run this query h w = (((pre ++ [done a tc it])%list, r), w') ->
  (tools this = [] /\ pre = []
   /\ a = "No tools available. Please check your API key configuration."
   /\ tc = [] /\ it = O)
  \/ Finished this (maxIterations this) [] ((pre ++ [done a tc it])%list).
Proof.
  unfold run. destruct (Nat.eqb (List.length (tools this)) 0) eqn:Htools.
  - unfold yield. intros Hrun. left.
    apply Nat.eqb_eq, length_zero_iff_nil in Htools.
    injection Hrun as Hevs _ _.
    change [done "No tools available. Please check your API key configuration." [] 0]
      with ([] ++ [done "No tools available. Please check your API key configuration." [] 0])%list
      in Hevs.
    apply app_inj_tail in Hevs. destruct Hevs as [<- Hdone].
    injection Hdone as <- <- <-. auto.
  - intros Hrun. right.
    destruct (mainLoop_outcome query (maxIterations this) 0 [] [] (newScratchpad query)
                (buildInitialPrompt query h) w eq_refl)
      as (evs & r0 & w0 & Hloop & Hout).
    rewrite Hloop in Hrun. injection Hrun as -> -> ->.
    destruct Hout as [[_ Hfin]|[_ Hab]]; [exact Hfin|].
    exfalso. eapply aborted_no_done; [|exact Hab]. reflexivity.
Qed.

Lemma finished_last_done bound before pre a tc it :
  Finished this bound before ((pre ++ [done a tc it])%list) ->
  exists progress cs,
    pre = (progress ++ answer_start :: map answer_chunk cs)%list
    /\ forallb isProgress progress = true
    /\ (a = concatText cs
        \/ (it = bound /\ concatText cs = ""
            /\ exists w, a = maxIterationsMessage this w))
    /\ (it <= bound)%nat
    /\ (forall t e, In (tool_error t e) progress ->
                    exists args, In (mkRecord t args ("Error: " ++ e)) tc).
Proof.
  intros (progress & cs & a' & tc' & it' & Hevs & Hprog & Ha & Hit & _ & Herr).
  rewrite app_assoc in Hevs. apply app_inj_tail in Hevs. destruct Hevs as [-> Hdone].
  injection Hdone as -> -> ->. exists progress, cs. auto.
Qed.

(** C8.  With no tool configured a run yields one event, the terminal
    [done] with the fixed message, no tool calls and 0 iterations, and
    returns without calling anything. *)
Theorem run_without_tools (model modelProvider systemPrompt query : string)
        (maxIterations : nat) (h : option ChatHistory) (w : World) :
  run (mkAgent model modelProvider maxIterations [] systemPrompt) query h w
  = (([done "No tools available. Please check your API key configuration." [] 0], inr tt), w).
Proof. reflexivity. Qed.

(** C1, as the code has it.  When a run ends with [done], its answer is
    the concatenation of the chunks yielded after the most recent
    [answer_start], but for two cases: with no tool configured no answer
    event is yielded and the answer is the fixed message; and when the loop
    ended at [maxIterations] and nothing was streamed, the answer is the
    message that the maximum was reached. *)
Theorem done_answer_streamed (query : string) (h : option ChatHistory) (w : World)
        pre a tc it r w' :
  run this query h w = (((pre ++ [done a tc it])%list, r), w') ->
  a = streamed pre
  \/ (tools this = [] /\ pre = []
      /\ a = "No tools available. Please check your API key configuration.")
  \/ (it = maxIterations this /\ streamed pre = ""
      /\ exists w0, a = maxIterationsMessage this w0).
Proof.
  intros Hrun. destruct (run_done_finished _ _ _ _ _ _ _ _ _ Hrun)
    as [(Htools & Hpre & Ha & _)|Hfin].
  - right. left. auto.
  - destruct (finished_last_done _ _ _ _ _ _ Hfin) as (progress & cs & -> & _ & Ha & _).
    rewrite streamed_answer.
    destruct Ha as [->|(-> & Hempty & Hmsg)]; [left; reflexivity|].
    right. right. auto.
Qed.

Lemma filepathsOf_app (a b : list ToolSummary) :
  filepathsOf (a ++ b)%list = (filepathsOf a ++ filepathsOf b)%list.
Proof. unfold filepathsOf. now rewrite map_app, filter_app. Qed.

(** The calls of one iteration: as many [tool_start] events as the model
    asked for calls, each followed by the closing events of its own call
    before the next [tool_start]. *)
Lemma executeToolCalls_blocks (response : AIMessage) (query : string) (w : World) :
  exists evs res w',
    executeToolCalls this response query w = ((evs, inr res), w')
    /\ Blocks (tool_calls response) evs
    /\ List.length (filter isToolStart evs) = List.length (tool_calls response)
    /\ List.length (records res) = List.length (tool_calls response).
Proof.
  unfold executeToolCalls.
  destruct (executeEach_outcome query (tool_calls response) (mkExecs [] [] []) w)
    as (evs & rs & w' & Heq & Hout).
  exists evs, (collect (mkExecs [] [] []) rs), w'. split; [exact Heq|].
  pose proof (callsOutcome_blocks _ _ _ Hout) as Hblocks.
  split; [exact Hblocks|]. split; [now apply blocks_count_starts|].
  unfold collect. simpl. rewrite length_map. eapply callsOutcome_length; eassumption.
Qed.
End AgentFacts.

(** ** Token estimator, for every content type *)

Section TokenCounterFacts.
Import TokenCounter.

Lemma estimateTokens_eq (s : string) (t : ContentType) :
  estimateTokens s t = (2 * Js.len s + CHARS_PER_TOKEN_x2 t - 1) / CHARS_PER_TOKEN_x2 t.
Proof.
  unfold estimateTokens, ceilDiv. destruct (String.eqb_spec s "") as [->|Hne]; [|reflexivity].
  destruct t; reflexivity.
Qed.

(** X1.  Joining two texts never lowers the estimate below that of either
    part and never raises it above the sum of the two estimates. *)
Theorem estimateTokens_append (a b : string) (t : ContentType) :
  Z.max (estimateTokens a t) (estimateTokens b t) <= estimateTokens (a ++ b) t
  /\ estimateTokens (a ++ b) t <= estimateTokens a t + estimateTokens b t.
Proof.
  rewrite !estimateTokens_eq, len_append.
  pose proof (len_nonneg a). pose proof (len_nonneg b).
  destruct t; cbn [CHARS_PER_TOKEN_x2]; split;
    try apply Z.max_lub; Z.div_mod_to_equations; lia.
Qed.

(** X2.  A text exceeds a budget exactly when it has more characters
    than the budget times the characters per token (4 for text, 3.5 for
    JSON and code); the empty text exceeds only a negative budget. *)
Theorem exceedsTokenBudget_iff (s : string) (budget : Z) (t : ContentType) :
  exceedsTokenBudget s budget t = true
  <-> CHARS_PER_TOKEN_x2 t * budget < 2 * Js.len s.
Proof.
  unfold exceedsTokenBudget. rewrite Z.ltb_lt, estimateTokens_eq.
  destruct t; cbn [CHARS_PER_TOKEN_x2]; split; intros H;
    Z.div_mod_to_equations; lia.
Qed.

Lemma prefixb_app (p q s : list ascii) :
  Js.prefixb (p ++ q)%list s = true -> Js.prefixb p s = true.
Proof.
  revert s. induction p as [|a p IH]; intros s; [reflexivity|].
  destruct s as [|b s]; simpl; [discriminate|].
  intros H. apply andb_prop in H. destruct H as [-> H]. simpl. now apply IH.
Qed.

Lemma infixb_app (p q s : list ascii) :
  Js.infixb (p ++ q)%list s = true -> Js.infixb p s = true.
Proof.
  induction s as [|b s IH]; simpl; intros H; apply orb_prop in H.
  - destruct H as [H|H]; [|discriminate]. now rewrite (prefixb_app _ _ _ H).
  - destruct H as [H|H]; [now rewrite (prefixb_app _ _ _ H)|].
    rewrite (IH H). apply orb_true_r.
Qed.

(** X3.  The budget of a model depends only on whether its name, in
    lower case, contains [gpt-3.5]; and for every model a single tool result
    fits the budget of all tool results, which together with the chat
    history fits the model's input. *)
Theorem getTokenBudget_by_family (model : string) :
  let b := getTokenBudget model in
  b = (if Js.includes (Js.toLowerCase model) "gpt-3.5"
       then TOKEN_BUDGETS_small else TOKEN_BUDGETS_large)
  /\ 0 < perToolResult b <= toolResults b
  /\ toolResults b + chatHistory b <= maxInput b.
Proof.
  cbv zeta. split.
  - unfold getTokenBudget. cbn [existsb]. rewrite orb_false_r.
    destruct (Js.includes (Js.toLowerCase model) "gpt-3.5") eqn:H35.
    + now rewrite orb_true_r.
    + rewrite orb_false_r.
      destruct (Js.includes (Js.toLowerCase model) "gpt-3.5-turbo") eqn:Hturbo;
        [|reflexivity].
      unfold Js.includes in *.
      change (Js.chars "gpt-3.5-turbo")
        with (Js.chars "gpt-3.5" ++ Js.chars "-turbo")%list in Hturbo.
      apply infixb_app in Hturbo. congruence.
  - unfold getTokenBudget.
    destruct (existsb _ _); cbn; lia.
Qed.

End TokenCounterFacts.

(** ** Query analyzer, for every query *)

Section QueryFacts.
Import QueryAnalyzer.
Context {rt : JsRuntime}.

Lemma strIn_In (x : string) (l : list string) : Js.strIn x l = true <-> In x l.
Proof.
  unfold Js.strIn. rewrite existsb_exists. split.
  - intros (y & Hy & E). apply String.eqb_eq in E. now subst.
  - intros H. exists x. split; [exact H | apply String.eqb_refl].
Qed.

Lemma dedupAcc_spec (l : list string) :
  forall seen,
    NoDup (Js.dedupAcc seen l)
    /\ forall x, In x (Js.dedupAcc seen l) <-> In x l /\ ~ In x seen.
Proof.
  induction l as [|a l IH]; intros seen; simpl.
  - split; [constructor | tauto].
  - destruct (Js.strIn a seen) eqn:Ha.
    + apply strIn_In in Ha. destruct (IH seen) as [Hnd Hin]. split; [exact Hnd|].
      intros x. rewrite Hin. split; [tauto|].
      intros [[->|Hx] Hs]; tauto.
    + assert (Hna : ~ In a seen) by (rewrite <- strIn_In; congruence).
      destruct (IH (a :: seen)) as [Hnd Hin]. split.
      * constructor; [|exact Hnd]. rewrite Hin. simpl. tauto.
      * intros x. simpl. rewrite Hin. simpl.
        destruct (string_dec a x) as [->|Hax]; tauto.
Qed.

Lemma dedup_spec (l : list string) :
  NoDup (Js.dedup l) /\ forall x, In x (Js.dedup l) <-> In x l.
Proof.
  unfold Js.dedup. destruct (dedupAcc_spec l []) as [Hnd Hin]. split; [exact Hnd|].
  intros x. rewrite Hin. simpl. tauto.
Qed.

Lemma pushNew_In (q : string) (ms : list Regex.found) :
  forall (tickers : list string) (t : string),
    In t (fold_left (fun tickers mt =>
                       let t := Regex.groupOf q 1 mt in
                       if negb (Js.strIn t tickers) then (tickers ++ [t])%list else tickers)
                    ms tickers)
    <-> In t tickers \/ In t (map (Regex.groupOf q 1) ms).
Proof.
  induction ms as [|mt ms IH]; intros tickers t; simpl; [tauto|].
  rewrite IH. cbv zeta.
  destruct (Js.strIn (Regex.groupOf q 1 mt) tickers) eqn:Hin; simpl.
  - apply strIn_In in Hin. split; [tauto|]. intros [H|[<-|H]]; tauto.
  - rewrite in_app_iff. simpl. tauto.
Qed.

(** X4.  The tickers, the time periods and the calculation keywords of
    an analysis hold no value twice; a ticker is there exactly when the
    query has it as a word that is in the table of common tickers and not in
    the table of exclusions, or has it after a dollar sign. *)
Theorem analyzeQuery_lists (query : string) :
  let c := analyzeQuery query in
  NoDup (tickers c) /\ NoDup (timePeriods c) /\ NoDup (calculationKeywords c)
  /\ (forall t,
         In t (tickers c)
         <-> (In t (map (Regex.groupOf query 1) (Regex.matches false TICKER_PATTERN query))
              /\ In t COMMON_TICKERS /\ ~ In t TICKER_EXCLUSIONS)
             \/ In t (map (Regex.groupOf query 1) (Regex.matches false dollarPattern query))).
Proof.
  cbv zeta. unfold analyzeQuery. cbn [tickers timePeriods calculationKeywords].
  split; [apply dedup_spec|]. split; [apply dedup_spec|]. split.
  - apply NoDup_filter.
    unfold CALCULATION_KEYWORDS.
    repeat (constructor; [simpl; intuition discriminate|]). constructor.
  - intros t. unfold extractTickers.
    rewrite (proj2 (dedup_spec _)), pushNew_In, filter_In, andb_true_iff, negb_true_iff.
    rewrite strIn_In. rewrite <- (strIn_In t TICKER_EXCLUSIONS).
    destruct (Js.strIn t TICKER_EXCLUSIONS); intuition congruence.
Qed.

Lemma existsb_impl {A} (p q : A -> bool) (l : list A) :
  (forall a, p a = true -> q a = true) -> existsb p l = true -> existsb q l = true.
Proof.
  intros Hpq. rewrite !existsb_exists. intros (a & Ha & Hp). exists a. auto.
Qed.

(** X5.  A date that is relevant at some tolerance is relevant at every
    larger one; a date the runtime cannot parse is relevant at every
    tolerance. *)
Theorem isDateRelevant_tolerance (dateStr : string) (context : QueryContext)
        (tolerance tolerance' : Z) :
  tolerance <= tolerance' ->
  (isDateRelevant dateStr context tolerance = true ->
   isDateRelevant dateStr context tolerance' = true)
  /\ (Date_parse dateStr = None -> isDateRelevant dateStr context tolerance = true).
Proof.
  intros Hle. unfold isDateRelevant.
  destruct (Date_parse dateStr) as [date|]; [|auto].
  split; [|discriminate].
  destruct ((List.length (years context) =? 0)%nat
            && (List.length (dateRanges context) =? 0)%nat)%bool; [auto|].
  intros H. apply orb_prop in H. apply orb_true_iff. destruct H as [H|H]; [left|right].
  - revert H. apply existsb_impl. intros y. rewrite !Z.leb_le. lia.
  - revert H. apply existsb_impl. intros [[s|] [e|]]; cbn [start end_]; try discriminate.
    rewrite !andb_true_iff, !Z.leb_le. lia.
Qed.

Lemma earliest_start (ranges : list DateRange) :
  Forall (fun r => start r <> None) ranges ->
  forall m0 : Z,
  exists m,
    fold_left (fun min range => if dateLt (start range) min then start range else min)
              ranges (Some m0) = Some m
    /\ m <= m0
    /\ (forall r s, In r ranges -> start r = Some s -> m <= s)
    /\ (m = m0 \/ exists r, In r ranges /\ start r = Some m).
Proof.
  induction 1 as [|r ranges Hr Hall IH]; intros m0; simpl.
  - exists m0. repeat split; [lia | tauto | auto].
  - destruct (start r) as [s|] eqn:Hs; [|congruence]. simpl.
    destruct (Z.ltb_spec s m0) as [Hlt|Hge].
    + destruct (IH s) as (m & -> & Hle & Hmin & Hwhich). exists m.
      split; [reflexivity|]. split; [lia|]. split.
      * intros r' s' [<-|Hin] Hs'; [rewrite Hs in Hs'; injection Hs' as <-; exact Hle|].
        eapply Hmin; eassumption.
      * right. destruct Hwhich as [->|(r' & Hin & Hr')]; [exists r; auto|].
        exists r'. auto.
    + destruct (IH m0) as (m & -> & Hle & Hmin & Hwhich). exists m.
      split; [reflexivity|]. split; [lia|]. split.
      * intros r' s' [<-|Hin] Hs'; [rewrite Hs in Hs'; injection Hs' as <-; lia|].
        eapply Hmin; eassumption.
      * destruct Hwhich as [->|(r' & Hin & Hr')]; [now left|].
        right. exists r'. auto.
Qed.

Lemma least_year (ys : list Z) :
  forall y,
    let m := fold_left Z.min ys y in
    In m (y :: ys) /\ forall y', In y' (y :: ys) -> m <= y'.
Proof.
  induction ys as [|a ys IH]; intros y; simpl.
  - split; [auto|]. intros y' [<-|[]]. lia.
  - destruct (IH (Z.min y a)) as [Hin Hmin]. simpl in Hin, Hmin. split.
    + destruct Hin as [Hin|Hin]; [|auto].
      rewrite <- Hin. destruct (Z.min_spec y a) as [[_ ->]|[_ ->]]; auto.
    + intros y' [<-|[<-|Hy']].
      * etransitivity; [apply Hmin; left; reflexivity|]. lia.
      * etransitivity; [apply Hmin; left; reflexivity|]. lia.
      * apply Hmin. auto.
Qed.

(** X6.  When every range of the context has a start, the minimal
    relevant date is the earliest of three: the current instant with its
    calendar year set two back, the starts of the ranges, and the first of
    January of the least year the context mentions. *)
Theorem getMinRelevantDate_earliest (context : QueryContext) (twoYearsBack : Z) :
  Date_setFullYear Date_now (Date_getFullYear Date_now - 2) = Some twoYearsBack ->
  Forall (fun r => start r <> None) (dateRanges context) ->
  exists m,
    getMinRelevantDate context = Some m
    /\ m <= twoYearsBack
    /\ (forall r s, In r (dateRanges context) -> start r = Some s -> m <= s)
    /\ (years context <> [] ->
        exists y, In y (years context)
                  /\ (forall y', In y' (years context) -> y <= y')
                  /\ m <= Date_local y 0 1)
    /\ (m = twoYearsBack
        \/ (exists r, In r (dateRanges context) /\ start r = Some m)
        \/ (exists y, In y (years context) /\ m = Date_local y 0 1)).
Proof.
  intros Hdefault Hstarts. unfold getMinRelevantDate. rewrite Hdefault.
  (* the ranges *)
  assert (Hranges :
            exists m1,
              match dateRanges context with
              | [] => Some twoYearsBack
              | first :: _ =>
                  if dateLt
                       (fold_left (fun min range =>
                                     if dateLt (start range) min then start range else min)
                                  (dateRanges context) (start first))
                       (Some twoYearsBack)
                  then fold_left (fun min range =>
                                    if dateLt (start range) min then start range else min)
                                 (dateRanges context) (start first)
                  else Some twoYearsBack
              end = Some m1
              /\ m1 <= twoYearsBack
              /\ (forall r s, In r (dateRanges context) -> start r = Some s -> m1 <= s)
              /\ (m1 = twoYearsBack
                  \/ exists r, In r (dateRanges context) /\ start r = Some m1)).
  { destruct (dateRanges context) as [|first rest] eqn:Hdr.
    - exists twoYearsBack. repeat split; [lia | intros r s [] | auto].
    - pose proof Hstarts as Hfirst. apply Forall_inv in Hfirst.
      destruct (start first) as [s0|] eqn:Hs0; [|congruence].
      destruct (earliest_start (first :: rest) Hstarts s0)
        as (m & -> & Hle & Hmin & Hwhich).
      assert (Hwhich' : exists r, In r (first :: rest) /\ start r = Some m).
      { destruct Hwhich as [->|Hex]; [|exact Hex]. exists first. simpl. auto. }
      cbn [dateLt]. destruct (Z.ltb_spec m twoYearsBack) as [Hlt|Hge].
      + exists m. split; [reflexivity|]. split; [lia|]. split; [exact Hmin|]. now right.
      + exists twoYearsBack. split; [reflexivity|]. split; [lia|]. split; [|now left].
        intros r s Hin Hs. specialize (Hmin r s Hin Hs). lia. }
  destruct Hranges as (m1 & -> & Hle1 & Hmin1 & Hwhich1).
  (* the years *)
  destruct (years context) as [|y ys] eqn:Hyears.
  - exists m1. split; [reflexivity|]. split; [exact Hle1|]. split; [exact Hmin1|].
    split; [congruence|]. destruct Hwhich1; auto.
  - destruct (least_year ys y) as [Hin Hleast]. cbv zeta in Hin, Hleast.
    cbn [dateLt].
    destruct (Z.ltb_spec (Date_local (fold_left Z.min ys y) 0 1) m1) as [Hlt|Hge].
    + exists (Date_local (fold_left Z.min ys y) 0 1).
      split; [reflexivity|]. split; [lia|]. split.
      { intros r s Hr Hs. specialize (Hmin1 r s Hr Hs). lia. }
      split.
      { intros _. exists (fold_left Z.min ys y). split; [exact Hin|].
        split; [exact Hleast | lia]. }
      right. right. exists (fold_left Z.min ys y). auto.
    + exists m1. split; [reflexivity|]. split; [exact Hle1|]. split; [exact Hmin1|].
      split.
      { intros _. exists (fold_left Z.min ys y). split; [exact Hin|].
        split; [exact Hleast | lia]. }
      destruct Hwhich1; auto.
Qed.

End QueryFacts.

(** ** The matcher finds matches *)

Section RegexFacts.
Import Regex RegexSpec.
Variable ignoreCase : bool.
Variable s : list ascii.

Lemma m_rep (lo : nat) (hi : option nat) (r : re) k i c :
  m ignoreCase s (Rep lo hi r) k i c
  = repeatFrom (m ignoreCase s r) lo hi k (lo + S (List.length s))%nat O i c.
Proof. reflexivity. Qed.

Lemma repeatFrom_sound (r : re) (lo : nat) (hi : option nat) k res :
  (forall k i c res,
      m ignoreCase s r k i c = Some res ->
      exists j c',
        Matches ignoreCase s r i j /\ (plain r = true -> c' = c) /\ k j c' = Some res) ->
  forall fuel cnt i c,
    repeatFrom (m ignoreCase s r) lo hi k fuel cnt i c = Some res ->
    exists n j c',
      Iter ignoreCase s r n i j
      /\ (lo <= cnt + n)%nat
      /\ (n = O \/ forall h, hi = Some h -> (cnt + n <= h)%nat)
      /\ (plain r = true -> c' = c)
      /\ k j c' = Some res.
Proof.
  intros Hbody.
  assert (Hstop : forall cnt i c,
             (if Nat.leb lo cnt then k i c else None) = Some res ->
             exists n j c',
               Iter ignoreCase s r n i j
               /\ (lo <= cnt + n)%nat
               /\ (n = O \/ forall h, hi = Some h -> (cnt + n <= h)%nat)
               /\ (plain r = true -> c' = c)
               /\ k j c' = Some res).
  { intros cnt i c. destruct (Nat.leb_spec lo cnt) as [Hle|_]; [|discriminate].
    intros H. exists O, i, c. split; [constructor|]. split; [lia|]. auto. }
  induction fuel as [|fuel IH]; intros cnt i c; cbn [repeatFrom]; [apply Hstop|].
  destruct (below hi cnt) eqn:Hbelow; [|apply Hstop].
  destruct (m ignoreCase s r _ i c) as [x|] eqn:Hm; [|apply Hstop].
  intros Hx. injection Hx as ->.
  apply Hbody in Hm. destruct Hm as (j & c1 & Hmatch & Hc1 & Hrest).
  destruct (Nat.eqb j i && Nat.leb lo cnt)%bool; [discriminate|].
  apply IH in Hrest. destruct Hrest as (n & j' & c' & Hiter & Hlo & Hhi & Hc' & Hk).
  exists (S n), j', c'. split; [econstructor; eassumption|]. split; [lia|].
  split; [|split; [|exact Hk]].
  - right. intros h Hh.
    destruct Hhi as [->|Hhi]; [|specialize (Hhi h Hh); lia].
    unfold below in Hbelow. rewrite Hh in Hbelow. apply Nat.ltb_lt in Hbelow. lia.
  - intros Hplain. rewrite (Hc' Hplain). auto.
Qed.

(** What the matcher finds is a match: when [m] succeeds from [i], the
    pattern matches from [i] up to a position where the continuation was
    called and gave the result; and a pattern without groups hands the
    captures on as they were. *)
Lemma m_sound (r : re) :
  forall k i c res,
    m ignoreCase s r k i c = Some res ->
    exists j c',
      Matches ignoreCase s r i j /\ (plain r = true -> c' = c) /\ k j c' = Some res.
Proof.
  induction r as [|p|r1 IH1 r2 IH2|r1 IH1 r2 IH2|lo hi r IH| | |n r IH];
    intros k i c res.
  - cbn [m]. intros H. exists i, c. split; [constructor | auto].
  - cbn [m]. destruct (nth_error s i) as [a|] eqn:Hnth; [|discriminate].
    destruct (test ignoreCase p a) eqn:Htest; [|discriminate].
    intros H. exists (S i), c. split; [econstructor; eassumption | auto].
  - cbn [m plain]. intros H. apply IH1 in H. destruct H as (j & c1 & M1 & Hc1 & H).
    apply IH2 in H. destruct H as (j2 & c2 & M2 & Hc2 & H).
    exists j2, c2. split; [econstructor; eassumption|]. split; [|exact H].
    intros Hp. apply andb_prop in Hp. destruct Hp as [Hp1 Hp2].
    rewrite (Hc2 Hp2). auto.
  - cbn [m plain]. destruct (m ignoreCase s r1 k i c) as [x|] eqn:E1.
    + intros H. injection H as ->. apply IH1 in E1.
      destruct E1 as (j & c' & M1 & Hc' & H).
      exists j, c'. split; [now apply matches_alt_l|]. split; [|exact H].
      intros Hp. apply andb_prop in Hp. destruct Hp as [Hp1 _]. auto.
    + intros H. apply IH2 in H. destruct H as (j & c' & M2 & Hc' & H).
      exists j, c'. split; [now apply matches_alt_r|]. split; [|exact H].
      intros Hp. apply andb_prop in Hp. destruct Hp as [_ Hp2]. auto.
  - rewrite m_rep. intros H.
    apply (repeatFrom_sound r lo hi k res IH) in H.
    destruct H as (n & j & c' & Hiter & Hlo & Hhi & Hc' & Hk).
    exists j, c'. split; [|split; [exact Hc' | exact Hk]].
    apply matches_rep with (n := n); [exact Hiter | lia |].
    intros h Hh. destruct Hhi as [->|Hhi]; [lia | apply (Hhi h Hh)].
  - cbn [m]. destruct (atWordB s i) eqn:Hb; [|discriminate].
    intros H. exists i, c. split; [now constructor | auto].
  - cbn [m]. destruct i; [|discriminate].
    intros H. exists O, c. split; [constructor | auto].
  - cbn [m plain]. intros H. apply IH in H. destruct H as (j & c' & M & _ & H).
    exists j, ((n, (i, j)) :: c'). split; [now constructor|]. split; [discriminate | exact H].
Qed.

(** A pattern without groups, as a step of a sequence. *)
Lemma m_plain (r : re) k i c res :
  plain r = true ->
  m ignoreCase s r k i c = Some res ->
  exists j, Matches ignoreCase s r i j /\ k j c = Some res.
Proof.
  intros Hp H. apply m_sound in H. destruct H as (j & c' & M & Hc' & H).
  rewrite (Hc' Hp) in H. exists j. auto.
Qed.

Lemma searchFrom_found (r : re) (fuel : nat) :
  forall i x,
    searchFrom ignoreCase s r fuel i = Some x ->
    m ignoreCase s r (fun j c => Some (j, c)) (mStart x) [] = Some (mEnd x, mCaps x).
Proof.
  induction fuel as [|fuel IH]; intros i x; cbn [searchFrom];
    destruct (m ignoreCase s r (fun j c => Some (j, c)) i []) as [[j c]|] eqn:Hm;
    try discriminate; try (intros H; injection H as <-; exact Hm).
  apply IH.
Qed.

Lemma execLoop_found (r : re) (fuel : nat) :
  forall i x,
    In x (execLoop ignoreCase s r fuel i) ->
    m ignoreCase s r (fun j c => Some (j, c)) (mStart x) [] = Some (mEnd x, mCaps x).
Proof.
  induction fuel as [|fuel IH]; intros i x; cbn [execLoop]; [intros []|].
  destruct (exec ignoreCase s r i) as [y|] eqn:Hexec; [|intros []].
  intros [<-|Hin]; [|eapply IH; eassumption].
  unfold exec in Hexec. destruct (Nat.ltb (List.length s) i); [discriminate|].
  eapply searchFrom_found; eassumption.
Qed.


(** The group that a pattern of the form [prefix (X) \b] captures last is
    a match of [X]. *)
Lemma framed_group (prefix X : re) (n : nat) i c e captured :
  m ignoreCase s prefix
    (m ignoreCase s (Grp n X) (m ignoreCase s WordB (fun j c => Some (j, c)))) i c
  = Some (e, captured) ->
  exists a b, Matches ignoreCase s X a b /\ lookup n captured = Some (a, b).
Proof.
  intros H. apply m_sound in H. destruct H as (a & c1 & _ & _ & H).
  cbn [m] in H. apply m_sound in H. destruct H as (b & c2 & HX & _ & H).
  destruct (atWordB s b); [|discriminate]. injection H as _ <-.
  exists a, b. split; [exact HX|]. cbn [lookup]. now rewrite Nat.eqb_refl.
Qed.

Lemma skipn_nth (a : nat) (ch : ascii) :
  nth_error s a = Some ch -> skipn a s = ch :: skipn (S a) s.
Proof.
  revert a. induction s as [|x l IH]; intros [|a]; simpl; try discriminate.
  - intros H. now injection H as ->.
  - intros H. rewrite (IH a H). destruct l; [destruct a; discriminate|]. reflexivity.
Qed.

(** [n] matches in a row of a character class are [n] characters of the
    class. *)
Lemma iter_cls (p : ascii -> bool) (n : nat) :
  forall a b,
    Iter ignoreCase s (Cls p) n a b ->
    b = (a + n)%nat
    /\ List.length (firstn n (skipn a s)) = n
    /\ Forall (fun ch => test ignoreCase p ch = true) (firstn n (skipn a s)).
Proof.
  induction n as [|n IH]; intros a b Hiter; inversion Hiter; subst.
  - split; [lia|]. split; [reflexivity | constructor].
  - match goal with H : Matches _ _ (Cls p) _ _ |- _ => inversion H; subst end.
    match goal with
    | H : Iter _ _ _ _ _ _ |- _ => apply IH in H; destruct H as (-> & Hlen & Hall)
    end.
    match goal with H : nth_error _ _ = Some _ |- _ => rewrite (skipn_nth _ _ H) end.
    cbn [firstn List.length]. split; [lia|]. split; [now rewrite Hlen|].
    constructor; assumption.
Qed.

End RegexFacts.

(** ** The patterns of the query analyzer *)

Section PatternFacts.
Import Regex RegexSpec QueryAnalyzer.
Context {rt : JsRuntime}.

Lemma isDigit_code (c : ascii) :
  Js.isDigit c = true -> (48 <= Js.code c <= 57)%nat.
Proof.
  unfold Js.isDigit, Js.inRange. rewrite andb_true_iff, !Nat.leb_le. tauto.
Qed.

Lemma isDigit_plain (c : ascii) :
  Js.isDigit c = true ->
  Js.isSpace c = false /\ Ascii.eqb c "-" = false /\ Ascii.eqb c "+" = false.
Proof.
  intros H. apply isDigit_code in H. unfold Js.isSpace, Js.inRange.
  repeat split.
  - destruct (Nat.leb_spec 9 (Js.code c)), (Nat.leb_spec (Js.code c) 13),
      (Nat.eqb_spec (Js.code c) 32), (Nat.eqb_spec (Js.code c) 160); simpl; try reflexivity; lia.
  - destruct (Ascii.eqb_spec c "-") as [->|]; [|reflexivity]. cbv in H. lia.
  - destruct (Ascii.eqb_spec c "+") as [->|]; [|reflexivity]. cbv in H. lia.
Qed.

Lemma test_digit (ic : bool) (c : ascii) :
  test ic Js.isDigit c = true -> Js.isDigit c = true.
Proof.
  destruct ic; [|exact (fun H => H)].
  destruct c as [[] [] [] [] [] [] [] []]; vm_compute; intros H;
    first [reflexivity | discriminate H].
Qed.

Lemma takeWhile_all {A} (p : A -> bool) (l : list A) :
  Forall (fun a => p a = true) l -> Js.takeWhile p l = l.
Proof. induction 1 as [|a l Ha Hl IH]; simpl; [reflexivity|]. now rewrite Ha, IH. Qed.

(** [parseInt] of a non-empty run of digits is the number they write. *)
Lemma parseDigits_digits (c : ascii) (l : list ascii) :
  Forall (fun a => Js.isDigit a = true) (c :: l) ->
  parseDigits (Js.str (c :: l)) = Js.digitsValue 0 (c :: l).
Proof.
  intros Hall. pose proof (Forall_inv Hall) as Hc.
  destruct (isDigit_plain c Hc) as (Hspace & Hminus & Hplus).
  unfold parseDigits, Js.parseInt, Js.chars, Js.str.
  rewrite list_ascii_of_string_of_list_ascii. cbn [Js.dropWhile].
  rewrite Hspace, Hminus, Hplus, (takeWhile_all _ _ Hall). reflexivity.
Qed.

Lemma digitsValue_bound (l : list ascii) :
  Forall (fun a => Js.isDigit a = true) l ->
  forall acc,
    0 <= acc ->
    acc * 10 ^ Z.of_nat (List.length l) <= Js.digitsValue acc l
    < (acc + 1) * 10 ^ Z.of_nat (List.length l).
Proof.
  induction 1 as [|c l Hc Hl IH]; intros acc Hacc; cbn [Js.digitsValue List.length].
  - change (10 ^ Z.of_nat 0) with 1. lia.
  - apply isDigit_code in Hc.
    rewrite Nat2Z.inj_succ, Z.pow_succ_r by lia.
    specialize (IH (10 * acc + Z.of_nat (Js.code c - 48)) ltac:(lia)).
    assert (0 < 10 ^ Z.of_nat (List.length l)) by (apply Z.pow_pos_nonneg; lia).
    nia.
Qed.


Ltac invert_matches :=
  repeat match goal with
         | H : Matches _ _ (Seq _ _) _ _ |- _ => inversion H; subst; clear H
         | H : Matches _ _ (Alt _ _) _ _ |- _ => inversion H; subst; clear H
         | H : Matches _ _ (Cls _) _ _ |- _ => inversion H; subst; clear H
         end.

Lemma yearPattern_group (query : string) (x : found) :
  In x (matches false yearPattern query) ->
  1980 <= parseDigits (groupOf query 1 x) <= 2039.
Proof.
  unfold matches. intros Hin. apply execLoop_found in Hin.
  destruct (framed_group false (Js.chars query) WordB
              (alt [seq [lit "19"; oneOf ["8"; "9"]%char; digit];
                    seq [lit "20"; range "0" "3"; digit]])
              1 (mStart x) [] (mEnd x) (mCaps x) Hin) as (a & b & HX & Hcap).
  unfold groupOf, group. rewrite Hcap. unfold sub. clear Hin Hcap.
  remember (Js.chars query) as s eqn:Hs. clear Hs.
  cbv [alt seq lit lit' oneOf range digit chr Js.chars list_ascii_of_string] in HX.
  invert_matches;
    replace (S (S (S (S a))) - a)%nat with 4%nat by lia;
    repeat match goal with
           | H : nth_error s _ = Some _ |- _ =>
               rewrite (skipn_nth s _ _ H); cbn [firstn]; clear H
           end;
    unfold test in *;
    repeat match goal with
           | H : Ascii.eqb _ _ = true |- _ => apply Ascii.eqb_eq in H; subst
           end.
  - rewrite parseDigits_digits.
    + match goal with
      | H : (_ || _)%bool = true |- _ =>
          apply orb_prop in H; destruct H as [H|H];
            [|rewrite orb_false_r in H]; apply Ascii.eqb_eq in H; subst
      end;
        match goal with
        | H : Js.isDigit _ = true |- _ => apply isDigit_code in H
        end; cbn [Js.digitsValue]; change (Js.code "1") with 49%nat;
        change (Js.code "9") with 57%nat; change (Js.code "8") with 56%nat; lia.
    + repeat constructor; try assumption.
      match goal with
      | H : (_ || _)%bool = true |- _ =>
          apply orb_prop in H; destruct H as [H|H];
            [|rewrite orb_false_r in H]; apply Ascii.eqb_eq in H; subst; reflexivity
      end.
  - assert (Hthird : forall c, Js.inRange (Js.code "0") (Js.code "3") c = true ->
                               (48 <= Js.code c <= 51)%nat).
    { intros c. unfold Js.inRange. rewrite andb_true_iff, !Nat.leb_le. tauto. }
    rewrite parseDigits_digits.
    + match goal with
      | H : Js.inRange _ _ _ = true |- _ => apply Hthird in H
      end.
      match goal with
      | H : Js.isDigit _ = true |- _ => apply isDigit_code in H
      end.
      cbn [Js.digitsValue]. change (Js.code "2") with 50%nat.
      change (Js.code "0") with 48%nat. lia.
    + repeat constructor; try assumption.
      match goal with
      | H : Js.inRange _ _ _ = true |- _ =>
          apply Hthird in H; unfold Js.isDigit, Js.inRange;
            rewrite andb_true_iff, !Nat.leb_le; lia
      end.
Qed.

Lemma fyPattern_group (query : string) (x : found) :
  In x (matches true fyPattern query) ->
  0 <= parseDigits (groupOf query 1 x) <= 9999.
Proof.
  unfold matches. intros Hin. apply execLoop_found in Hin.
  destruct (framed_group true (Js.chars query)
              (Seq WordB (Seq (lit "FY") (opt (oneOf ["'"; "'"]%char))))
              (between 2 4 digit)
              1 (mStart x) [] (mEnd x) (mCaps x) Hin) as (a & b & HX & Hcap).
  unfold groupOf, group. rewrite Hcap. unfold sub. clear Hin Hcap.
  remember (Js.chars query) as s eqn:Hs. clear Hs.
  unfold between, digit in HX. inversion HX as [ | | | | |lo hi r n i j Hiter Hlo Hhi| | | ]; subst.
  specialize (Hhi 4%nat eq_refl).
  apply iter_cls in Hiter. destruct Hiter as (-> & Hlen & Hall).
  replace (a + n - a)%nat with n by lia.
  assert (Hdigits : Forall (fun ch => Js.isDigit ch = true) (firstn n (skipn a s))).
  { eapply Forall_impl; [|exact Hall]. intros ch. apply test_digit. }
  destruct (firstn n (skipn a s)) as [|c l] eqn:Hl; [simpl in Hlen; lia|].
  rewrite parseDigits_digits by exact Hdigits.
  pose proof (digitsValue_bound _ Hdigits 0 ltac:(lia)) as Hbound.
  rewrite Hlen in Hbound.
  assert (10 ^ Z.of_nat n <= 10 ^ 4) by (apply Z.pow_le_mono_r; lia).
  change (10 ^ 4) with 10000 in *. lia.
Qed.

Lemma sortInsert_In (x y : Z) (l : list Z) : In y (sortInsert x l) <-> y = x \/ In y l.
Proof.
  induction l as [|a l IH]; simpl; [intuition congruence|].
  destruct (sortBefore x a); simpl; [intuition congruence|]. rewrite IH. tauto.
Qed.

Lemma sortDefault_In (y : Z) (l : list Z) : In y (sortDefault l) <-> In y l.
Proof.
  unfold sortDefault.
  assert (H : forall acc, In y (fold_left (fun acc x => sortInsert x acc) l acc)
                          <-> In y l \/ In y acc).
  { induction l as [|a l IH]; intros acc; simpl; [tauto|].
    rewrite IH, sortInsert_In. intuition congruence. }
  rewrite H. simpl. tauto.
Qed.

(** The year that a fiscal-year mention stands for. *)
Lemma fiscalYears_In (query : string) (ms : list found) :
  forall (years0 : list Z) (y : Z),
    In y (fold_left
            (fun years mt =>
               let year := parseDigits (groupOf query 1 mt) in
               let year :=
                 if year <? 100 then year + (if year <? 50 then 2000 else 1900) else year in
               if negb (includesZ years year) then (years ++ [year])%list else years)
            ms years0) ->
    In y years0
    \/ exists mt,
         In mt ms
         /\ y = (let year := parseDigits (groupOf query 1 mt) in
                 if year <? 100 then year + (if year <? 50 then 2000 else 1900) else year).
Proof.
  induction ms as [|mt ms IH]; intros years0 y; simpl; [auto|].
  intros H. apply IH in H. destruct H as [H|(mt' & Hin & Hy)].
  - cbv zeta in H.
    destruct (negb (includesZ years0 _)) in H; [|now left].
    apply in_app_or in H. destruct H as [H|[<-|[]]]; [now left|].
    right. exists mt. auto.
  - right. exists mt'. auto.
Qed.

(** X21.  Every year that [extractYears] returns is between 1980 and
    2039, unless the query mentions a fiscal year: then the years are
    between 100 and 9999. *)
Theorem extractYears_range (query : string) (y : Z) :
  In y (extractYears query) ->
  1980 <= y <= 2039
  \/ (matches true fyPattern query <> [] /\ 100 <= y <= 9999).
Proof.
  unfold extractYears. rewrite sortDefault_In. intros H.
  apply fiscalYears_In in H. destruct H as [H|(mt & Hin & ->)].
  - left. apply in_map_iff in H. destruct H as (x & <- & Hx).
    now apply yearPattern_group.
  - right. split; [intros E; rewrite E in Hin; destruct Hin|].
    pose proof (fyPattern_group query mt Hin) as Hrange. cbv zeta.
    destruct (Z.ltb_spec (parseDigits (groupOf query 1 mt)) 100);
      [destruct (Z.ltb_spec (parseDigits (groupOf query 1 mt)) 50)|]; lia.
Qed.

(** The group of a ticker pattern is one to five capital letters. *)
Lemma ticker_group (prefix : re) (query : string) (x : found) :
  m false (Js.chars query) prefix
    (m false (Js.chars query) (Grp 1 (between 1 5 (range "A" "Z")))
       (m false (Js.chars query) WordB (fun j c => Some (j, c))))
    (mStart x) []
  = Some (mEnd x, mCaps x) ->
  exists letters,
    groupOf query 1 x = Js.str letters
    /\ (1 <= List.length letters <= 5)%nat
    /\ Forall (fun c => Js.isUpper c = true) letters.
Proof.
  intros Hm. apply framed_group in Hm. destruct Hm as (a & b & HX & Hcap).
  unfold groupOf, group. rewrite Hcap. unfold sub.
  unfold between, range in HX.
  inversion HX as [ | | | | |lo hi r n i j Hiter Hlo Hhi| | | ]; subst.
  specialize (Hhi 5%nat eq_refl).
  apply iter_cls in Hiter. destruct Hiter as (-> & Hlen & Hall).
  replace (a + n - a)%nat with n by lia.
  exists (firstn n (skipn a (Js.chars query))). split; [reflexivity|].
  split; [lia|]. exact Hall.
Qed.

(** X22.  Every ticker that [extractTickers] returns is one to five
    capital letters A-Z. *)
Theorem extractTickers_shape (query ticker : string) :
  In ticker (extractTickers query) ->
  exists letters,
    ticker = Js.str letters
    /\ (1 <= List.length letters <= 5)%nat
    /\ Forall (fun c => Js.isUpper c = true) letters.
Proof.
  unfold extractTickers. intros H.
  apply (proj1 (proj2 (dedup_spec _) ticker)) in H.
  apply (proj1 (pushNew_In _ _ _ _)) in H.
  assert (Hgroup : forall pattern prefix,
             (forall k i c,
                 m false (Js.chars query) pattern k i c
                 = m false (Js.chars query) prefix
                     (m false (Js.chars query) (Grp 1 (between 1 5 (range "A" "Z")))
                        (m false (Js.chars query) WordB k)) i c) ->
             In ticker (map (groupOf query 1) (matches false pattern query)) ->
             exists letters,
               ticker = Js.str letters
               /\ (1 <= List.length letters <= 5)%nat
               /\ Forall (fun c => Js.isUpper c = true) letters).
  { intros pattern prefix Hform Hin. apply in_map_iff in Hin.
    destruct Hin as (x & <- & Hx). unfold matches in Hx.
    apply execLoop_found in Hx. rewrite Hform in Hx.
    exact (ticker_group prefix query x Hx). }
  destruct H as [H|H].
  - apply filter_In in H. destruct H as [H _].
    apply (Hgroup TICKER_PATTERN WordB); [reflexivity | exact H].
  - apply (Hgroup dollarPattern (chr "$")); [reflexivity | exact H].
Qed.

Lemma m_grp (ic : bool) (s : list ascii) (n : nat) (r : re) k i c :
  m ic s (Grp n r) k i c = m ic s r (fun j c' => k j ((n, (i, j)) :: c')) i c.
Proof. reflexivity. Qed.

(** Under the flag [i], a character that matches a small letter is that
    letter or its capital. *)
Lemma test_letter (x c : ascii) :
  In x ["y"; "e"; "a"; "r"; "m"; "o"; "n"; "t"; "h"; "w"; "k"; "d"]%char ->
  test true (Ascii.eqb x) c = true ->
  Js.lowerChar c = x.
Proof.
  intros Hx.
  repeat (destruct Hx as [<-|Hx];
          [destruct c as [[] [] [] [] [] [] [] []]; vm_compute; intros H;
           first [reflexivity | discriminate H]|]).
  destruct Hx.
Qed.

(** What [unitForm] matches is, in lower case, one of the four units. *)
Lemma unitForm_group (s : list ascii) (a b : nat) :
  Matches true s unitForm a b ->
  In (Js.toLowerCase (sub s a b)) ["year"; "month"; "week"; "day"].
Proof.
  intros HU. unfold sub, Js.toLowerCase, Js.chars, Js.str.
  rewrite list_ascii_of_string_of_list_ascii.
  cbv [unitForm alt lit lit' chr Js.chars list_ascii_of_string] in HU.
  invert_matches;
    match goal with
    | |- context [firstn (?n - a) _] =>
        let k := fresh "k" in
        remember (n - a)%nat as k eqn:Hk;
        match type of Hk with
        | _ = (S (S (S (S (S a)))) - a)%nat => replace k with 5%nat by lia
        | _ = (S (S (S (S a))) - a)%nat => replace k with 4%nat by lia
        | _ = (S (S (S a)) - a)%nat => replace k with 3%nat by lia
        end; clear Hk
    end;
    repeat match goal with
           | H : nth_error s _ = Some _ |- _ =>
               rewrite (skipn_nth s _ _ H); cbn [firstn]; clear H
           end;
    repeat match goal with
           | H : test true (Ascii.eqb _) _ = true |- _ =>
               apply test_letter in H; [|simpl; tauto]
           end;
    cbn [map];
    repeat match goal with
           | H : Js.lowerChar _ = _ |- _ => rewrite H; clear H
           end;
    simpl; tauto.
Qed.

(** The flag [i] adds nothing to [\s]. *)
Lemma test_space (ic : bool) (c : ascii) :
  test ic Js.isSpace c = true -> Js.isSpace c = true.
Proof.
  destruct ic; [|exact (fun H => H)].
  destruct c as [[] [] [] [] [] [] [] []]; vm_compute; intros H;
    first [reflexivity | discriminate H].
Qed.

Lemma test_word_letter (x c : ascii) :
  In x ["p"; "a"; "s"; "t"; "l"]%char ->
  test true (Ascii.eqb x) c = true ->
  Js.lowerChar c = x.
Proof.
  intros Hx.
  repeat (destruct Hx as [<-|Hx];
          [destruct c as [[] [] [] [] [] [] [] []]; vm_compute; intros H;
           first [reflexivity | discriminate H]|]).
  destruct Hx.
Qed.

(** The characters from [a] on are those up to [b] and those from [b] on. *)
Lemma skipn_split (s : list ascii) (a b : nat) :
  (a <= b)%nat -> skipn a s = (firstn (b - a) (skipn a s) ++ skipn b s)%list.
Proof.
  intros Hab. rewrite <- (firstn_skipn (b - a) (skipn a s)) at 1.
  rewrite skipn_skipn. now replace (b - a + a)%nat with b by lia.
Qed.

Scheme Matches_both := Induction for Matches Sort Prop
  with Iter_both := Induction for Iter Sort Prop.

(** A match ends where it starts or after. *)
Lemma Matches_le (ic : bool) (s : list ascii) (r : re) (a b : nat) :
  Matches ic s r a b -> (a <= b)%nat.
Proof.
  intros HM.
  induction HM using Matches_both
    with (P0 := fun r n a b (_ : Iter ic s r n a b) => (a <= b)%nat); lia.
Qed.

(** A match of [rangePattern] under the flags [gi] is a phrase of the
    query in which the first group comes before the second. *)
Lemma range_phrase (query : string) (x : found) :
  In x (matches true rangePattern query) ->
  exists before first between last after,
    Js.chars query = (before ++ first ++ between ++ last ++ after)%list
    /\ groupOf query 1 x = Js.str first
    /\ groupOf query 2 x = Js.str last.
Proof.
  intros Hin. unfold matches in Hin. apply execLoop_found in Hin.
  remember (Js.chars query) as s eqn:Hs.
  change (m true s (alt [lit "from"; lit "between"])
            (m true s (plus space)
               (m true s (Grp 1 dateForm)
                  (m true s (plus space)
                     (m true s (alt [lit "to"; lit "and"])
                        (m true s (plus space)
                           (m true s (Grp 2 dateForm) (fun j c => Some (j, c))))))))
            (mStart x) []
          = Some (mEnd x, mCaps x)) in Hin.
  apply m_plain in Hin; [|reflexivity]. destruct Hin as (j1 & H1 & Hin).
  apply m_plain in Hin; [|reflexivity]. destruct Hin as (j2 & H2 & Hin).
  rewrite m_grp in Hin.
  apply m_plain in Hin; [|reflexivity]. destruct Hin as (j3 & H3 & Hin).
  cbv beta in Hin.
  apply m_plain in Hin; [|reflexivity]. destruct Hin as (j4 & H4 & Hin).
  apply m_plain in Hin; [|reflexivity]. destruct Hin as (j5 & H5 & Hin).
  apply m_plain in Hin; [|reflexivity]. destruct Hin as (j6 & H6 & Hin).
  rewrite m_grp in Hin.
  apply m_plain in Hin; [|reflexivity]. destruct Hin as (j7 & H7 & Hin).
  cbv beta in Hin. injection Hin as _ Hcaps.
  apply Matches_le in H1, H2, H3, H4, H5, H6, H7.
  exists (firstn j2 s),
         (firstn (j3 - j2) (skipn j2 s)),
         (firstn (j6 - j3) (skipn j3 s)),
         (firstn (j7 - j6) (skipn j6 s)),
         (skipn j7 s).
  split.
  { rewrite <- (skipn_split s j6 j7 H7), <- (skipn_split s j3 j6 ltac:(lia)),
      <- (skipn_split s j2 j3 H3).
    symmetry. apply firstn_skipn. }
  unfold groupOf, group. rewrite <- Hs, <- Hcaps. cbn [lookup Nat.eqb].
  split; reflexivity.
Qed.

(** What [past] or [last] matches under the flag [i] is four characters
    that spell the word in lower case. *)
Lemma word_span (s : list ascii) (w : string) (a b : nat) :
  In w ["past"; "last"] ->
  Matches true s (lit w) a b ->
  (a <= b)%nat /\ Js.toLowerCase (sub s a b) = w.
Proof.
  intros Hw HM. unfold sub, Js.toLowerCase, Js.chars, Js.str.
  rewrite list_ascii_of_string_of_list_ascii.
  destruct Hw as [<-|[<-|[]]];
    cbv [lit lit' chr Js.chars list_ascii_of_string] in HM;
    invert_matches;
    (split; [lia|]);
    replace (S (S (S (S a))) - a)%nat with 4%nat by lia;
    repeat match goal with
           | H : nth_error s _ = Some _ |- _ =>
               rewrite (skipn_nth s _ _ H); cbn [firstn]; clear H
           end;
    repeat match goal with
           | H : test true (Ascii.eqb _) _ = true |- _ =>
               apply test_word_letter in H; [|simpl; tauto]
           end;
    cbn [map];
    repeat match goal with
           | H : Js.lowerChar _ = _ |- _ => rewrite H; clear H
           end;
    reflexivity.
Qed.

Lemma unitForm_span (s : list ascii) (a b : nat) :
  Matches true s unitForm a b -> (a <= b)%nat.
Proof.
  intros HU. cbv [unitForm alt lit lit' chr Js.chars list_ascii_of_string] in HU.
  invert_matches; lia.
Qed.

(** One or more characters of a class, under the flag [i]. *)
Lemma plus_cls_span (s : list ascii) (p : ascii -> bool) (a b : nat) :
  Matches true s (plus (Cls p)) a b ->
  (a <= b)%nat
  /\ firstn (b - a) (skipn a s) <> []
  /\ Forall (fun ch => test true p ch = true) (firstn (b - a) (skipn a s)).
Proof.
  intros HM. unfold plus in HM.
  inversion HM as [ | | | | |lo hi r n i j Hiter Hlo _| | | ]; subst lo hi r i j.
  apply iter_cls in Hiter. destruct Hiter as (-> & Hlen & Hall).
  replace (a + n - a)%nat with n by lia.
  split; [lia|]. split; [|exact Hall].
  intros Hnil. rewrite Hnil in Hlen. simpl in Hlen. lia.
Qed.

(** A match of [word\s+(\d+)\s+(year|month|week|day)s?] under the flags
    [gi] is a phrase of the query: the word, white space, a number in
    digits, white space and a unit, one after the other; the first group is
    the number and the second the unit. *)
Lemma relative_phrase (w : string) (query : string) (x : found) :
  In w ["past"; "last"] ->
  In x (matches true
          (seq [lit w; plus space; Grp 1 (plus digit); plus space; Grp 2 unitForm;
                opt (chr "s")])
          query) ->
  exists before word gap digits gap' unit after,
    Js.chars query = (before ++ word ++ gap ++ digits ++ gap' ++ unit ++ after)%list
    /\ Js.toLowerCase (Js.str word) = w
    /\ gap <> [] /\ Forall (fun ch => Js.isSpace ch = true) gap
    /\ digits <> [] /\ Forall (fun ch => Js.isDigit ch = true) digits
    /\ gap' <> [] /\ Forall (fun ch => Js.isSpace ch = true) gap'
    /\ In (Js.toLowerCase (Js.str unit)) ["year"; "month"; "week"; "day"]
    /\ groupOf query 1 x = Js.str digits
    /\ groupOf query 2 x = Js.str unit.
Proof.
  intros Hw Hin. unfold matches in Hin. apply execLoop_found in Hin.
  remember (Js.chars query) as s eqn:Hs.
  assert (Hplain : plain (lit w) = true) by (destruct Hw as [<-|[<-|[]]]; reflexivity).
  change (m true s (lit w)
            (m true s (plus space)
               (m true s (Grp 1 (plus digit))
                  (m true s (plus space)
                     (m true s (Grp 2 unitForm)
                        (m true s (opt (chr "s")) (fun j c => Some (j, c)))))))
            (mStart x) []
          = Some (mEnd x, mCaps x)) in Hin.
  apply m_plain in Hin; [|exact Hplain]. destruct Hin as (j1 & Hword & Hin).
  apply m_plain in Hin; [|reflexivity]. destruct Hin as (j2 & Hgap & Hin).
  rewrite m_grp in Hin.
  apply m_plain in Hin; [|reflexivity]. destruct Hin as (j3 & Hdigits & Hin).
  cbv beta in Hin.
  apply m_plain in Hin; [|reflexivity]. destruct Hin as (j4 & Hgap' & Hin).
  rewrite m_grp in Hin.
  apply m_plain in Hin; [|reflexivity]. destruct Hin as (j5 & Hunit & Hin).
  cbv beta in Hin.
  apply m_plain in Hin; [|reflexivity]. destruct Hin as (j6 & _ & Hin).
  injection Hin as _ Hcaps.
  destruct (word_span s w _ _ Hw Hword) as [Hle1 Hspell].
  destruct (plus_cls_span s _ _ _ Hgap) as (Hle2 & Hgap1 & Hgap2).
  destruct (plus_cls_span s _ _ _ Hdigits) as (Hle3 & Hdig1 & Hdig2).
  destruct (plus_cls_span s _ _ _ Hgap') as (Hle4 & Hgap'1 & Hgap'2).
  pose proof (unitForm_span s _ _ Hunit) as Hle5.
  exists (firstn (mStart x) s),
         (firstn (j1 - mStart x) (skipn (mStart x) s)),
         (firstn (j2 - j1) (skipn j1 s)),
         (firstn (j3 - j2) (skipn j2 s)),
         (firstn (j4 - j3) (skipn j3 s)),
         (firstn (j5 - j4) (skipn j4 s)),
         (skipn j5 s).
  split.
  { rewrite <- (skipn_split s j4 j5 Hle5), <- (skipn_split s j3 j4 Hle4),
      <- (skipn_split s j2 j3 Hle3), <- (skipn_split s j1 j2 Hle2),
      <- (skipn_split s (mStart x) j1 Hle1).
    symmetry. apply firstn_skipn. }
  split; [exact Hspell|].
  split; [exact Hgap1|].
  split; [eapply Forall_impl; [|exact Hgap2]; intros ch; apply test_space|].
  split; [exact Hdig1|].
  split; [eapply Forall_impl; [|exact Hdig2]; intros ch; apply test_digit|].
  split; [exact Hgap'1|].
  split; [eapply Forall_impl; [|exact Hgap'2]; intros ch; apply test_space|].
  split; [exact (unitForm_group s _ _ Hunit)|].
  unfold groupOf, group. rewrite <- Hs, <- Hcaps. cbn [lookup Nat.eqb].
  split; reflexivity.
Qed.

(** The ranges of one of the two relative patterns. *)
Lemma relativeRanges_phrase (w : string) (query : string) (now : Z) (r : DateRange) :
  In w ["past"; "last"] ->
  In r (relativeRanges now
          (seq [lit w; plus space; Grp 1 (plus digit); plus space; Grp 2 unitForm;
                opt (chr "s")])
          query) ->
  exists before word gap digits gap' unit after,
    Js.chars query = (before ++ word ++ gap ++ digits ++ gap' ++ unit ++ after)%list
    /\ In (Js.toLowerCase (Js.str word)) ["past"; "last"]
    /\ gap <> [] /\ Forall (fun ch => Js.isSpace ch = true) gap
    /\ digits <> [] /\ Forall (fun ch => Js.isDigit ch = true) digits
    /\ gap' <> [] /\ Forall (fun ch => Js.isSpace ch = true) gap'
    /\ end_ r = Some now
    /\ let amount := Js.digitsValue 0 digits in
       (Js.toLowerCase (Js.str unit) = "year"
        /\ start r = Date_setFullYear now (Date_getFullYear now - amount))
       \/ (Js.toLowerCase (Js.str unit) = "month"
           /\ start r = Date_setMonth now (Date_getMonth now - amount))
       \/ (Js.toLowerCase (Js.str unit) = "week"
           /\ start r = Date_setDate now (Date_getDate now - amount * 7))
       \/ (Js.toLowerCase (Js.str unit) = "day"
           /\ start r = Date_setDate now (Date_getDate now - amount)).
Proof.
  intros Hw Hin. unfold relativeRanges in Hin. apply in_map_iff in Hin.
  destruct Hin as (x & <- & Hx). cbn [start end_].
  destruct (relative_phrase w query x Hw Hx)
    as (before & word & gap & digits & gap' & unit & after & Hquery & Hword & Hgap1 & Hgap2
        & Hdig1 & Hdig2 & Hgap'1 & Hgap'2 & Hunit & Hg1 & Hg2).
  exists before, word, gap, digits, gap', unit, after.
  split; [exact Hquery|]. split; [now rewrite Hword|].
  split; [exact Hgap1|]. split; [exact Hgap2|]. split; [exact Hdig1|].
  split; [exact Hdig2|]. split; [exact Hgap'1|]. split; [exact Hgap'2|].
  split; [reflexivity|].
  rewrite Hg1, Hg2.
  destruct digits as [|d digits]; [congruence|].
  rewrite (parseDigits_digits d digits Hdig2).
  cbv zeta. unfold shiftBack.
  destruct Hunit as [<-|[<-|[<-|[<-|[]]]]]; cbn [String.eqb Ascii.eqb Bool.eqb]; auto 6.
Qed.

(** X23.  Every date range that the analyzer takes from a query is
    either an explicit one or a relative one.  An explicit range has its
    start and its end read by [parseDate] from two pieces of the query, the
    piece of the start before the piece of the end.  A relative range comes
    from a phrase of the query: the word past or last, white space, a number
    N written in digits, white space and one of the units year, month, week
    and day, in any case.  It ends at the current instant and starts at the
    current instant with the year, the month or the day of the month moved
    back by N, as the unit says (the day of the month by seven times N for
    weeks). *)
Theorem extractDateRanges_shape (query : string) (r : DateRange) :
  In r (extractDateRanges query) ->
  (exists before first between last after from to,
      Js.chars query = (before ++ first ++ between ++ last ++ after)%list
      /\ parseDate (Js.str first) = Some from /\ parseDate (Js.str last) = Some to
      /\ r = mkRange (Some from) (Some to))
  \/ (exists before word gap digits gap' unit after,
         Js.chars query = (before ++ word ++ gap ++ digits ++ gap' ++ unit ++ after)%list
         /\ In (Js.toLowerCase (Js.str word)) ["past"; "last"]
         /\ gap <> [] /\ Forall (fun ch => Js.isSpace ch = true) gap
         /\ digits <> [] /\ Forall (fun ch => Js.isDigit ch = true) digits
         /\ gap' <> [] /\ Forall (fun ch => Js.isSpace ch = true) gap'
         /\ end_ r = Some Date_now
         /\ let amount := Js.digitsValue 0 digits in
            (Js.toLowerCase (Js.str unit) = "year"
             /\ start r = Date_setFullYear Date_now (Date_getFullYear Date_now - amount))
            \/ (Js.toLowerCase (Js.str unit) = "month"
                /\ start r = Date_setMonth Date_now (Date_getMonth Date_now - amount))
            \/ (Js.toLowerCase (Js.str unit) = "week"
                /\ start r = Date_setDate Date_now (Date_getDate Date_now - amount * 7))
            \/ (Js.toLowerCase (Js.str unit) = "day"
                /\ start r = Date_setDate Date_now (Date_getDate Date_now - amount))).
Proof.
  unfold extractDateRanges. intros Hin.
  apply in_app_or in Hin. destruct Hin as [Hin|Hin];
    [apply in_app_or in Hin; destruct Hin as [Hin|Hin]|].
  - left. apply in_flat_map in Hin. destruct Hin as (x & Hx & Hin).
    destruct (range_phrase query x Hx)
      as (before & first & between & last & after & Hquery & Hfirst & Hlast).
    rewrite Hfirst, Hlast in Hin.
    destruct (parseDate (Js.str first)) as [from|] eqn:Hfrom; [|destruct Hin].
    destruct (parseDate (Js.str last)) as [to|] eqn:Hto; [|destruct Hin].
    destruct Hin as [<-|[]].
    exists before, first, between, last, after, from, to. auto.
  - right. apply (relativeRanges_phrase "past" query Date_now r); [simpl; tauto | exact Hin].
  - right. apply (relativeRanges_phrase "last" query Date_now r); [simpl; tauto | exact Hin].
Qed.

End PatternFacts.

(** ** The passes of the compactor, for every value *)

Section PassFacts.
Import Json QueryAnalyzer DataCompactor CompactorSpec.
Context {rt : JsRuntime}.

(** X7.  Array truncation at a positive limit leaves no array above the
    limit at any depth, and truncating its result again at the same limit
    changes nothing. *)
Theorem truncateArrays_caps_every_array (data : value) (maxLength : Z) :
  0 < maxLength ->
  Normal maxLength (truncateArrays data maxLength)
  /\ truncateArrays (truncateArrays data maxLength) maxLength
     = truncateArrays data maxLength.
Proof.
  intros Hpos. pose proof (truncateArrays_normal maxLength Hpos data) as Hn.
  split; [exact Hn | now apply normal_truncateArrays].
Qed.

Lemma firstn_all_le {A} (n : nat) (l : list A) : (List.length l <= n)%nat -> firstn n l = l.
Proof.
  revert n. induction l as [|a l IH]; intros [|n]; simpl; intros H; try reflexivity; [lia|].
  f_equal. apply IH. lia.
Qed.

(** X8.  Of an array above a positive limit, truncation keeps exactly
    [maxLength] elements: the last ones when the first two elements are
    dated oldest first, the first ones otherwise. *)
Theorem truncateArrays_keeps_one_end (items : list value) (maxLength : Z) :
  0 < maxLength < Z.of_nat (List.length items) ->
  let kept :=
    match detectDateOrdering items with
    | oldest_first => skipn (List.length items - Z.to_nat maxLength) items
    | _ => firstn (Z.to_nat maxLength) items
    end in
  truncateArrays (JArr items) maxLength
  = JArr (map (fun item => truncateArrays item maxLength) kept)
  /\ Z.of_nat (List.length kept) = maxLength.
Proof.
  intros [Hpos Hlong]. cbv zeta. rewrite truncateArrays_long by exact Hlong.
  unfold truncatedSlice, Js.sliceFrom, Js.sliceList, Js.relIndex.
  destruct (Z.ltb_spec 0 0) as [?|_]; [lia|].
  destruct (Z.ltb_spec maxLength 0) as [?|_]; [lia|].
  destruct (Z.ltb_spec (- maxLength) 0) as [_|?]; [|lia].
  destruct (Z.ltb_spec (Z.of_nat (List.length items)) 0) as [?|_]; [lia|].
  replace (Z.to_nat (Z.max (Z.min maxLength (Z.of_nat (List.length items))
                            - Z.min 0 (Z.of_nat (List.length items))) 0))
    with (Z.to_nat maxLength) by lia.
  replace (Z.to_nat (Z.min 0 (Z.of_nat (List.length items)))) with O by lia.
  replace (Z.to_nat (Z.max (Z.of_nat (List.length items) + - maxLength) 0))
    with (List.length items - Z.to_nat maxLength)%nat by lia.
  replace (Z.to_nat (Z.max (Z.min (Z.of_nat (List.length items))
                                  (Z.of_nat (List.length items))
                            - Z.max (Z.of_nat (List.length items) + - maxLength) 0) 0))
    with (Z.to_nat maxLength) by lia.
  cbn [skipn].
  destruct (detectDateOrdering items).
  - split; [reflexivity|]. rewrite length_firstn. lia.
  - split; [|rewrite length_skipn; lia].
    rewrite firstn_all_le; [reflexivity|]. rewrite length_skipn. lia.
  - split; [reflexivity|]. rewrite length_firstn. lia.
Qed.

(** X9.  At the limit 0 truncation empties a non-empty array, unless its
    first two elements are dated oldest first: then [slice(-0)] keeps every
    element. *)
Theorem truncateArrays_limit_zero (items : list value) :
  items <> [] ->
  truncateArrays (JArr items) 0
  = match detectDateOrdering items with
    | oldest_first => JArr (map (fun item => truncateArrays item 0) items)
    | _ => JArr []
    end.
Proof.
  intros Hne.
  assert (Hlong : 0 < Z.of_nat (List.length items))
    by (destruct items; [congruence | simpl; lia]).
  rewrite truncateArrays_long by exact Hlong.
  unfold truncatedSlice, Js.sliceFrom, Js.sliceList, Js.relIndex.
  change (- 0) with 0.
  destruct (Z.ltb_spec 0 0) as [?|_]; [lia|].
  destruct (Z.ltb_spec (Z.of_nat (List.length items)) 0) as [?|_]; [lia|].
  rewrite Z.min_id, Z.min_l by lia. cbn [Z.sub Z.opp Z.add Z.max Z.compare Z.to_nat skipn firstn].
  destruct (detectDateOrdering items); try reflexivity.
  replace (Z.to_nat (Z.max (Z.of_nat (List.length items) - 0) 0))
    with (List.length items) by lia.
  now rewrite firstn_all.
Qed.

(** X10.  Field removal leaves none of the removed names at any depth,
    and removing the same names from its result changes nothing. *)
Theorem removeFields_removes_everywhere (data : value) (fieldsToRemove : list string) :
  Plain fieldsToRemove (removeFields data fieldsToRemove)
  /\ removeFields (removeFields data fieldsToRemove) fieldsToRemove
     = removeFields data fieldsToRemove.
Proof.
  pose proof (removeFields_plain fieldsToRemove data) as Hp.
  split; [exact Hp | now apply plain_removeFields].
Qed.

(** X11.  The query filter never empties an array and never lengthens
    it: of a non-empty array it keeps at least one element. *)
Theorem filterByQueryContext_keeps_something (items : list value) (context : QueryContext) :
  items <> [] ->
  exists kept,
    filterByQueryContext (JArr items) context = JArr kept
    /\ kept <> []
    /\ (List.length kept <= List.length items)%nat.
Proof.
  intros Hne. destruct items as [|first rest]; [congruence|]. clear Hne.
  destruct (if isObject first then findDateField first else None) as [dateField|] eqn:Hfield.
  - assert (Hobj : isObject first = true) by (destruct (isObject first); congruence).
    rewrite Hobj in Hfield.
    rewrite (filterByQueryContext_dated first rest dateField context Hobj Hfield).
    cbv zeta.
    set (filtered := filter (keepItem context dateField) (first :: rest)).
    destruct (Nat.ltb_spec 0 (List.length filtered)) as [Hsome|Hnone].
    + eexists. split; [reflexivity|]. split.
      * intros E. apply (f_equal (@List.length _)) in E. rewrite length_map in E.
        simpl in E. lia.
      * rewrite length_map. apply filter_length_le.
    + eexists. split; [reflexivity|].
      unfold Js.sliceList, Js.relIndex.
      destruct (Z.ltb_spec 0 0) as [?|_]; [lia|].
      destruct (Z.ltb_spec 20 0) as [?|_]; [lia|].
      cbn [skipn Z.to_nat Z.min]. split.
      * intros E. apply (f_equal (@List.length _)) in E. rewrite length_firstn in E.
        simpl List.length in E. lia.
      * rewrite length_firstn. lia.
  - exists (map (fun item => filterByQueryContext item context) (first :: rest)).
    split.
    + cbn [filterByQueryContext]. rewrite Hfield. reflexivity.
    + split; [discriminate | now rewrite length_map].
Qed.

Lemma orderingByFields_reversed (a b : value) (dateFields : list string) :
  orderingByFields a b dateFields = newest_first ->
  orderingByFields b a dateFields = oldest_first.
Proof.
  induction dateFields as [|field rest IH]; [discriminate|].
  rewrite !orderingByFields_cons.
  destruct (prop a field) as [[ | | |sa| | ]|], (prop b field) as [[ | | |sb| | ]|]; auto.
  destruct (Date_parse sa) as [da|], (Date_parse sb) as [db|]; auto.
  destruct (Z.ltb_spec db da) as [Hlt|_]; [|discriminate]. intros _.
  destruct (Z.ltb_spec da db) as [?|_]; [lia | reflexivity].
Qed.

(** X12.  When an array is found to be newest first, the array with its
    first two elements exchanged is found to be oldest first. *)
Theorem detectDateOrdering_reversed (a b : value) (rest rest' : list value) :
  detectDateOrdering (a :: b :: rest) = newest_first ->
  detectDateOrdering (b :: a :: rest') = oldest_first.
Proof.
  unfold detectDateOrdering. rewrite (orb_comm (negb (isObject b))).
  destruct (negb (isObject a) || negb (isObject b))%bool; [discriminate|].
  apply orderingByFields_reversed.
Qed.

(** Multiplying a cap above 5 by 0.7 and flooring leaves at least 4. *)
Lemma floorTimes0_7_ge (x : Z) : 5 < x -> 4 <= floorTimes0_7 x.
Proof.
  intros Hx. unfold floorTimes0_7, double_0_7_mantissa.
  rewrite Z.abs_eq by lia.
  destruct (0 <=? x) eqn:E; [|apply Z.leb_gt in E; lia]. clear E.
  set (n := x * 3152519739159347).
  assert (Hn : 18915118434956082 <= n) by (subst n; lia).
  set (sh := Z.max (Z.log2 n + 1 - 53) 0).
  assert (Hsh : 0 <= sh) by (subst sh; lia).
  rewrite !Z.shiftr_div_pow2, !Z.shiftl_mul_pow2 by lia.
  set (P := 2 ^ sh).
  assert (HP : 0 < P) by (subst P; apply Z.pow_pos_nonneg; lia).
  assert (HPn : P * 2 ^ 52 <= n).
  { destruct (Z.eq_dec sh 0) as [H0|Hnz].
    - subst P. rewrite H0. change (2 ^ 0 * 2 ^ 52) with 4503599627370496. lia.
    - subst P. rewrite <- Z.pow_add_r by lia.
      replace (sh + 52) with (Z.log2 n) by (subst sh; lia).
      apply Z.log2_spec. lia. }
  change (2 ^ 52) with 4503599627370496 in *.
  pose proof (Z.div_mod n P ltac:(lia)) as Hdiv.
  pose proof (Z.mod_pos_bound n P HP) as Hmod.
  set (q := n / P) in *.
  assert (Hq : 0 <= q) by (subst q; apply Z.div_pos; lia).
  assert (HqP : 4 * 4503599627370496 <= q * P) by lia.
  assert (Hnum : forall q', q <= q' -> 4 <= q' * P / 4503599627370496).
  { intros q' Hq'. apply Z.div_le_lower_bound; [lia|]. nia. }
  destruct ((1 * P <? 2 * (n - q * P)) || ((1 * P =? 2 * (n - q * P)) && Z.odd q))%bool;
    apply Hnum; lia.
Qed.

Lemma shrinkRun_cap (o : CompactOptions) (parsed : value) limit result limit' result' :
  ShrinkRun o parsed limit result limit' result' ->
  0 < limit ->
  result = compactOnce o parsed limit ->
  0 < limit' <= limit
  /\ (limit' = limit \/ 4 <= limit')
  /\ result' = compactOnce o parsed limit'.
Proof.
  induction 1 as [limit result Hstop|limit result limit' result' Hover Hcap Hrun IH];
    intros Hpos Hres.
  - split; [lia|]. split; [now left | exact Hres].
  - pose proof (floorTimes0_7_ge limit Hcap) as Hge.
    pose proof (floorTimes0_7_lt limit Hpos) as Hlt.
    destruct (IH ltac:(lia) eq_refl) as (Hbounds & Hwhich & Hres').
    split; [lia|]. split; [right; lia | exact Hres'].
Qed.

Lemma compactValue_normal (o : CompactOptions) (parsed : value) (limit : Z) :
  0 < limit -> Normal limit (compactValue o parsed limit).
Proof.
  intros Hpos. unfold compactValue.
  set (filtered := match optQueryContext o with
                   | Some c => filterByQueryContext parsed c
                   | None => parsed
                   end).
  pose proof (truncateArrays_normal limit Hpos filtered) as H1.
  assert (H2 : Normal limit (if optRemoveVerboseFields o
                             then removeFields (truncateArrays filtered limit) VERBOSE_FIELDS
                             else truncateArrays filtered limit))
    by (destruct (optRemoveVerboseFields o); [now apply removeFields_normal | exact H1]).
  destruct (optTruncateUrls o); [now apply truncateTextFields_normal | exact H2].
Qed.

(** X13.  With a positive array limit, what [compactJson] returns for
    parsed data is the serialization, cut with the marker when it is still
    above the budget, of the passes run at one final cap: a cap that is at
    most the configured limit and, when lower than it, at least 4; no array
    of the compacted value is above that cap; and the cap is 5 or less when
    the serialization is above the budget. *)
Theorem compactParsed_final_cap (o : CompactOptions) (parsed : value) :
  0 < optMaxArrayLength o ->
  exists cap,
    0 < cap <= optMaxArrayLength o
    /\ (cap = optMaxArrayLength o \/ 4 <= cap)
    /\ Normal cap (compactValue o parsed cap)
    /\ compactParsed o parsed = hardTruncate o (serialize o (compactValue o parsed cap))
    /\ (TokenCounter.estimateJsonTokens (serialize o (compactValue o parsed cap))
        <= maxTokens o
        \/ cap <= 5).
Proof.
  intros Hpos. destruct (compactParsed_run o parsed) as (cap & result & Hrun & Hout).
  destruct (shrinkRun_cap _ _ _ _ _ _ Hrun Hpos eq_refl) as (Hbounds & Hwhich & Hres).
  exists cap. split; [exact Hbounds|]. split; [exact Hwhich|].
  split; [apply compactValue_normal; lia|].
  split; [now rewrite Hout, Hres|].
  pose proof (shrinkRun_exit _ _ _ _ _ _ Hrun) as Hexit. now rewrite Hres in Hexit.
Qed.

(** Text truncation leaves a brief value as it is. *)
Lemma brief_truncateTextFields (fields : list string) (v : value) :
  Brief fields v -> truncateTextFields v fields = v.
Proof.
  induction v as [ | | | |items IH|props IH] using value_ind_nested;
    intros Hb; try reflexivity; inversion Hb as [ | | | |? Hitems|? Hnd Hprops]; subst.
  - simpl. f_equal. apply map_fixed. rewrite Forall_forall in *. auto.
  - rewrite truncateTextFields_obj. f_equal. apply rebuildFrom_fixed; [exact Hnd | |].
    + apply Forall_forall. reflexivity.
    + rewrite Forall_forall in *. intros kv Hkv. destruct (Hprops kv Hkv) as [Hshort Hval].
      unfold textValue. rewrite Hshort. auto.
Qed.

(** X14.  Data that needs no compaction is returned as its
    serialization.  The data is JSON text that parses or a value, with number
    literals and property names on which the model is exact; there is no
    query context, no array above the limit, none of the verbose fields when
    their removal is on, no long text under a truncatable name when text
    truncation is on, and the serialization is within the budget. *)
Theorem compactJson_lossless (data parsed : value) (o : CompactOptions) :
  parsedInput data = Some parsed ->
  Ordinary parsed ->
  optQueryContext o = None ->
  Normal (optMaxArrayLength o) parsed ->
  (optRemoveVerboseFields o = true -> Plain VERBOSE_FIELDS parsed) ->
  (optTruncateUrls o = true -> Brief TRUNCATABLE_TEXT_FIELDS parsed) ->
  TokenCounter.estimateJsonTokens (serialize o parsed) <= maxTokens o ->
  compactJson data o = serialize o parsed.
Proof.
  intros Hparsed _ Hctx Hnormal Hplain Hbrief Hfits.
  assert (Hsame : compactValue o parsed (optMaxArrayLength o) = parsed).
  { unfold compactValue. rewrite Hctx, (normal_truncateArrays _ _ Hnormal).
    destruct (optRemoveVerboseFields o).
    - rewrite (plain_removeFields _ _ (Hplain eq_refl)).
      destruct (optTruncateUrls o);
        [apply brief_truncateTextFields; auto | reflexivity].
    - destruct (optTruncateUrls o);
        [apply brief_truncateTextFields; auto | reflexivity]. }
  rewrite (compactJson_parsed _ _ _ Hparsed).
  rewrite compactParsed_fits; unfold compactOnce; rewrite Hsame; [reflexivity | exact Hfits].
Qed.

End PassFacts.

(** ** What the compactor catches *)

Section ThrowFacts.
Import Json QueryAnalyzer DataCompactor.
Context {rt : JsRuntime} {parser : Throwing.Parser}.

Lemma truncateText_returns (v : string) :
  Throwing.truncateText v = Throwing.Returns (truncateText v).
Proof.
  unfold Throwing.truncateText, truncateText, Throwing.tryCatch, Throwing.bind,
    Throwing.URL_new.
  destruct (Js.startsWith v "http"); [|reflexivity].
  destruct (URL_origin v); reflexivity.
Qed.

Lemma mapM_returns {A B} (f : A -> Throwing.Outcome B) (g : A -> B) (l : list A) :
  Forall (fun a => f a = Throwing.Returns (g a)) l ->
  Throwing.mapM f l = Throwing.Returns (map g l).
Proof.
  induction 1 as [|a l Ha Hl IH]; [reflexivity|].
  cbn [Throwing.mapM map]. rewrite Ha. cbn [Throwing.bind].
  fold (Throwing.mapM f l). rewrite IH. reflexivity.
Qed.

Lemma foldM_returns {A S} (step : S -> A -> Throwing.Outcome S) (pure : S -> A -> S)
      (l : list A) :
  Forall (fun a => forall s, step s a = Throwing.Returns (pure s a)) l ->
  forall s, Throwing.foldM step l s = Throwing.Returns (fold_left pure l s).
Proof.
  induction 1 as [|a l Ha Hl IH]; intros s; [reflexivity|].
  cbn [Throwing.foldM fold_left]. rewrite Ha. cbn [Throwing.bind].
  fold (Throwing.foldM step l). apply IH.
Qed.

(** Text truncation returns on every value: the one throw in it is
    caught. *)
Lemma truncateTextFields_returns (fields : list string) (data : value) :
  Throwing.truncateTextFields data fields
  = Throwing.Returns (truncateTextFields data fields).
Proof.
  induction data as [ | | | |items IH|props IH] using value_ind_nested; try reflexivity.
  - cbn [Throwing.truncateTextFields truncateTextFields].
    rewrite (mapM_returns _ (fun item => truncateTextFields item fields) items IH).
    reflexivity.
  - cbn [Throwing.truncateTextFields truncateTextFields].
    rewrite (foldM_returns _
               (fun result kv =>
                  match isLongText fields (fst kv) (snd kv) with
                  | Some s =>
                      assign result (fst kv)
                        (JStr (truncateText s))
                  | None =>
                      assign result (fst kv)
                        (truncateTextFields (snd kv) fields)
                  end)); [reflexivity|].
    eapply Forall_impl; [|exact IH]. intros kv Hkv result.
    destruct (isLongText fields (fst kv) (snd kv)) as [s|].
    + now rewrite truncateText_returns.
    + now rewrite Hkv.
Qed.

Lemma compactOnce_returns (o : CompactOptions) (parsed : value) (limit : Z) :
  Throwing.compactOnce o parsed limit
  = Throwing.Returns (compactOnce o parsed limit).
Proof.
  unfold Throwing.compactOnce, Throwing.compactValue, compactOnce, compactValue.
  destruct (optTruncateUrls o); [|reflexivity].
  rewrite truncateTextFields_returns. reflexivity.
Qed.

Lemma shrink_returns (o : CompactOptions) (parsed : value) (fuel : nat) :
  forall limit result,
    Throwing.shrink fuel o parsed limit result
    = Throwing.Returns (shrink fuel o parsed limit result).
Proof.
  induction fuel as [|fuel IH]; intros limit result; [reflexivity|].
  cbn [Throwing.shrink shrink].
  destruct ((maxTokens o <? TokenCounter.estimateJsonTokens result) && (5 <? limit))%bool;
    [|reflexivity].
  rewrite compactOnce_returns. cbn [Throwing.bind]. apply IH.
Qed.

Lemma compactParsed_returns (o : CompactOptions) (parsed : value) :
  Throwing.compactParsed o parsed
  = Throwing.Returns (compactParsed o parsed).
Proof.
  unfold Throwing.compactParsed, compactParsed.
  rewrite compactOnce_returns. cbn [Throwing.bind]. rewrite shrink_returns.
  cbn [Throwing.bind].
  destruct (shrink (Z.to_nat (optMaxArrayLength o)) o parsed
              (optMaxArrayLength o)
              (compactOnce o parsed (optMaxArrayLength o)))
    as [limit result].
  reflexivity.
Qed.


(** With a [JSON.parse] that returns what the parser of the model reads
    and throws where it reads nothing, this embedding and that of
    [DataCompactor] agree. *)
Lemma compactJson_agrees (data : value) (o : CompactOptions) :
  (forall text,
      match parse text with
      | Some v => Throwing.JSON_parse text = Throwing.Returns v
      | None => exists error, Throwing.JSON_parse text = Throwing.Throws error
      end) ->
  Throwing.compactJson data o = Throwing.Returns (compactJson data o).
Proof.
  intros Hparse. unfold Throwing.compactJson, compactJson.
  destruct data as [ | | |text| | ]; try apply compactParsed_returns.
  specialize (Hparse text). destruct (parse text) as [v|].
  - rewrite Hparse. apply compactParsed_returns.
  - destruct Hparse as [error ->]. reflexivity.
Qed.

End ThrowFacts.

(** ** The events, the records and the context of a run *)

Section RunFacts.
Import Json Agent Trace RunSpec.
Context {rt : JsRuntime} {env : AgentEnv}.
Variable this : AgentConfig.

(** X15.  The events of a run that returns are, with no tool configured,
    the one [done] event; and otherwise thinking and tool events, then one
    [answer_start], then answer chunks only, then one [done] as the last
    event, whose iteration count is at most [maxIterations].  A run that
    throws has yielded no [done]. *)
Theorem run_event_grammar (query : string) (h : option ChatHistory) (w : World) :
  match run this query h w with
  | ((evs, inr _), _) =>
      (tools this = [] /\ exists a, evs = [done a [] 0])
      \/ exists progress cs a tc it,
           evs = (progress ++ answer_start :: map answer_chunk cs ++ [done a tc it])%list
           /\ forallb isProgress progress = true
           /\ (it <= maxIterations this)%nat
  | ((evs, inl _), _) => forallb (fun ev => negb (isDone ev)) evs = true
  end.
Proof.
  unfold run. destruct (Nat.eqb (List.length (tools this)) 0) eqn:Htools.
  - unfold yield. left. apply Nat.eqb_eq, length_zero_iff_nil in Htools. eauto.
  - destruct (mainLoop_outcome this query (maxIterations this) 0 [] [] (newScratchpad query)
                (buildInitialPrompt query h) w eq_refl)
      as (evs & r & w' & -> & [[-> Hfin]|[[e ->] Hab]]).
    + right. destruct Hfin as (progress & cs & a & tc & it & -> & Hprog & _ & Hit & _).
      exists progress, cs, a, tc, it. repeat split; assumption.
    + exact Hab.
Qed.

Lemma toolStarts_app (a b : list AgentEvent) :
  toolStarts (a ++ b)%list = (toolStarts a ++ toolStarts b)%list.
Proof. apply flat_map_app. Qed.

Lemma toolStarts_chunks (cs : list string) : toolStarts (map answer_chunk cs) = [].
Proof. induction cs as [|c cs IH]; [reflexivity | exact IH]. Qed.

Lemma callsOutcome_calls calls evs rs :
  CallsOutcome calls evs rs ->
  toolStarts evs = map requested calls
  /\ map recordCall (map record rs) = map requested calls.
Proof.
  induction 1 as [|call calls closing r evs rs Hcall Hcalls [IHs IHr]]; [split; reflexivity|].
  split.
  - change (toolStarts ((tool_start (name call) (callArgs call) :: closing) ++ evs)%list)
      with (requested call :: toolStarts (closing ++ evs)%list).
    rewrite toolStarts_app, IHs. destruct Hcall; reflexivity.
  - simpl. rewrite IHr. destruct Hcall; reflexivity.
Qed.

(** X16.  The calls of one iteration never throw, whatever the tools, the
    store and the summarizing call do: every requested call gets its
    [tool_start] event, its record, its summary and its prompt entry, in the
    order the model asked for them, and the events of one call come before
    the [tool_start] of the next. *)
Theorem executeToolCalls_one_result_per_call (response : AIMessage) (query : string)
        (w : World) :
  exists evs res w',
    executeToolCalls this response query w = ((evs, inr res), w')
    /\ Blocks (tool_calls response) evs
    /\ toolStarts evs = map requested (tool_calls response)
    /\ map recordCall (records res) = map requested (tool_calls response)
    /\ List.length (summaries res) = List.length (tool_calls response)
    /\ List.length (promptEntries res) = List.length (tool_calls response).
Proof.
  unfold executeToolCalls.
  destruct (executeEach_outcome this query (tool_calls response) (mkExecs [] [] []) w)
    as (evs & rs & w' & Heq & Hout).
  exists evs, (collect (mkExecs [] [] []) rs), w'. split; [exact Heq|].
  split; [exact (callsOutcome_blocks _ _ _ Hout)|].
  destruct (callsOutcome_calls _ _ _ Hout) as [Hstarts Hrecords].
  pose proof (callsOutcome_length _ _ _ Hout) as Hlen.
  unfold collect. cbn [records summaries promptEntries app].
  rewrite !length_map. auto.
Qed.

Lemma mainLoop_records (query : string) (remaining : nat) :
  forall iteration allToolCalls allSummaries scratchpad currentPrompt w evs w',
    List.length allToolCalls = List.length allSummaries ->
    mainLoop this remaining iteration query allToolCalls allSummaries scratchpad
             currentPrompt w = ((evs, inr tt), w') ->
    exists pre a tc it,
      evs = (pre ++ [done a tc it])%list
      /\ map recordCall tc = (map recordCall allToolCalls ++ toolStarts pre)%list.
Proof.
  induction remaining as [|remaining IH];
    intros iteration allToolCalls allSummaries scratchpad currentPrompt w evs w' Hlen Hrun.
  - cbn [mainLoop] in Hrun.
    destruct (finish_outcome this query allToolCalls allSummaries iteration
                             (Some (maxIterationsMessage this)) w)
      as (cs & w1 & [E|[e E]]); rewrite E in Hrun; [|discriminate Hrun].
    injection Hrun as <- <-.
    exists (answer_start :: map answer_chunk cs),
      (closingAnswer cs (Some (maxIterationsMessage this)) w1), allToolCalls, iteration.
    split; [reflexivity|].
    change (toolStarts (answer_start :: map answer_chunk cs))
      with (toolStarts (map answer_chunk cs)).
    now rewrite toolStarts_chunks, app_nil_r.
  - cbn [mainLoop] in Hrun. unfold bind at 1 in Hrun. unfold callModel, await in Hrun.
    revert Hrun.
    match goal with
    | |- context [callLlm ?a ?b ?x] => destruct (callLlm a b x) as [[e|response] w1]
    end; [discriminate|].
    destruct (hasToolCalls response) eqn:Hcalls.
    + rewrite andb_true_r. cbn [negb].
      unfold executeToolCalls.
      destruct (executeEach_outcome this query (tool_calls response) (mkExecs [] [] []) w1)
        as (toolEvs & rs & w2 & Hexec & Hcallsout).
      set (thought := if negb (extractTextContent response =? "")%string
                      then [thinking (extractTextContent response)] else []).
      intros Hrun.
      assert (Hrest :
                exists evs',
                  evs = (thought ++ toolEvs ++ evs')%list
                  /\ mainLoop this remaining (S iteration) query
                       (allToolCalls ++ records (collect (mkExecs [] [] []) rs))%list
                       (allSummaries ++ summaries (collect (mkExecs [] [] []) rs))%list
                       (fold_left addToolEntry
                          (promptEntries (collect (mkExecs [] [] []) rs))
                          (if negb (extractTextContent response =? "")%string
                           then addThinking scratchpad (extractTextContent response)
                           else scratchpad))
                       (Prompts.buildIterationPrompt query
                          (getToolSummaries
                             (fold_left addToolEntry
                                (promptEntries (collect (mkExecs [] [] []) rs))
                                (if negb (extractTextContent response =? "")%string
                                 then addThinking scratchpad (extractTextContent response)
                                 else scratchpad))))
                       w2 = ((evs', inr tt), w')).
      { revert Hrun. unfold bind. subst thought.
        destruct (negb (extractTextContent response =? "")%string);
          unfold yield, ret; rewrite Hexec;
          match goal with
          | |- context [mainLoop ?t ?a ?b ?c ?d ?e ?f ?g ?x] =>
              destruct (mainLoop t a b c d e f g x) as [[evs' r'] w3]
          end;
          intros Hrun; injection Hrun as <- -> <-; eexists; split; reflexivity. }
      destruct Hrest as (evs' & -> & Hloop).
      apply IH in Hloop;
        [|unfold collect; simpl; rewrite !length_app, !length_map; lia].
      destruct Hloop as (pre & a & tc & it & -> & Htc).
      exists (thought ++ toolEvs ++ pre)%list, a, tc, it.
      split; [now rewrite <- !app_assoc|].
      rewrite Htc, !toolStarts_app, map_app.
      destruct (callsOutcome_calls _ _ _ Hcallsout) as [-> Hrecs].
      unfold collect. cbn [records app]. rewrite Hrecs.
      assert (Hthought : toolStarts thought = [])
        by (subst thought; destruct (negb _); reflexivity).
      rewrite Hthought. cbn [app]. now rewrite <- app_assoc.
    + rewrite andb_false_r. cbn [negb]. unfold bind at 1. unfold ret at 1.
      destruct ((List.length allSummaries =? 0)%nat
                && negb (extractTextContent response =? "")%string)%bool eqn:Hdirect.
      * apply andb_prop in Hdirect. destruct Hdirect as [Hnone _].
        apply Nat.eqb_eq in Hnone.
        assert (HnoCalls : allToolCalls = [])
          by (apply length_zero_iff_nil; congruence).
        unfold bind, yield. cbn [app]. intros Hrun. injection Hrun as <- <-.
        exists [answer_start; answer_chunk (extractTextContent response)],
          (extractTextContent response), [], (S iteration).
        split; [reflexivity|]. subst allToolCalls. reflexivity.
      * destruct (finish_outcome this query allToolCalls allSummaries (S iteration) None w1)
          as (cs & w2 & [E|[e E]]); rewrite E; [|discriminate].
        intros Hrun. injection Hrun as <- <-.
        exists (answer_start :: map answer_chunk cs), (closingAnswer cs None w2),
          allToolCalls, (S iteration).
        split; [reflexivity|].
        change (toolStarts (answer_start :: map answer_chunk cs))
          with (toolStarts (map answer_chunk cs)).
        now rewrite toolStarts_chunks, app_nil_r.
Qed.

(** X17.  In a run that ends with [done], the records of
    [done.toolCalls] are of the calls that the [tool_start] events announced:
    one record per [tool_start], in the same order, with the same tool and
    arguments. *)
Theorem done_records_follow_tool_starts (query : string) (h : option ChatHistory)
        (w : World) pre a tc it r w' :
  run this query h w = (((pre ++ [done a tc it])%list, r), w') ->
  map recordCall tc = toolStarts pre.
Proof.
  unfold run. destruct (Nat.eqb (List.length (tools this)) 0).
  - unfold yield. intros Hrun. injection Hrun as Hevs _ _.
    change [done "No tools available. Please check your API key configuration." [] 0]
      with ([] ++ [done "No tools available. Please check your API key configuration." [] 0])%list
      in Hevs.
    apply app_inj_tail in Hevs. destruct Hevs as [<- Hdone].
    injection Hdone as _ <- _. reflexivity.
  - intros Hrun.
    destruct (mainLoop_outcome this query (maxIterations this) 0 [] [] (newScratchpad query)
                (buildInitialPrompt query h) w eq_refl)
      as (evs & r0 & w0 & Hloop & Hout).
    pose proof Hloop as Hloop'. rewrite Hrun in Hloop'. injection Hloop' as <- <- <-.
    destruct Hout as [[-> _]|[_ Hab]];
      [|exfalso; eapply aborted_no_done; [|exact Hab]; reflexivity].
    destruct (mainLoop_records query (maxIterations this) 0 [] [] _ _ w _ w' eq_refl Hrun)
      as (pre' & a' & tc' & it' & Hevs & Htc).
    apply app_inj_tail in Hevs. destruct Hevs as [-> Hdone].
    injection Hdone as -> -> ->. exact Htc.
Qed.

(** X18.  The first reply of the model decides a run with tools and at
    least one iteration: when the call throws, the run throws the same value
    and yields nothing; when the reply has text and asks for no tool, the run
    yields the text as the one chunk of the answer and ends after one
    iteration with no tool call, and nothing else is called. *)
Theorem run_first_reply (query : string) (h : option ChatHistory) (w : World) :
  tools this <> [] ->
  (0 < maxIterations this)%nat ->
  match callLlm (buildInitialPrompt query h)
                (mkLlmOptions (model this) (systemPrompt this) (Some (tools this))) w with
  | (inl e, w1) => run this query h w = (([], inl e), w1)
  | (inr response, w1) =>
      hasToolCalls response = false ->
      extractTextContent response <> "" ->
      run this query h w
      = (([answer_start; answer_chunk (extractTextContent response);
           done (extractTextContent response) [] 1], inr tt), w1)
  end.
Proof.
  intros Htools Hmax. unfold run.
  destruct (Nat.eqb_spec (List.length (tools this)) 0) as [E|_];
    [apply length_zero_iff_nil in E; congruence|].
  destruct (maxIterations this) as [|n]; [lia|].
  destruct (callLlm (buildInitialPrompt query h)
                    (mkLlmOptions (model this) (systemPrompt this) (Some (tools this))) w)
    as [[e|response] w1] eqn:Hcall; [|intros Hnone Htext];
    cbn [mainLoop]; unfold bind, callModel, await; rewrite Hcall; [reflexivity|].
  rewrite Hnone. apply String.eqb_neq in Htext. rewrite Htext. reflexivity.
Qed.

Lemma filepathsOf_failed (summaries : list ToolSummary) :
  Forall (fun s => id s = "") summaries -> filepathsOf summaries = [].
Proof.
  induction 1 as [|s summaries Hs Hall IH]; [reflexivity|].
  unfold filepathsOf in *. simpl. rewrite Hs. exact IH.
Qed.

(** X19.  When no summary has an id (no call was made, or every call
    failed), the context of the final answer is a fixed message, and the
    store is not asked for anything. *)
Theorem buildFullContextForAnswer_nothing_stored (summaries : list ToolSummary)
        (query : string) (w : World) :
  Forall (fun s => id s = "") summaries ->
  buildFullContextForAnswer this summaries query w
  = (([], inr (match summaries with
               | [] => "No data was gathered."
               | _ :: _ => "No data was successfully gathered."
               end)), w).
Proof.
  intros Hfailed. unfold buildFullContextForAnswer.
  rewrite (filepathsOf_failed summaries Hfailed).
  destruct summaries; reflexivity.
Qed.

Lemma tokensOf_app (a b : list string) : tokensOf (a ++ b)%list = tokensOf a + tokensOf b.
Proof. induction a as [|x a IH]; simpl; [reflexivity | rewrite IH; lia]. Qed.

Lemma formatContexts_from (query : string) (total perResultBudget totalBudget : Z)
      (contexts : list FullContext) :
  forall totalTokens formattedContexts,
  exists k,
    (k <= List.length contexts)%nat
    /\ let kept := map (formatted query perResultBudget) (firstn k contexts) in
       totalTokens + tokensOf kept <= Z.max totalTokens totalBudget
       /\ formatContexts contexts query total perResultBudget totalBudget totalTokens
                         formattedContexts
          = (if Nat.ltb k (List.length contexts)
             then formattedContexts ++ kept
                  ++ [omittedNote (total - Z.of_nat (List.length formattedContexts)
                                   - Z.of_nat k)]
             else formattedContexts ++ kept)%list
       /\ (Nat.ltb k (List.length contexts) = true ->
           totalBudget
           < totalTokens
             + tokensOf (map (formatted query perResultBudget) (firstn (S k) contexts))).
Proof.
  induction contexts as [|ctx rest IH]; intros totalTokens formattedContexts.
  - exists O. split; [reflexivity|]. cbv zeta. simpl.
    split; [lia|]. split; [now rewrite app_nil_r | discriminate].
  - cbn [formatContexts]. fold (formatted query perResultBudget ctx).
    set (tokens := TokenCounter.estimateTokens (formatted query perResultBudget ctx)
                                                TokenCounter.json).
    destruct (Z.ltb_spec totalBudget (totalTokens + tokens)) as [Hover|Hfits].
    + exists O. split; [simpl; lia|]. cbv zeta. cbn [firstn map tokensOf fold_right].
      split; [lia|]. split.
      * cbn [Nat.ltb Nat.leb List.length app]. unfold omittedNote.
        now rewrite Z.sub_0_r.
      * intros _. fold tokens. lia.
    + destruct (IH (totalTokens + tokens)
                   (formattedContexts ++ [formatted query perResultBudget ctx])%list)
        as (k & Hk & Hsum & Heq & Hnext).
      exists (S k). split; [simpl; lia|]. cbv zeta.
      cbn [firstn map tokensOf fold_right]. fold tokens.
      fold (tokensOf (map (formatted query perResultBudget) (firstn k rest))).
      split; [lia|]. split.
      * rewrite Heq. change (Nat.ltb (S k) (List.length (ctx :: rest)))
          with (Nat.ltb k (List.length rest)).
        rewrite length_app. cbn [List.length].
        replace (total - Z.of_nat (List.length formattedContexts + 1) - Z.of_nat k)
          with (total - Z.of_nat (List.length formattedContexts) - Z.of_nat (S k)) by lia.
        destruct (Nat.ltb k (List.length rest)); now rewrite <- app_assoc.
      * change (Nat.ltb (S k) (List.length (ctx :: rest)))
          with (Nat.ltb k (List.length rest)).
        intros Hlt. specialize (Hnext Hlt).
        cbn [firstn map tokensOf fold_right] in Hnext |- *. fold tokens in Hnext |- *.
        lia.
Qed.

(** X20.  The loaded contexts enter the final prompt in order, each as a
    heading and its compacted result, up to the first one whose estimate
    would take the total above the budget; that one and all after it are
    left out, and one note counts them.  The estimates of the entries kept
    sum to at most the budget. *)
Theorem formatContexts_within_budget (contexts : list FullContext) (query : string)
        (perResultBudget totalBudget : Z) :
  0 <= totalBudget ->
  exists k,
    (k <= List.length contexts)%nat
    /\ let kept := map (formatted query perResultBudget) (firstn k contexts) in
       tokensOf kept <= totalBudget
       /\ formatContexts contexts query (Z.of_nat (List.length contexts)) perResultBudget
                         totalBudget 0 []
          = (if Nat.ltb k (List.length contexts)
             then kept ++ [omittedNote (Z.of_nat (List.length contexts - k))]
             else kept)%list
       /\ (Nat.ltb k (List.length contexts) = true ->
           totalBudget
           < tokensOf (map (formatted query perResultBudget) (firstn (S k) contexts))).
Proof.
  intros Hbudget.
  destruct (formatContexts_from query (Z.of_nat (List.length contexts)) perResultBudget
                                totalBudget contexts 0 [])
    as (k & Hk & Hsum & Heq & Hnext).
  exists k. split; [exact Hk|]. cbv zeta in *. split; [lia|]. split.
  - rewrite Heq. cbn [app List.length].
    replace (Z.of_nat (List.length contexts) - Z.of_nat 0 - Z.of_nat k)
      with (Z.of_nat (List.length contexts - k)) by lia.
    reflexivity.
  - intros Hlt. specialize (Hnext Hlt). lia.
Qed.

End RunFacts.

(** ** Tool calls that fail *)

Section FailureFacts.
Import Json Agent Trace RunSpec.
Context {rt : JsRuntime} {env : AgentEnv}.
Variable this : AgentConfig.

Lemma filepathsOf_successful (summaries : list ToolSummary) :
  filepathsOf (filter (fun s => 0 <? Js.len (id s)) summaries) = filepathsOf summaries.
Proof.
  unfold filepathsOf. induction summaries as [|s summaries IH]; [reflexivity|].
  cbn [filter map]. destruct (0 <? Js.len (id s)) eqn:E; cbn [filter map]; rewrite ?E, IH;
    reflexivity.
Qed.

Lemma filepathsOf_ids (summaries : list ToolSummary) :
  filepathsOf summaries = map id (filter (fun s => 0 <? Js.len (id s)) summaries).
Proof.
  unfold filepathsOf. induction summaries as [|s summaries IH]; [reflexivity|].
  cbn [filter map]. destruct (0 <? Js.len (id s)); cbn [map]; now rewrite IH.
Qed.


End FailureFacts.

(** ** Evaluations on the sample runtime and collaborators *)

Section Evaluations.
Import Json QueryAnalyzer DataCompactor Agent Trace SampleData.

Lemma analyzeQuery_aapl_witness :
  0 <= Calendar.sampleNow <= 8640000000000000
  /\ exists start,
       dateRanges (@analyzeQuery (Calendar.runtimeAt Calendar.sampleNow)
                                 "What was AAPL's return over the past 2 years?")
       = [mkRange (Some start) (Some Calendar.sampleNow)]
       /\ Calendar.sampleNow - 731 * Calendar.msPerDay <= start
          <= Calendar.sampleNow - 730 * Calendar.msPerDay.
Proof.
  assert (Hnow : 0 <= Calendar.sampleNow <= 8640000000000000)
    by (unfold Calendar.sampleNow; cbn; lia).
  split; [exact Hnow|].
  exact (proj2 analyzeQuery_aapl_past_2_years Calendar.sampleNow Hnow).
Defined.

(** *** The tests of data-compactor.test.ts *)

Example test_minify :
  @compactJson rt0 (JObj [("foo", JStr "bar"); ("nested", JObj [("a", JNum "1")])])
               (budget 1000)
  = "{" ++ quoted "foo" ++ ":" ++ quoted "bar" ++ "," ++ quoted "nested" ++ ":{"
        ++ quoted "a" ++ ":1}}".
Proof. vm_compute. reflexivity. Qed.

Example test_remove_verbose_fields :
  parse (@compactJson rt0
           (JObj [("ticker", JStr "AAPL"); ("price", JNum "150");
                  ("reportedCurrency", JStr "USD"); ("acceptedDate", JStr "2024-01-01");
                  ("fillingDate", JStr "2024-01-02"); ("cik", JStr "123456")])
           (mkOptions 1000 None (Some true) None None None None))
  = Some (JObj [("ticker", JStr "AAPL"); ("price", JNum "150")]).
Proof. vm_compute. reflexivity. Qed.

Example test_truncate_urls :
  parse (@compactJson rt0
           (JObj [("title", JStr "Test");
                  ("url", JStr "https://example.com/article");
                  ("banner_image",
                   JStr "https://images.example.com/very/long/path/to/image.jpg?with=params");
                  ("source_url",
                   JStr "https://source.example.com/very/long/path/to/source?id=123")])
           (mkOptions 1000 None None (Some true) None None None))
  = Some (JObj [("title", JStr "Test");
                ("url", JStr "https://example.com/article");
                ("banner_image", JStr "https://images.example.com/...");
                ("source_url", JStr "https://source.example.com/...")]).
Proof. vm_compute. reflexivity. Qed.

Example test_progressive_reduction :
  let result := @compactJson rt0 largeArray (budget 500) in
  parsedLength result "data" = Some 16%nat
  /\ TokenCounter.estimateJsonTokens result = 500.
Proof. vm_compute. split; reflexivity. Qed.

Example test_string_input :
  @compactJson rt0 (JStr ("{" ++ quoted "test" ++ ": " ++ quoted "value" ++ "}")) (budget 1000)
  = "{" ++ quoted "test" ++ ":" ++ quoted "value" ++ "}".
Proof. vm_compute. reflexivity. Qed.

Example test_invalid_json :
  @compactJson rt0 (JStr "not valid json") (budget 1000) = "not valid json".
Proof. vm_compute. reflexivity. Qed.

Example test_estimate_json :
  TokenCounter.estimateTokens ("{" ++ quoted "key" ++ ":" ++ quoted "value" ++ "}")
                              TokenCounter.json = 5.
Proof. vm_compute. reflexivity. Qed.

(** *** Array truncation *)

Example truncateArrays_newest_first :
  @truncateArrays rt0 (JArr pricesNewestFirst) 3
  = JArr [pricePoint "2026-01-20" "100"; pricePoint "2026-01-19" "99";
          pricePoint "2026-01-18" "98"].
Proof. vm_compute. reflexivity. Qed.

Example truncateArrays_oldest_first :
  @truncateArrays rt0 (JArr (rev pricesNewestFirst)) 3
  = JArr [pricePoint "2026-01-18" "98"; pricePoint "2026-01-19" "99";
          pricePoint "2026-01-20" "100"].
Proof. vm_compute. reflexivity. Qed.

(** C4.  When the first two elements carry the same date the ordering
    is reported as oldest-first and the last N elements are kept: of six
    prices that start with two of 2026-01-20 and go back in time, the
    truncation to 3 keeps the three oldest. *)
Theorem truncateArrays_equal_dates_keeps_tail :
  @detectDateOrdering rt0 pricesSameDayFirst = oldest_first
  /\ @truncateArrays rt0 (JArr pricesSameDayFirst) 3
     = JArr [pricePoint "2026-01-18" "98"; pricePoint "2026-01-17" "97";
             pricePoint "2026-01-16" "96"]
  /\ @truncateArrays rt0 (JArr pricesSameDayFirst) 3
     <> JArr (firstn 3 pricesSameDayFirst).
Proof.
  split; [vm_compute; reflexivity|].
  assert (E : @truncateArrays rt0 (JArr pricesSameDayFirst) 3
              = JArr [pricePoint "2026-01-18" "98"; pricePoint "2026-01-17" "97";
                      pricePoint "2026-01-16" "96"])
    by (vm_compute; reflexivity).
  split; [exact E|]. rewrite E. discriminate.
Qed.

(** *** Budget *)

(** An object without arrays that is above the budget: the shrink cannot
    reduce it, the hard truncation marks it, and the estimate of the
    output is 14 against a budget of 10. *)
Lemma compactJson_over_budget :
  maxTokens (budget 10)
  < TokenCounter.estimateJsonTokens (@compactJson rt0 longDescription (budget 10)).
Proof. vm_compute. reflexivity. Qed.

Lemma compactJson_budget_witness :
  0 <= maxTokens (budget 10)
  /\ TokenCounter.estimateJsonTokens (@compactJson rt0 longDescription (budget 10))
     <= maxTokens (budget 10) + 4.
Proof.
  split; [cbn; lia|].
  apply (@compactJson_budget rt0 longDescription (budget 10)).
  cbn. lia.
Defined.


(** *** Idempotence *)



(** The query filter is not idempotent either: the date field is read off
    the first element, and the first element changes when the filter drops
    it.  With the year 2020 in the query, the element dated 2010 by its
    [date] goes first, and on the second compaction the elements are judged
    by [timestamp]. *)
Lemma filterByQueryContext_not_idempotent :
  @compactJson rt0 mixedDates about2020
  = stringify (JArr [ JObj [("timestamp", JStr "2020-06-01")];
                      JObj [("timestamp", JStr "2010-01-01")] ])
  /\ @compactJson rt0 (JStr (@compactJson rt0 mixedDates about2020)) about2020
     = stringify (JArr [ JObj [("timestamp", JStr "2020-06-01")] ]).
Proof. split; vm_compute; reflexivity. Qed.

(** *** Agent *)

(** C2.  The tool answers and the summarizing call throws: the one
    [tool_start] is followed by [tool_end] and then by [tool_error]. *)
Theorem executeToolCalls_end_then_error :
  fst (fst (@executeToolCalls (Sample.environment Sample.summarizerFails)
              (Sample.agent Sample.summarizerFails 1)
              (Sample.mkMessage "" [Sample.searchCall]) "q" tt))
  = [ tool_start "financial_search" [("query", JStr "AAPL price")];
      tool_end "financial_search" [("query", JStr "AAPL price")] priceResult 0;
      tool_error "financial_search" "timeout" ].
Proof. vm_compute. reflexivity. Qed.

(** The loop ends at [maxIterations] and the stream yields nothing:
    [answer_start] is followed by no chunk, and the answer of [done] is the
    message that the maximum was reached. *)
Lemma done_answer_not_streamed :
  exists pre tc,
    @run rt0 (Sample.environment Sample.silentStream)
         (Sample.agent Sample.silentStream 1) "q" None tt
    = (((pre ++ [done "Reached maximum iterations (1). " tc 1])%list, inr tt), tt)
    /\ streamed pre = ""
    /\ String.eqb "Reached maximum iterations (1). " (streamed pre) = false.
Proof.
  exists [ tool_start "financial_search" [("query", JStr "AAPL price")];
           tool_end "financial_search" [("query", JStr "AAPL price")] priceResult 0;
           answer_start ].
  eexists. split; [vm_compute; reflexivity|]. split; reflexivity.
Qed.

Lemma sample_run_unknown_tool :
  @run rt0 (Sample.environment Sample.unknownTool)
       (Sample.agent Sample.unknownTool 1) "q" None tt
  = ((([ tool_start "web_search" [];
         tool_error "web_search" "Tool 'web_search' not found";
         answer_start; answer_chunk "Done." ]
       ++ [done "Done." [mkRecord "web_search" [] "Error: Tool 'web_search' not found"] 1])%list,
      inr tt), tt).
Proof. vm_compute. reflexivity. Qed.

Lemma done_answer_streamed_witness :
  @run rt0 (Sample.environment Sample.unknownTool)
       (Sample.agent Sample.unknownTool 1) "q" None tt
  = ((([ tool_start "web_search" [];
         tool_error "web_search" "Tool 'web_search' not found";
         answer_start; answer_chunk "Done." ]
       ++ [done "Done." [mkRecord "web_search" [] "Error: Tool 'web_search' not found"] 1])%list,
      inr tt), tt)
  /\ ("Done." = streamed [ tool_start "web_search" [];
                           tool_error "web_search" "Tool 'web_search' not found";
                           answer_start; answer_chunk "Done." ]
      \/ (tools (Sample.agent Sample.unknownTool 1) = []
          /\ [ tool_start "web_search" [];
               tool_error "web_search" "Tool 'web_search' not found";
               answer_start; answer_chunk "Done." ] = []
          /\ "Done." = "No tools available. Please check your API key configuration.")
      \/ (1%nat = maxIterations (Sample.agent Sample.unknownTool 1)
          /\ streamed [ tool_start "web_search" [];
                        tool_error "web_search" "Tool 'web_search' not found";
                        answer_start; answer_chunk "Done." ] = ""
          /\ exists w0, "Done." = maxIterationsMessage (Sample.agent Sample.unknownTool 1) w0)).
Proof.
  split; [exact sample_run_unknown_tool|].
  exact (@done_answer_streamed rt0 (Sample.environment Sample.unknownTool)
           (Sample.agent Sample.unknownTool 1) "q" None tt _ _ _ _ (inr tt) tt
           sample_run_unknown_tool).
Defined.

Lemma sample_run_tool_fails :
  @run rt0 (Sample.environment Sample.toolFails)
       (Sample.agent Sample.toolFails 1) "q" None tt
  = ((([ tool_start "financial_search" [("query", JStr "AAPL price")];
         tool_error "financial_search" "API down";
         answer_start; answer_chunk "Done." ]
       ++ [done "Done."
             [mkRecord "financial_search" [("query", JStr "AAPL price")] "Error: API down"]
             1])%list,
      inr tt), tt).
Proof. vm_compute. reflexivity. Qed.


(** *** Further evaluations *)

Lemma isDateRelevant_tolerance_witness :
  1 <= 2
  /\ @isDateRelevant rt0 "2019-06-30" (mkContext [2020] [] [] [] false []) 1 = true
  /\ @isDateRelevant rt0 "2019-06-30" (mkContext [2020] [] [] [] false []) 2 = true.
Proof.
  assert (Hle : 1 <= 2) by lia.
  assert (H1 : @isDateRelevant rt0 "2019-06-30" (mkContext [2020] [] [] [] false []) 1 = true)
    by (vm_compute; reflexivity).
  split; [exact Hle|]. split; [exact H1|].
  exact (proj1 (@isDateRelevant_tolerance rt0 "2019-06-30"
                  (mkContext [2020] [] [] [] false []) 1 2 Hle) H1).
Defined.

(** With the year 2020 in the context the minimal relevant date is the
    first of January 2020, before the default of two years back. *)
Lemma getMinRelevantDate_earliest_witness :
  @Date_setFullYear rt0 (@Date_now rt0) (@Date_getFullYear rt0 (@Date_now rt0) - 2)
  = Some (Calendar.daysFromCivil 2024 1 21 * Calendar.msPerDay + 43200000)
  /\ exists m,
       @getMinRelevantDate rt0 (mkContext [2020] [] [] [] false []) = Some m
       /\ m <= Calendar.daysFromCivil 2024 1 21 * Calendar.msPerDay + 43200000
       /\ m <= @Date_local rt0 2020 0 1.
Proof.
  assert (H1 : @Date_setFullYear rt0 (@Date_now rt0) (@Date_getFullYear rt0 (@Date_now rt0) - 2)
               = Some (Calendar.daysFromCivil 2024 1 21 * Calendar.msPerDay + 43200000))
    by (vm_compute; reflexivity).
  split; [exact H1|].
  destruct (@getMinRelevantDate_earliest rt0 (mkContext [2020] [] [] [] false []) _ H1
              (Forall_nil _))
    as (m & Hm & Hle & _ & Hyear & _).
  exists m. split; [exact Hm|]. split; [exact Hle|].
  destruct (Hyear ltac:(discriminate)) as (y & [<-|[]] & _ & Hy). exact Hy.
Defined.

Lemma truncateArrays_caps_every_array_witness :
  0 < 3
  /\ @truncateArrays rt0 (@truncateArrays rt0 pricesObject 3) 3
     = @truncateArrays rt0 pricesObject 3.
Proof.
  assert (Hpos : 0 < 3) by lia.
  split; [exact Hpos|].
  exact (proj2 (@truncateArrays_caps_every_array rt0 pricesObject 3 Hpos)).
Defined.

Lemma truncateArrays_keeps_one_end_witness :
  0 < 3 < Z.of_nat (List.length (rev pricesNewestFirst))
  /\ @truncateArrays rt0 (JArr (rev pricesNewestFirst)) 3
     = JArr (map (fun item => @truncateArrays rt0 item 3)
                 (match @detectDateOrdering rt0 (rev pricesNewestFirst) with
                  | oldest_first =>
                      skipn (List.length (rev pricesNewestFirst) - Z.to_nat 3)
                            (rev pricesNewestFirst)
                  | _ => firstn (Z.to_nat 3) (rev pricesNewestFirst)
                  end)).
Proof.
  assert (Hlen : 0 < 3 < Z.of_nat (List.length (rev pricesNewestFirst))) by (cbn; lia).
  split; [exact Hlen|].
  exact (proj1 (@truncateArrays_keeps_one_end rt0 (rev pricesNewestFirst) 3 Hlen)).
Defined.

(** Six prices, oldest first, truncated at the limit 0: all six stay. *)
Lemma truncateArrays_limit_zero_witness :
  @truncateArrays rt0 (JArr (rev pricesNewestFirst)) 0
  = match @detectDateOrdering rt0 (rev pricesNewestFirst) with
    | oldest_first =>
        JArr (map (fun item => @truncateArrays rt0 item 0) (rev pricesNewestFirst))
    | _ => JArr []
    end.
Proof.
  apply (@truncateArrays_limit_zero rt0 (rev pricesNewestFirst)). discriminate.
Defined.

(** No price is of 2010: the filter falls back to the first elements. *)
Lemma filterByQueryContext_keeps_something_witness :
  exists kept,
    @filterByQueryContext rt0 (JArr pricesNewestFirst) (mkContext [2010] [] [] [] false [])
    = JArr kept
    /\ kept <> []
    /\ (List.length kept <= List.length pricesNewestFirst)%nat.
Proof.
  apply (@filterByQueryContext_keeps_something rt0 pricesNewestFirst). discriminate.
Defined.

Lemma detectDateOrdering_reversed_witness :
  @detectDateOrdering rt0 [pricePoint "2026-01-20" "100"; pricePoint "2026-01-19" "99"]
  = newest_first
  /\ @detectDateOrdering rt0 [pricePoint "2026-01-19" "99"; pricePoint "2026-01-20" "100"]
     = oldest_first.
Proof.
  assert (H : @detectDateOrdering rt0
                [pricePoint "2026-01-20" "100"; pricePoint "2026-01-19" "99"]
              = newest_first) by (vm_compute; reflexivity).
  split; [exact H|].
  exact (@detectDateOrdering_reversed rt0 _ _ [] [] H).
Defined.

Lemma compactParsed_final_cap_witness :
  0 < optMaxArrayLength (budget 500)
  /\ exists cap,
       0 < cap <= optMaxArrayLength (budget 500)
       /\ (cap = optMaxArrayLength (budget 500) \/ 4 <= cap)
       /\ CompactorSpec.Normal cap (@compactValue rt0 (budget 500) largeArray cap)
       /\ @compactParsed rt0 (budget 500) largeArray
          = hardTruncate (budget 500)
              (serialize (budget 500) (@compactValue rt0 (budget 500) largeArray cap))
       /\ (TokenCounter.estimateJsonTokens
             (serialize (budget 500) (@compactValue rt0 (budget 500) largeArray cap))
           <= maxTokens (budget 500)
           \/ cap <= 5).
Proof.
  assert (Hpos : 0 < optMaxArrayLength (budget 500)) by (vm_compute; reflexivity).
  split; [exact Hpos|].
  exact (@compactParsed_final_cap rt0 (budget 500) largeArray Hpos).
Defined.

(** The six prices in an object need no compaction at the default
    options. *)
Lemma compactJson_lossless_witness :
  @compactJson rt0 pricesObject (budget 1000) = serialize (budget 1000) pricesObject.
Proof.
  apply (@compactJson_lossless rt0 pricesObject pricesObject (budget 1000)).
  - reflexivity.
  - repeat first [ constructor | reflexivity ].
  - reflexivity.
  - repeat first [ constructor | cbn; lia | (simpl; intuition discriminate) ].
  - intros _. repeat first [ constructor | reflexivity | (simpl; intuition discriminate) ].
  - intros _. repeat first [ constructor | reflexivity | (simpl; intuition discriminate) ].
  - apply Z.leb_le. vm_compute. reflexivity.
Defined.

Lemma done_records_follow_tool_starts_witness :
  map RunSpec.recordCall [mkRecord "web_search" [] "Error: Tool 'web_search' not found"]
  = RunSpec.toolStarts [ tool_start "web_search" [];
                         tool_error "web_search" "Tool 'web_search' not found";
                         answer_start; answer_chunk "Done." ].
Proof.
  exact (@done_records_follow_tool_starts rt0 (Sample.environment Sample.unknownTool)
           (Sample.agent Sample.unknownTool 1) "q" None tt _ _ _ _ (inr tt) tt
           sample_run_unknown_tool).
Defined.

(** The model answers at once: one chunk, one iteration, no tool call. *)
Lemma run_first_reply_witness :
  @run rt0 (Sample.environment Sample.directReply) (Sample.agent Sample.directReply 1)
       "q" None tt
  = (([answer_start; answer_chunk "Hello."; done "Hello." [] 1], inr tt), tt).
Proof.
  refine (@run_first_reply rt0 (Sample.environment Sample.directReply)
            (Sample.agent Sample.directReply 1) "q" None tt _ _ _ _).
  - discriminate.
  - cbn. lia.
  - reflexivity.
  - discriminate.
Defined.

Lemma buildFullContextForAnswer_nothing_stored_witness :
  @buildFullContextForAnswer rt0 (Sample.environment Sample.unknownTool)
    (Sample.agent Sample.unknownTool 1)
    [mkSummary "" "web_search" [] "web_search [FAILED]"] "q" tt
  = (([], inr "No data was successfully gathered."), tt).
Proof.
  apply (@buildFullContextForAnswer_nothing_stored rt0 (Sample.environment Sample.unknownTool)
           (Sample.agent Sample.unknownTool 1)
           [mkSummary "" "web_search" [] "web_search [FAILED]"] "q" tt).
  repeat constructor.
Defined.

Lemma formatContexts_within_budget_witness :
  0 <= 150000
  /\ exists k,
       (k <= 1)%nat
       /\ RunSpec.tokensOf
            (map (@RunSpec.formatted rt0 (Sample.environment Sample.silentStream) "q" 40000)
                 (firstn k [mkFullContext "financial_search" []
                                          (JObj [("price", JNum "100")])]))
          <= 150000.
Proof.
  assert (Hbudget : 0 <= 150000) by lia.
  split; [exact Hbudget|].
  destruct (@formatContexts_within_budget rt0 (Sample.environment Sample.silentStream)
              [mkFullContext "financial_search" [] (JObj [("price", JNum "100")])]
              "q" 40000 150000 Hbudget)
    as (k & Hk & Hsum & _).
  exists k. split; [exact Hk | exact Hsum].
Defined.

Lemma extractYears_range_witness :
  In 2020 (extractYears "2020 revenue, FY20 guidance")
  /\ (1980 <= 2020 <= 2039
      \/ (Regex.matches true fyPattern "2020 revenue, FY20 guidance" <> []
          /\ 100 <= 2020 <= 9999)).
Proof.
  assert (Hin : In 2020 (extractYears "2020 revenue, FY20 guidance"))
    by (vm_compute; left; reflexivity).
  split; [exact Hin|].
  exact (extractYears_range "2020 revenue, FY20 guidance" 2020 Hin).
Defined.

Lemma extractTickers_shape_witness :
  In "AAPL" (extractTickers "What was AAPL's return over the past 2 years?")
  /\ exists letters,
       "AAPL" = Js.str letters
       /\ (1 <= List.length letters <= 5)%nat
       /\ Forall (fun c => Js.isUpper c = true) letters.
Proof.
  assert (Hin : In "AAPL" (extractTickers "What was AAPL's return over the past 2 years?"))
    by (vm_compute; left; reflexivity).
  split; [exact Hin|].
  exact (extractTickers_shape "What was AAPL's return over the past 2 years?" "AAPL" Hin).
Defined.

(** The one range of the query about the past 2 years is a relative
    one. *)
Lemma extractDateRanges_shape_witness :
  In twoYearsBack (@extractDateRanges rt0 returnQuery)
  /\ ((exists before first between last after from to,
          Js.chars returnQuery = (before ++ first ++ between ++ last ++ after)%list
          /\ @parseDate rt0 (Js.str first) = Some from
          /\ @parseDate rt0 (Js.str last) = Some to
          /\ twoYearsBack = mkRange (Some from) (Some to))
      \/ (exists before word gap digits gap' unit after,
             Js.chars returnQuery
             = (before ++ word ++ gap ++ digits ++ gap' ++ unit ++ after)%list
             /\ In (Js.toLowerCase (Js.str word)) ["past"; "last"]
             /\ gap <> [] /\ Forall (fun ch => Js.isSpace ch = true) gap
             /\ digits <> [] /\ Forall (fun ch => Js.isDigit ch = true) digits
             /\ gap' <> [] /\ Forall (fun ch => Js.isSpace ch = true) gap'
             /\ end_ twoYearsBack = Some (@Date_now rt0)
             /\ let amount := Js.digitsValue 0 digits in
                (Js.toLowerCase (Js.str unit) = "year"
                 /\ start twoYearsBack
                    = @Date_setFullYear rt0 (@Date_now rt0)
                        (@Date_getFullYear rt0 (@Date_now rt0) - amount))
                \/ (Js.toLowerCase (Js.str unit) = "month"
                    /\ start twoYearsBack
                       = @Date_setMonth rt0 (@Date_now rt0)
                           (@Date_getMonth rt0 (@Date_now rt0) - amount))
                \/ (Js.toLowerCase (Js.str unit) = "week"
                    /\ start twoYearsBack
                       = @Date_setDate rt0 (@Date_now rt0)
                           (@Date_getDate rt0 (@Date_now rt0) - amount * 7))
                \/ (Js.toLowerCase (Js.str unit) = "day"
                    /\ start twoYearsBack
                       = @Date_setDate rt0 (@Date_now rt0)
                           (@Date_getDate rt0 (@Date_now rt0) - amount)))).
Proof.
  assert (Hin : In twoYearsBack (@extractDateRanges rt0 returnQuery))
    by (vm_compute; left; reflexivity).
  split; [exact Hin|].
  exact (@extractDateRanges_shape rt0 returnQuery twoYearsBack Hin).
Defined.
End Evaluations.
